(** * TrustForge back end: scan pipeline, scoring engine and retry operation

    A shallow embedding of the scan processor
    ([ScanProcessor], the queue worker of the "scan" queue) and of the
    scan service's retry operation ([ScanService.retryScan]), together
    with the properties the design document states about them.

    Layout: the data model and the embedded functions come first, the
    lemmas and theorems follow. *)

From Stdlib Require Import ZArith Lia Ascii String.
From Stdlib Require Init.Byte.
From stdpp Require Import gmap strings list pretty.

Local Open Scope Z_scope.
#[local] Set Warnings "-register-all".


(* ===================================================================== *)
(** * 1. JavaScript values                                                *)
(* ===================================================================== *)

(** Provider payloads are untyped ([any]) in the source: they are the JSON
    bodies of the vendors' HTTP responses, or the small objects the
    processor builds itself ([{ error: msg }], [{ skipped: true, ... }]).
    Objects keep their members in insertion order, as [Object.values]
    and [Object.entries] enumerate them, and hold own members only: none
    of the member names the embedded code reads is inherited from a
    prototype. Numbers are integers: the only numbers the embedded code
    computes with are lengths and the score. *)
Inductive value : Type :=
  | VUndef
  | VNull
  | VBool (b : bool)
  | VNum (z : Z)
  | VStr (s : string)
  | VArr (elems : list value)
  | VObj (members : list (string * value)).

(** The result of a numeric expression: an integer or [NaN]. *)
Inductive number : Type :=
  | Int (z : Z)
  | NaN.

(** A thrown error: its [message] and, for an HTTP client error, the
    status of the response it carries ([error.response?.status]). *)
Record error : Type := mkError {
  message : string;
  response_status : option Z;
}.

(** [new Error(msg)]. *)
Definition Error (msg : string) : error :=
  {| message := msg; response_status := None |}.

(** A JavaScript evaluation either completes normally or throws. *)
Inductive completion (A : Type) : Type :=
  | Normal (a : A)
  | Throw (e : error).
Arguments Normal {A} a.
Arguments Throw {A} e.

Definition cbind {A B} (c : completion A) (k : A -> completion B) : completion B :=
  match c with
  | Normal a => k a
  | Throw e => Throw e
  end.

Declare Scope js_scope.
Delimit Scope js_scope with js.
Notation "x <- c ;; k" := (cbind c (fun x => k))
  (at level 100, c at next level, right associativity) : js_scope.

(** ToBoolean. *)
Definition truthy (v : value) : bool :=
  match v with
  | VUndef | VNull => false
  | VBool b => b
  | VNum z => negb (z =? 0)
  | VStr s => negb (String.eqb s EmptyString)
  | VArr _ | VObj _ => true
  end.

Fixpoint assoc (k : string) (ms : list (string * value)) : option value :=
  match ms with
  | [] => None
  | (k', v) :: ms' => if String.eqb k k' then Some v else assoc k ms'
  end.

Definition type_error : error :=
  Error "TypeError: Cannot read properties of undefined or null".

(** Property read [v.k]. Reading a member of [undefined] or [null] throws;
    arrays and strings have a [length]; any other miss is [undefined]. *)
Definition get (v : value) (k : string) : completion value :=
  match v with
  | VUndef | VNull => Throw type_error
  | VObj ms => Normal (match assoc k ms with Some x => x | None => VUndef end)
  | VArr l => Normal (if String.eqb k "length" then VNum (Z.of_nat (length l)) else VUndef)
  | VStr s => Normal (if String.eqb k "length" then VNum (Z.of_nat (String.length s)) else VUndef)
  | VBool _ | VNum _ => Normal VUndef
  end.

(** Optional chaining [v?.k]. *)
Definition get_opt (v : value) (k : string) : completion value :=
  match v with
  | VUndef | VNull => Normal VUndef
  | _ => get v k
  end.

(** A destructuring default [{ k = d } = v]: the default replaces
    [undefined] only. *)
Definition get_default (v : value) (k : string) (d : value) : completion value :=
  (x <- get v k ;;
   Normal (match x with VUndef => d | _ => x end))%js.

Fixpoint chars (s : string) : list value :=
  match s with
  | EmptyString => []
  | String c s' => VStr (String c EmptyString) :: chars s'
  end.

(** [Object.values(v)]. *)
Definition object_values (v : value) : completion (list value) :=
  match v with
  | VUndef | VNull => Throw (Error "TypeError: Cannot convert undefined or null to object")
  | VObj ms => Normal (map snd ms)
  | VArr l => Normal l
  | VStr s => Normal (chars s)
  | VBool _ | VNum _ => Normal []
  end.

(** [v === "lit"]. *)
Definition is_string (v : value) (lit : string) : bool :=
  match v with
  | VStr s => String.eqb s lit
  | _ => false
  end.

(** [xs.filter(p)] for a callback that may throw. *)
Fixpoint filterM (p : value -> completion bool) (xs : list value) : completion (list value) :=
  match xs with
  | [] => Normal []
  | x :: xs' =>
      (b <- p x ;;
       rest <- filterM p xs' ;;
       Normal (if b then x :: rest else rest))%js
  end.

(** ToNumber, on the values a [length] read can produce. A string, array
    or object operand needs the StringToNumber grammar, which lies outside
    the modelled fragment: it is read as [NaN]. *)
Definition to_number (v : value) : number :=
  match v with
  | VNum z => Int z
  | VNull => Int 0
  | VBool b => Int (if b then 1 else 0)
  | VUndef => NaN
  | VStr _ | VArr _ | VObj _ => NaN
  end.

Definition num_mul (a b : number) : number :=
  match a, b with
  | Int x, Int y => Int (x * y)
  | _, _ => NaN
  end.

Definition num_sub (a b : number) : number :=
  match a, b with
  | Int x, Int y => Int (x - y)
  | _, _ => NaN
  end.

(** [Math.min] and [Math.max]: [NaN] if an argument is [NaN]. *)
Definition math_min (a b : number) : number :=
  match a, b with
  | Int x, Int y => Int (Z.min x y)
  | _, _ => NaN
  end.

Definition math_max (a b : number) : number :=
  match a, b with
  | Int x, Int y => Int (Z.max x y)
  | _, _ => NaN
  end.

(** [v.length * k], the shape of every per-finding deduction. *)
Definition length_times (v : value) (k : Z) : completion number :=
  (len <- get v "length" ;;
   Normal (num_mul (to_number len) (Int k)))%js.

(* ===================================================================== *)
(** * 2. Scoring engine                                                   *)
(* ===================================================================== *)

(** The argument of [calculateTFScore] and [generateRecommendations]: one
    member per provider ([undefined] when absent). *)
Record Results : Type := mkResults {
  mobsf : value;
  virustotal : value;
  metadefender : value;
  hybridAnalysis : value;
}.

Definition category_is_malicious (result : value) : completion bool :=
  (c <- get result "category" ;; Normal (is_string c "malicious"))%js.

Definition threat_found (detail : value) : completion bool :=
  (t <- get detail "threat_found" ;; Normal (truthy t))%js.

(** [Object.values(v).filter(p).length]. *)
Definition count_values (p : value -> completion bool) (v : value) : completion Z :=
  (vals <- object_values v ;;
   hits <- filterM p vals ;;
   Normal (Z.of_nat (length hits)))%js.

Definition score_mobsf (results : Results) (score : number) : completion number :=
  (appsec <- get_opt (mobsf results) "appsec" ;;
   if truthy appsec then
     high <- get_default appsec "high" (VArr []) ;;
     medium <- get_default appsec "medium" (VArr []) ;;
     low <- get_default appsec "low" (VArr []) ;;
     dh <- length_times high 10 ;;
     let score := num_sub score dh in
     dm <- length_times medium 5 ;;
     let score := num_sub score dm in
     dl <- length_times low 2 ;;
     Normal (num_sub score dl)
   else Normal score)%js.

(** [results.x && !results.x.error]. *)
Definition present_without_error (v : value) : completion bool :=
  if truthy v then (e <- get v "error" ;; Normal (negb (truthy e)))%js
  else Normal false.

Definition score_virustotal (results : Results) (score : number) : completion number :=
  (go <- present_without_error (virustotal results) ;;
   if go then
     maliciousCount <- count_values category_is_malicious (virustotal results) ;;
     Normal (num_sub score (Int (maliciousCount * 5)))
   else Normal score)%js.

Definition score_metadefender (results : Results) (score : number) : completion number :=
  (go <- present_without_error (metadefender results) ;;
   if go then
     details <- get (metadefender results) "scan_details" ;;
     maliciousCount <-
       (if truthy details then count_values threat_found details else Normal 0) ;;
     Normal (num_sub score (Int (maliciousCount * 5)))
   else Normal score)%js.

Definition score_hybridAnalysis (results : Results) (score : number) : completion number :=
  (go <- present_without_error (hybridAnalysis results) ;;
   if go then
     verdict <- get (hybridAnalysis results) "verdict" ;;
     threats <- get_default (hybridAnalysis results) "threats" (VArr []) ;;
     let score :=
       if is_string verdict "malicious" then num_sub score (Int 20)
       else if is_string verdict "suspicious" then num_sub score (Int 10)
       else score in
     dt <- length_times threats 3 ;;
     Normal (num_sub score dt)
   else Normal score)%js.

Definition calculateTFScore (results : Results) : completion number :=
  (let score := Int 100 in
   score <- score_mobsf results score ;;
   score <- score_virustotal results score ;;
   score <- score_metadefender results score ;;
   score <- score_hybridAnalysis results score ;;
   Normal (math_max (Int 0) (math_min (Int 100) score)))%js.

Definition rec_high : string := "Fix high-severity vulnerabilities immediately.".
Definition rec_medium : string := "Review and address medium-severity vulnerabilities.".
Definition rec_low : string := "Follow best practices to address low-severity issues.".
Definition rec_virustotal : string := "Investigate files flagged as malicious by VirusTotal.".
Definition rec_metadefender : string := "Review threats identified by MetaDefender.".
Definition rec_hybrid : string := "Take immediate action on malicious findings from Hybrid Analysis.".

(** [scanResults.mobsf?.appsec?.<severity>?.length], as a condition. *)
Definition has_findings (m : value) (severity : string) : completion bool :=
  (appsec <- get_opt m "appsec" ;;
   l <- get_opt appsec severity ;;
   n <- get_opt l "length" ;;
   Normal (truthy n))%js.

Definition push_if (b : bool) (s : string) (recs : list string) : list string :=
  if b then recs ++ [s] else recs.

Definition generateRecommendations (scanResults : Results) : completion (list string) :=
  (let recommendations := [] in
   h <- has_findings (mobsf scanResults) "high" ;;
   let recommendations := push_if h rec_high recommendations in
   m <- has_findings (mobsf scanResults) "medium" ;;
   let recommendations := push_if m rec_medium recommendations in
   l <- has_findings (mobsf scanResults) "low" ;;
   let recommendations := push_if l rec_low recommendations in
   vt <- (if truthy (virustotal scanResults)
          then n <- count_values category_is_malicious (virustotal scanResults) ;;
               Normal (0 <? n)
          else Normal false) ;;
   let recommendations := push_if vt rec_virustotal recommendations in
   details <- get_opt (metadefender scanResults) "scan_details" ;;
   md <- (if truthy details
          then n <- count_values threat_found details ;; Normal (0 <? n)
          else Normal false) ;;
   let recommendations := push_if md rec_metadefender recommendations in
   verdict <- get_opt (hybridAnalysis scanResults) "verdict" ;;
   let recommendations := push_if (is_string verdict "malicious") rec_hybrid recommendations in
   Normal recommendations)%js.

(* ===================================================================== *)
(** * 3. Result bundles                                                   *)
(* ===================================================================== *)

(** The design document's data model: a bundle holds one outcome per
    provider, and an outcome is a success with the provider's payload, a
    failure or a skip. The payload records below keep what the scoring
    engine reads of each vendor's report. *)
Inductive Outcome (P : Type) : Type :=
  | Success (payload : P)
  | Failed (reason : string)
  | Skipped (reason : string).
Arguments Success {P} payload.
Arguments Failed {P} reason.
Arguments Skipped {P} reason.

(** Static analysis (MobSF): the severity-tagged lists of [appsec]. *)
Record StaticFindings : Type := mkStatic {
  sf_high : list value;
  sf_medium : list value;
  sf_low : list value;
}.

(** AV aggregator (VirusTotal): engine name and the engine's category. *)
Abbreviation EngineVerdicts := (list (string * string)).

(** Reputation service (MetaDefender): engine name and the name of the
    threat it found, empty when it found none. *)
Abbreviation EngineThreats := (list (string * string)).

(** Sandbox (Hybrid Analysis): overall verdict and identified threats. *)
Record SandboxReport : Type := mkSandbox {
  sb_verdict : string;
  sb_threats : list value;
}.

Record Bundle : Type := mkBundle {
  static_analysis : Outcome StaticFindings;
  av : Outcome EngineVerdicts;
  reputation : Outcome EngineThreats;
  sandbox : Outcome SandboxReport;
}.

(** How the processor represents outcomes. A payload is kept as it came;
    a caught failure becomes [{ error: message }] (lines 80, 88, 96 of the
    processor); a skip is [{ skipped: true, reason }] (line 965). *)
Definition failed_object (reason : string) : value :=
  VObj [("error", VStr reason)].

Definition skipped_object (reason : string) : value :=
  VObj [("skipped", VBool true); ("reason", VStr reason)].

(** The AV client reports its own failures: it returns, not throws,
    this object (line 1037), which carries both marks. *)
Definition vt_failed_object (reason : string) : value :=
  VObj [("error", VStr reason);
        ("skipped", VBool true);
        ("reason", VStr "VirusTotal scan failed")].

Definition encode_outcome {P} (enc : P -> value) (failed : string -> value)
    (o : Outcome P) : value :=
  match o with
  | Success p => enc p
  | Failed r => failed r
  | Skipped r => skipped_object r
  end.

Definition encode_static (p : StaticFindings) : value :=
  VObj [("appsec",
         VObj [("high", VArr (sf_high p));
               ("medium", VArr (sf_medium p));
               ("low", VArr (sf_low p))])].

Definition encode_verdicts (p : EngineVerdicts) : value :=
  VObj (map (fun ec => (ec.1, VObj [("category", VStr ec.2)])) p).

(** The reputation client returns a report only once its progress is 100
    (line 1168). *)
Definition encode_threats (p : EngineThreats) : value :=
  VObj [("scan_details",
         VObj (map (fun et => (et.1, VObj [("threat_found", VStr et.2)])) p));
        ("progress_percentage", VNum 100)].

Definition encode_sandbox (p : SandboxReport) : value :=
  VObj [("verdict", VStr (sb_verdict p)); ("threats", VArr (sb_threats p))].

Definition encode_static_outcome := encode_outcome encode_static failed_object.
Definition encode_av_outcome := encode_outcome encode_verdicts vt_failed_object.
Definition encode_reputation_outcome := encode_outcome encode_threats failed_object.
Definition encode_sandbox_outcome := encode_outcome encode_sandbox failed_object.

Definition encode (b : Bundle) : Results :=
  {| mobsf := encode_static_outcome (static_analysis b);
     virustotal := encode_av_outcome (av b);
     metadefender := encode_reputation_outcome (reputation b);
     hybridAnalysis := encode_sandbox_outcome (sandbox b) |}.

(** The processor tells a failed outcome from a payload by its [error]
    member, so an AV payload is recognisable as one only if no engine is
    called "error". *)
Definition engines_ok (p : EngineVerdicts) : Prop :=
  Forall (fun ec => ec.1 <> "error") p.

Definition bundle_ok (b : Bundle) : Prop :=
  match av b with
  | Success p => engines_ok p
  | _ => True
  end.

Global Instance bundle_ok_dec (b : Bundle) : Decision (bundle_ok b).
Proof. unfold bundle_ok, engines_ok. destruct (av b); apply _. Defined.

(** Replacing the outcome of one provider. *)
Definition set_static (o : Outcome StaticFindings) (b : Bundle) : Bundle :=
  {| static_analysis := o; av := av b; reputation := reputation b; sandbox := sandbox b |}.
Definition set_av (o : Outcome EngineVerdicts) (b : Bundle) : Bundle :=
  {| static_analysis := static_analysis b; av := o;
     reputation := reputation b; sandbox := sandbox b |}.
Definition set_reputation (o : Outcome EngineThreats) (b : Bundle) : Bundle :=
  {| static_analysis := static_analysis b; av := av b;
     reputation := o; sandbox := sandbox b |}.
Definition set_sandbox (o : Outcome SandboxReport) (b : Bundle) : Bundle :=
  {| static_analysis := static_analysis b; av := av b;
     reputation := reputation b; sandbox := o |}.

(** The outcome carries no payload: it is failed or skipped. *)
Definition no_payload {P} (o : Outcome P) : Prop :=
  match o with
  | Success _ => False
  | Failed _ | Skipped _ => True
  end.

(** ** Adverse-finding counts *)

Definition malicious_engines (p : EngineVerdicts) : nat :=
  length (filter (fun ec => ec.2 = "malicious") p).

Definition detections (p : EngineThreats) : nat :=
  length (filter (fun et => et.2 <> EmptyString) p).

(** ** The scoring rule in the design document's words

    "Starts at 100. Deductions: -10 per high-severity static-analysis
    finding, -5 per medium, -2 per low; -5 per AV engine reporting
    malicious; -5 per reputation-service detection; -20 for an
    overall-malicious sandbox verdict, -10 for suspicious, -3 per
    identified sandbox threat. Final score clamped to [0,100]. A
    Failed/Skipped provider outcome contributes zero deduction." *)
Definition spec_deduction {P} (d : P -> Z) (o : Outcome P) : Z :=
  match o with
  | Success p => d p
  | Failed _ | Skipped _ => 0
  end.

Definition spec_static (p : StaticFindings) : Z :=
  10 * Z.of_nat (length (sf_high p))
  + 5 * Z.of_nat (length (sf_medium p))
  + 2 * Z.of_nat (length (sf_low p)).

Definition spec_av (p : EngineVerdicts) : Z :=
  5 * Z.of_nat (malicious_engines p).

Definition spec_reputation (p : EngineThreats) : Z :=
  5 * Z.of_nat (detections p).

Definition spec_verdict (verdict : string) : Z :=
  if decide (verdict = "malicious") then 20
  else if decide (verdict = "suspicious") then 10
  else 0.

Definition spec_sandbox (p : SandboxReport) : Z :=
  spec_verdict (sb_verdict p) + 3 * Z.of_nat (length (sb_threats p)).

Definition clamp (z : Z) : Z := Z.max 0 (Z.min 100 z).

Definition spec_score (b : Bundle) : Z :=
  clamp (100
         - spec_deduction spec_static (static_analysis b)
         - spec_deduction spec_av (av b)
         - spec_deduction spec_reputation (reputation b)
         - spec_deduction spec_sandbox (sandbox b)).

(** One provider's adverse-finding count grows, everything else is held
    fixed: [b'] is [b] with more findings of one provider. *)
Inductive more_findings (b b' : Bundle) : Prop :=
  | more_static p p' :
      static_analysis b = Success p -> static_analysis b' = Success p' ->
      (length (sf_high p) <= length (sf_high p'))%nat ->
      (length (sf_medium p) <= length (sf_medium p'))%nat ->
      (length (sf_low p) <= length (sf_low p'))%nat ->
      av b' = av b -> reputation b' = reputation b -> sandbox b' = sandbox b ->
      more_findings b b'
  | more_av p p' :
      av b = Success p -> av b' = Success p' ->
      (malicious_engines p <= malicious_engines p')%nat ->
      static_analysis b' = static_analysis b ->
      reputation b' = reputation b -> sandbox b' = sandbox b ->
      more_findings b b'
  | more_reputation p p' :
      reputation b = Success p -> reputation b' = Success p' ->
      (detections p <= detections p')%nat ->
      static_analysis b' = static_analysis b ->
      av b' = av b -> sandbox b' = sandbox b ->
      more_findings b b'
  | more_sandbox p p' :
      sandbox b = Success p -> sandbox b' = Success p' ->
      sb_verdict p' = sb_verdict p ->
      (length (sb_threats p) <= length (sb_threats p'))%nat ->
      static_analysis b' = static_analysis b ->
      av b' = av b -> reputation b' = reputation b ->
      more_findings b b'.

(** The end-to-end scenario of the design document: two high and one
    medium static finding, one malicious engine out of ten, a clean
    sandbox verdict, the reputation service skipped. *)
Definition scenario : Bundle :=
  {| static_analysis :=
       Success {| sf_high := [VStr "h1"; VStr "h2"];
                  sf_medium := [VStr "m1"];
                  sf_low := [] |};
     av := Success [("Avast", "malicious"); ("AVG", "undetected");
                    ("Avira", "undetected"); ("BitDefender", "undetected");
                    ("ClamAV", "undetected"); ("ESET-NOD32", "undetected");
                    ("Kaspersky", "undetected"); ("McAfee", "undetected");
                    ("Sophos", "harmless"); ("Symantec", "undetected")];
     reputation := Skipped "file exceeds the size limit";
     sandbox := Success {| sb_verdict := "clean"; sb_threats := [] |} |}.

(** The scenario with a third high-severity finding. *)
Definition scenario_worse : Bundle :=
  set_static (Success {| sf_high := [VStr "h1"; VStr "h2"; VStr "h3"];
                         sf_medium := [VStr "m1"];
                         sf_low := [] |}) scenario.

(** The scenario with a second malicious engine, one called "error". *)
Definition scenario_error_engine : Bundle :=
  set_av (Success [("Avast", "malicious"); ("error", "malicious")]) scenario.

(** The scenario with two AV engines, of which the one that reports
    malicious is called "error". *)
Definition scenario_engine_named_error : Bundle :=
  set_av (Success [("error", "malicious"); ("AVG", "undetected")]) scenario.

Definition all_skipped (r1 r2 r3 r4 : string) : Bundle :=
  {| static_analysis := Skipped r1;
     av := Skipped r2;
     reputation := Skipped r3;
     sandbox := Skipped r4 |}.

(* ===================================================================== *)
(** * 4. Poll drivers                                                     *)
(* ===================================================================== *)

(** ** String helpers of the log poller *)

Fixpoint starts_with (p s : string) : bool :=
  match p, s with
  | EmptyString, _ => true
  | String a p', String b s' => Ascii.eqb a b && starts_with p' s'
  | String _ _, EmptyString => false
  end.

(** [s.includes(sub)]. *)
Fixpoint includes (sub s : string) : bool :=
  starts_with sub s ||
  match s with
  | EmptyString => false
  | String _ s' => includes sub s'
  end.

(** [s.split(sep)[0]] for a non-empty separator: the text before the
    first occurrence of [sep], all of [s] if there is none. *)
Fixpoint before (sep s : string) : string :=
  if starts_with sep s then EmptyString
  else match s with
       | EmptyString => EmptyString
       | String c s' => String c (before sep s')
       end.

Definition lower_char (c : ascii) : ascii :=
  let n := nat_of_ascii c in
  if ((65 <=? n) && (n <=? 90))%nat then ascii_of_nat (n + 32) else c.

(** [s.toLowerCase()], on ASCII letters. *)
Fixpoint toLowerCase (s : string) : string :=
  match s with
  | EmptyString => EmptyString
  | String c s' => String (lower_char c) (toLowerCase s')
  end.

(** ** The run of a poll loop

    A poll loop is run against a script: the answer the provider gives to
    the request of each attempt, attempts counted from 1 as the source's
    [attempts] counter does. The run records how the loop ended, how many
    requests it sent and how often it waited for the poll interval. *)
Record PollRun (A : Type) : Type := mkPollRun {
  poll_result : completion A;
  poll_attempts : nat;
  poll_waits : nat;
}.
Arguments mkPollRun {A} _ _ _.
Arguments poll_result {A} _.
Arguments poll_attempts {A} _.
Arguments poll_waits {A} _.

(** ** VirusTotal: [pollVirusTotalResults] *)

(** The answer to one [GET /analyses/{id}]: the request throws (or the
    body lacks [data.data.attributes], and reading the status throws), or
    the body carries a status and the results. *)
Inductive VtAnswer : Type :=
  | VtThrows (e : error)
  | VtStatus (status : string) (results : value).

Definition vt_maxAttempts : nat := 30.

Definition vt_timeout_with (e : error) : error :=
  Error ("VirusTotal scan timed out after 30 attempts: " +:+ message e).

Definition vt_timeout : error :=
  Error "VirusTotal scan timed out after 30 attempts".

(** The loop [while (attempts < maxAttempts)]. Every iteration increments
    [attempts] first, so the loop runs while [remaining], the attempts
    left in the budget, is positive: [attempts + remaining = maxAttempts]
    throughout. [vt_catch] is the [catch] clause of the loop body. *)
Fixpoint vt_loop (script : nat -> VtAnswer) (remaining attempts waits : nat)
  : PollRun value :=
  match remaining with
  | O => mkPollRun (Throw vt_timeout) attempts waits
  | S remaining' =>
      let attempts := S attempts in
      let vt_catch (e : error) :=
        if (vt_maxAttempts <=? attempts)%nat
        then mkPollRun (Throw (vt_timeout_with e)) attempts waits
        else vt_loop script remaining' attempts (S waits) in
      match script attempts with
      | VtThrows e => vt_catch e
      | VtStatus status results =>
          if String.eqb status "completed" then
            mkPollRun (Normal results) attempts waits
          else if String.eqb status "queued" || String.eqb status "in-progress" then
            vt_loop script remaining' attempts (S waits)
          else if String.eqb status "failed" then
            vt_catch (Error "VirusTotal analysis failed")
          else
            vt_loop script remaining' attempts waits
      end
  end.

Definition pollVirusTotalResults (script : nat -> VtAnswer) : PollRun value :=
  vt_loop script vt_maxAttempts 0 0.

(** The signals of an answer: done, with the payload; pending; failed. *)
Definition vt_done (a : VtAnswer) : option value :=
  match a with
  | VtStatus status results =>
      if String.eqb status "completed" then Some results else None
  | VtThrows _ => None
  end.

Definition vt_pending (a : VtAnswer) : bool :=
  match a with
  | VtStatus status _ => String.eqb status "queued" || String.eqb status "in-progress"
  | VtThrows _ => false
  end.

Definition vt_failed (a : VtAnswer) : bool :=
  match a with
  | VtStatus status _ => String.eqb status "failed"
  | VtThrows _ => false
  end.

(** ** MobSF: [pollMobSFScanLogs] *)

(** A log entry is a string, or an object, of which the poller reads the
    [timestamp] member (a string, or [None] when it is missing) and the
    [JSON.stringify] rendering. *)
Inductive LogEntry : Type :=
  | LogStr (s : string)
  | LogObj (timestamp : option string) (json : string).

(** The answer to one [POST /api/v1/scan_logs]: the request throws, or it
    returns a body whose [logs] member is an array ([Some]) or is not
    ([None], also when the body is empty). *)
Inductive MobsfAnswer : Type :=
  | MobThrows (e : error)
  | MobBody (logs : option (list LogEntry)).

Definition mobsf_maxAttempts : nat := 60.

Definition mobsf_timeout_with (e : error) : error :=
  Error ("MobSF scan timed out after 60 attempts: " +:+ message e).

Definition mobsf_timeout : error :=
  Error "MobSF scan timed out after 60 attempts".

Definition log_timestamp (lastLog : LogEntry) : option string :=
  match lastLog with
  | LogStr s => Some (before " - " s)
  | LogObj ts _ => ts
  end.

Definition log_text (lastLog : LogEntry) : string :=
  match lastLog with
  | LogStr s => s
  | LogObj _ json => json
  end.

Definition completion_indicator (lastLogLower : string) : bool :=
  includes "scan completed" lastLogLower
  || includes "scan finished" lastLogLower
  || includes "scan done" lastLogLower
  || includes "saving to database" lastLogLower
  || includes "static analyzer completed" lastLogLower.

Definition failure_indicator (lastLogLower : string) : bool :=
  includes "scan failed" lastLogLower || includes "error" lastLogLower.

(** The loop of [pollMobSFScanLogs], with [remaining] as in [vt_loop];
    [lastLogTimestamp] is the loop's memory of the last entry it looked
    at. The payload returned is the body of the answer, here its logs. *)
Fixpoint mobsf_loop (script : nat -> MobsfAnswer) (remaining attempts waits : nat)
    (lastLogTimestamp : option string) : PollRun (list LogEntry) :=
  match remaining with
  | O => mkPollRun (Throw mobsf_timeout) attempts waits
  | S remaining' =>
      let attempts := S attempts in
      let mobsf_catch (e : error) (lastLogTimestamp : option string) :=
        if (mobsf_maxAttempts <=? attempts)%nat
        then mkPollRun (Throw (mobsf_timeout_with e)) attempts waits
        else mobsf_loop script remaining' attempts (S waits) lastLogTimestamp in
      match script attempts with
      | MobThrows e => mobsf_catch e lastLogTimestamp
      | MobBody None => mobsf_catch (Error "Invalid logs response format") lastLogTimestamp
      | MobBody (Some logs) =>
          match last logs with
          | None => mobsf_loop script remaining' attempts (S waits) lastLogTimestamp
          | Some lastLog =>
              let currentLogTimestamp := log_timestamp lastLog in
              if decide (currentLogTimestamp = lastLogTimestamp) then
                mobsf_loop script remaining' attempts (S waits) lastLogTimestamp
              else
                let lastLogTimestamp := currentLogTimestamp in
                let lastLogStr := log_text lastLog in
                let lastLogLower := toLowerCase lastLogStr in
                if completion_indicator lastLogLower then
                  mkPollRun (Normal logs) attempts waits
                else if failure_indicator lastLogLower then
                  mobsf_catch (Error ("Scan failed: " +:+ lastLogStr)) lastLogTimestamp
                else
                  mobsf_loop script remaining' attempts (S waits) lastLogTimestamp
          end
      end
  end.

Definition pollMobSFScanLogs (script : nat -> MobsfAnswer) : PollRun (list LogEntry) :=
  mobsf_loop script mobsf_maxAttempts 0 0 (Some EmptyString).

(** ** MetaDefender: [pollMetaDefenderResults] *)

(** The answer to one [GET /file/{dataId}]: the request throws, or the
    body carries [scan_results]. *)
Inductive MdAnswer : Type :=
  | MdThrows (e : error)
  | MdResults (scan_results : value).

Definition md_maxAttempts : nat := 30.

Definition md_timeout_with (e : error) : error :=
  Error ("MetaDefender scan timed out after 30 attempts: " +:+ message e).

Definition md_timeout : error :=
  Error "MetaDefender scan timed out after 30 attempts".

(** [status === 100]. *)
Definition is_hundred (status : value) : bool :=
  match status with
  | VNum z => z =? 100
  | _ => false
  end.

(** The loop of [pollMetaDefenderResults]: the provider has no failure
    signal, the scan is done when its progress is 100. *)
Fixpoint md_loop (script : nat -> MdAnswer) (remaining attempts waits : nat)
  : PollRun value :=
  match remaining with
  | O => mkPollRun (Throw md_timeout) attempts waits
  | S remaining' =>
      let attempts := S attempts in
      let md_catch (e : error) :=
        if (md_maxAttempts <=? attempts)%nat
        then mkPollRun (Throw (md_timeout_with e)) attempts waits
        else md_loop script remaining' attempts (S waits) in
      match script attempts with
      | MdThrows e => md_catch e
      | MdResults scan_results =>
          match get scan_results "progress_percentage" with
          | Throw e => md_catch e
          | Normal status =>
              if is_hundred status then mkPollRun (Normal scan_results) attempts waits
              else md_loop script remaining' attempts (S waits)
          end
      end
  end.

Definition pollMetaDefenderResults (script : nat -> MdAnswer) : PollRun value :=
  md_loop script md_maxAttempts 0 0.

(** ** Hybrid Analysis: [pollHybridAnalysisResults] *)

(** The answer to one [GET /report/{jobId}/state]: the request throws, or
    the body carries a state; [summary] is what the request for the full
    report answers, sent when the state is "SUCCESS". *)
Inductive HaAnswer : Type :=
  | HaThrows (e : error)
  | HaState (state : string) (summary : completion value).

Definition ha_maxAttempts : nat := 30.

Definition ha_timeout_with (e : error) : error :=
  Error ("Hybrid Analysis scan timed out after 30 attempts: " +:+ message e).

Definition ha_timeout : error :=
  Error "Hybrid Analysis scan timed out after 30 attempts".

(** The loop of [pollHybridAnalysisResults]. Both branches of its [catch]
    clause below the budget check wait and go on. *)
Fixpoint ha_loop (script : nat -> HaAnswer) (remaining attempts waits : nat)
  : PollRun value :=
  match remaining with
  | O => mkPollRun (Throw ha_timeout) attempts waits
  | S remaining' =>
      let attempts := S attempts in
      let ha_catch (e : error) :=
        if (ha_maxAttempts <=? attempts)%nat
        then mkPollRun (Throw (ha_timeout_with e)) attempts waits
        else if bool_decide (response_status e = Some 404)
        then ha_loop script remaining' attempts (S waits)
        else ha_loop script remaining' attempts (S waits) in
      match script attempts with
      | HaThrows e => ha_catch e
      | HaState state summary =>
          if String.eqb state "SUCCESS" then
            match summary with
            | Normal report => mkPollRun (Normal report) attempts waits
            | Throw e => ha_catch e
            end
          else if String.eqb state "IN_PROGRESS" then
            ha_loop script remaining' attempts (S waits)
          else if String.eqb state "ERROR" then
            ha_catch (Error "Hybrid Analysis scan failed")
          else
            ha_loop script remaining' attempts waits
      end
  end.

Definition pollHybridAnalysisResults (script : nat -> HaAnswer) : PollRun value :=
  ha_loop script ha_maxAttempts 0 0.

(** Scripts given as lists: the answer to attempt [n] is the [n]-th entry,
    and [dflt] once the list is used up. *)
Definition script_of {A} (answers : list A) (dflt : A) (attempt : nat) : A :=
  nth (attempt - 1) answers dflt.

(* ===================================================================== *)
(** * 5. Job records, the queue and the worker's surroundings             *)
(* ===================================================================== *)

Abbreviation byte := Init.Byte.byte.

(** A row of the [scans] table (the two timestamps, which the database
    maintains by itself, are left out). *)
Record ScanRecord : Type := mkScan {
  scan_id : string;
  user_id : string;
  file_name : string;
  file_url : string;
  scan_status : string;
  report_data : option Results;
  tf_score : option Z;
  pdf_report_url : option string;
}.

(** The argument of [.update(...)]: the columns it names. *)
Record ScanUpdate : Type := mkUpdate {
  set_scan_status : option string;
  set_tf_score : option Z;
  set_pdf_report_url : option string;
  set_report_data : option Results;
}.

Definition apply_update (u : ScanUpdate) (r : ScanRecord) : ScanRecord :=
  {| scan_id := scan_id r;
     user_id := user_id r;
     file_name := file_name r;
     file_url := file_url r;
     scan_status := default (scan_status r) (set_scan_status u);
     report_data := match set_report_data u with Some d => Some d | None => report_data r end;
     tf_score := match set_tf_score u with Some t => Some t | None => tf_score r end;
     pdf_report_url :=
       match set_pdf_report_url u with Some p => Some p | None => pdf_report_url r end |}.

(** [{ scan_status: status }]. *)
Definition status_only (status : string) : ScanUpdate :=
  {| set_scan_status := Some status;
     set_tf_score := None;
     set_pdf_report_url := None;
     set_report_data := None |}.

(** The data of a job of the "scan" queue. *)
Record JobData : Type := mkJob {
  job_scanId : string;
  job_userId : string;
  job_filePath : string;
}.

Inductive Provider : Type := MobSF | VirusTotal | MetaDefender | HybridAnalysis.

Global Instance Provider_eq_dec : EqDecision Provider.
Proof. solve_decision. Defined.

(** What an observer of the worker and of the service can see happen. *)
Inductive Event : Type :=
  | Dispatched (p : Provider)          (* the provider's scan is called *)
  | Settled (p : Provider)             (* the await on it returns or throws *)
  | Assembled                          (* [combinedResults] is built *)
  | Enqueued (j : JobData)             (* [scanQueue.add("process", j)] *)
  | UpdateSent (id : string) (u : ScanUpdate).  (* [.update(u).eq("scan_id", id)] *)

(** The state the worker and the service act on. *)
Record System : Type := mkSystem {
  scans : gmap string ScanRecord;      (* table [scans], by [scan_id] *)
  temp : gmap string (list string);    (* local directories and their files *)
  reports : gmap string (list byte);   (* bucket [app-pdf-reports] *)
  queue : list JobData;                (* the "scan" queue *)
  trace : list Event;                  (* oldest first *)
}.

Definition with_scans (f : gmap string ScanRecord -> gmap string ScanRecord) (s : System) :=
  {| scans := f (scans s); temp := temp s; reports := reports s;
     queue := queue s; trace := trace s |}.
Definition with_temp (f : gmap string (list string) -> gmap string (list string)) (s : System) :=
  {| scans := scans s; temp := f (temp s); reports := reports s;
     queue := queue s; trace := trace s |}.
Definition with_reports (f : gmap string (list byte) -> gmap string (list byte)) (s : System) :=
  {| scans := scans s; temp := temp s; reports := f (reports s);
     queue := queue s; trace := trace s |}.
Definition with_queue (f : list JobData -> list JobData) (s : System) :=
  {| scans := scans s; temp := temp s; reports := reports s;
     queue := f (queue s); trace := trace s |}.
Definition with_trace (f : list Event -> list Event) (s : System) :=
  {| scans := scans s; temp := temp s; reports := reports s;
     queue := queue s; trace := f (trace s) |}.

(** The argument of [generatePDFReport]. *)
Record PdfData : Type := mkPdfData {
  pdf_scanId : string;
  pdf_fileName : string;
  pdf_tfScore : number;
  pdf_findings : Results;
  pdf_reportData : value;
}.

(** The collaborators outside the embedded code, each given by what it
    answers: Node's [path] and [fs], the HTTP client, the vendors'
    services, the PDF renderer, the object store, the record store and
    the queue. *)
Record World : Type := mkWorld {
  cwd : string;
  path_basename : string -> string;          (* [path.basename(p)] *)
  path_stem : string -> string;              (* [path.basename(p, path.extname(p))] *)
  fs_mkdir : string -> completion unit;
  fs_writeFile : string -> completion unit;
  fs_rm : string -> completion unit;
  storage_publicUrl : string -> option string;
  http_download : string -> completion (Z * list byte);
  mobsf_upload : completion unit;            (* [POST /api/v1/upload] *)
  mobsf_start : completion unit;             (* [POST /api/v1/scan] *)
  mobsf_logs : nat -> MobsfAnswer;           (* [POST /api/v1/scan_logs], per attempt *)
  mobsf_report : completion value;           (* [POST /api/v1/report_json] *)
  vt_stat : completion Z;                    (* size of the local file, in bytes *)
  vt_size_text : Z -> string;                (* [(size / 2^20).toFixed(2)] *)
  vt_upload : completion unit;               (* upload URL, upload, status check *)
  vt_analyses : nat -> VtAnswer;             (* [GET /analyses/{id}], per attempt *)
  vt_hash_lookup : completion (Z * value);   (* status and [last_analysis_results] *)
  local_file_mime : completion (option string);  (* read the local file, detect its type *)
  md_upload : completion Z;                  (* [POST /v4/file]: the status *)
  md_progress : nat -> MdAnswer;             (* [GET /v4/file/{dataId}], per attempt *)
  ha_upload : completion Z;                  (* [POST /submit/file]: the status *)
  ha_states : nat -> HaAnswer;               (* [GET /report/{jobId}/state], per attempt *)
  render_pdf : PdfData -> completion (list byte);
  storage_upload_fails : string -> bool;     (* [upload] answers with an error *)
  store_readable : bool;                     (* [select] answers without an error *)
  store_accepts : string -> ScanUpdate -> bool;  (* [update] answers without an error *)
  queue_add : JobData -> completion unit;
}.

(** ** State and exceptions *)

Definition M (A : Type) : Type := System -> System * completion A.

Definition ret {A} (a : A) : M A := fun s => (s, Normal a).
Definition throw {A} (e : error) : M A := fun s => (s, Throw e).
Definition lift {A} (c : completion A) : M A := fun s => (s, c).

Definition bind {A B} (m : M A) (k : A -> M B) : M B :=
  fun s => match m s with
           | (s', Normal a) => k a s'
           | (s', Throw e) => (s', Throw e)
           end.

(** [try { body } catch (e) { handler e }]. *)
Definition try_catch {A} (body : M A) (handler : error -> M A) : M A :=
  fun s => match body s with
           | (s', Normal a) => (s', Normal a)
           | (s', Throw e) => handler e s'
           end.

Declare Scope pipeline_scope.
Delimit Scope pipeline_scope with pipeline.
Notation "x <- c ;; k" := (bind c (fun x => k))
  (at level 100, c at next level, right associativity) : pipeline_scope.

Definition emit (ev : Event) : M unit :=
  fun s => (with_trace (fun t => t ++ [ev]) s, Normal tt).

(** [if (c) throw new Error(msg)]. *)
Definition throw_if (c : bool) (msg : string) : M unit :=
  if c then throw (Error msg) else ret tt.

(** [await fsPromises.mkdir(dir, { recursive: true })]. *)
Definition mkdir (w : World) (dir : string) : M unit :=
  fun s => match fs_mkdir w dir with
           | Normal _ =>
               (with_temp (fun t => match t !! dir with
                                    | Some _ => t
                                    | None => <[dir := []]> t
                                    end) s, Normal tt)
           | Throw e => (s, Throw e)
           end.

(** [await fsPromises.writeFile(dir/name, data)]. *)
Definition writeFile (w : World) (dir name : string) : M unit :=
  fun s => match fs_writeFile w (dir +:+ "/" +:+ name) with
           | Normal _ => (with_temp (alter (fun fs => fs ++ [name]) dir) s, Normal tt)
           | Throw e => (s, Throw e)
           end.

(** [await fsPromises.rm(dir, { recursive: true, force: true })]. *)
Definition rm (w : World) (dir : string) : M unit :=
  fun s => match fs_rm w dir with
           | Normal _ => (with_temp (delete dir) s, Normal tt)
           | Throw e => (s, Throw e)
           end.

(** [.from("scans").update(u).eq("scan_id", id)]; the result is whether
    the answer carries an error. *)
Definition db_update (w : World) (id : string) (u : ScanUpdate) : M bool :=
  (_ <- emit (UpdateSent id u) ;;
   fun s => if store_accepts w id u
            then (with_scans (alter (apply_update u) id) s, Normal false)
            else (s, Normal true))%pipeline.

(** [.storage.from("app-pdf-reports").upload(path, bytes)]. *)
Definition upload (w : World) (path : string) (bytes : list byte) : M bool :=
  fun s => if storage_upload_fails w path
           then (s, Normal true)
           else (with_reports (insert path bytes) s, Normal false).

(** [await this.scanQueue.add("process", j)]. *)
Definition enqueue (w : World) (j : JobData) : M unit :=
  fun s => match queue_add w j with
           | Normal _ =>
               (with_trace (fun t => t ++ [Enqueued j])
                  (with_queue (fun q => q ++ [j]) s), Normal tt)
           | Throw e => (s, Throw e)
           end.

(** [await this.run...Scan(localFilePath)]: the call, then the await. *)
Definition call {A} (p : Provider) (scan : completion A) : M A :=
  fun s =>
    (with_trace (fun t => t ++ [Dispatched p; Settled p]) s, scan).

(* ===================================================================== *)
(** * 6. Provider clients                                                 *)
(* ===================================================================== *)

(** [runMobSFScan]: upload, start, poll the logs, fetch the report; any
    failure is rethrown under the client's own message. *)
Definition runMobSFScan (w : World) : completion value :=
  match (_ <- mobsf_upload w ;;
         _ <- mobsf_start w ;;
         scanResult <- poll_result (pollMobSFScanLogs (mobsf_logs w)) ;;
         mobsf_report w)%js with
  | Normal report => Normal report
  | Throw e => Throw (Error ("MobSF scan failed: " +:+ message e))
  end.

Definition vt_size_limit : Z := 650 * (1024 * 1024).

Definition vt_too_large_object (w : World) (fileSize : Z) : value :=
  skipped_object
    ("File too large for VirusTotal scan (" +:+ vt_size_text w fileSize
       +:+ "MB > 650MB limit)").

(** [runVirusTotalScan]: skip a file above the size limit, else upload and
    poll; on any failure try the hash lookup if the failure says the file
    is too large, and otherwise return, not throw, the failure. *)
Definition runVirusTotalScan (w : World) : completion value :=
  match (fileSize <- vt_stat w ;;
         if vt_size_limit <? fileSize then Normal (vt_too_large_object w fileSize)
         else
           _ <- vt_upload w ;;
           poll_result (pollVirusTotalResults (vt_analyses w)))%js with
  | Normal v => Normal v
  | Throw e =>
      let fallback :=
        if bool_decide (response_status e = Some 413) || includes "large" (message e)
        then match vt_hash_lookup w with
             | Normal (status, results) =>
                 if status =? 200 then Some results else None
             | Throw _ => None
             end
        else None in
      match fallback with
      | Some results => Normal results
      | None => Normal (vt_failed_object (message e))
      end
  end.

Definition apk_mime : string := "application/vnd.android.package-archive".

(** [${fileType?.mime}]. *)
Definition mime_text (fileType : option string) : string :=
  default "undefined" fileType.

Definition mime_among (allowed : list string) (fileType : option string) : bool :=
  match fileType with
  | Some mime => bool_decide (mime ∈ allowed)
  | None => false
  end.

(** [runMetaDefenderScan]: read the file, check its type, upload, poll.
    Its [catch] clause logs and rethrows, so every failure leaves the
    function as it arose. *)
Definition runMetaDefenderScan (w : World) : completion value :=
  (fileBuffer <- local_file_mime w ;;
   fileType <- local_file_mime w ;;
   if negb (mime_among [apk_mime; "application/octet-stream"] fileType) then
     Throw (Error ("Invalid file type: " +:+ mime_text fileType
                     +:+ ". Only APK or IPA files are allowed."))
   else
     status <- md_upload w ;;
     if negb (status =? 200) then
       Throw (Error ("MetaDefender upload failed with status " +:+ pretty status))
     else poll_result (pollMetaDefenderResults (md_progress w)))%js.

(** [runHybridAnalysisScan]: check the type, upload, poll; its [catch]
    clause rethrows, too. *)
Definition runHybridAnalysisScan (w : World) : completion value :=
  (fileType <- local_file_mime w ;;
   if negb (mime_among [apk_mime] fileType) then
     Throw (Error ("Invalid file type: " +:+ mime_text fileType
                     +:+ ". Only APK files are allowed."))
   else
     status <- ha_upload w ;;
     if negb (status =? 201) then
       Throw (Error ("Hybrid Analysis upload failed with status " +:+ pretty status))
     else poll_result (pollHybridAnalysisResults (ha_states w)))%js.

(* ===================================================================== *)
(** * 7. The worker: [processScan]                                        *)
(* ===================================================================== *)

(** [path.join(process.cwd(), "temp", scanId)]. *)
Definition tempDirOf (w : World) (scanId : string) : string :=
  cwd w +:+ "/temp/" +:+ scanId.

(** [filePath.replace] of a leading app-uploads/ by nothing. *)
Fixpoint drop_prefix (p s : string) : option string :=
  match p, s with
  | EmptyString, _ => Some s
  | String a p', String b s' => if Ascii.eqb a b then drop_prefix p' s' else None
  | String _ _, EmptyString => None
  end.

Definition strip_uploads (filePath : string) : string :=
  default filePath (drop_prefix "app-uploads/" filePath).

(** [tfScore || 0]. *)
Definition or_zero (n : number) : Z :=
  match n with
  | Int z => z
  | NaN => 0
  end.

(** Lines 73-97: the three optional providers, one after the other, each
    call under its own [try]/[catch]. *)
Definition run_optional (p : Provider) (scan : completion value) : M value :=
  try_catch (call p scan) (fun e => ret (failed_object (message e))).

(** Lines 71-113: the provider calls and the combined results. *)
Definition run_providers (w : World) : M Results :=
  (mobsfResult <- call MobSF (runMobSFScan w) ;;
   virusTotalResult <- run_optional VirusTotal (runVirusTotalScan w) ;;
   metaDefenderResult <- run_optional MetaDefender (runMetaDefenderScan w) ;;
   hybridAnalysisResult <- run_optional HybridAnalysis (runHybridAnalysisScan w) ;;
   ret {| mobsf := mobsfResult;
          virustotal := virusTotalResult;
          metadefender := metaDefenderResult;
          hybridAnalysis := hybridAnalysisResult |})%pipeline.

Definition completed_update (tfScore : number) (pdfPath : string)
    (combinedResults : Results) : ScanUpdate :=
  {| set_scan_status := Some "completed";
     set_tf_score := Some (or_zero tfScore);
     set_pdf_report_url := Some pdfPath;
     set_report_data := Some combinedResults |}.

(** Lines 39-69: check the job, make the temporary directory, download
    the file into it. *)
Definition fetch_file (w : World) (job : JobData) : M unit :=
  (let scanId := job_scanId job in
   let filePath := job_filePath job in
   _ <- throw_if (String.eqb scanId EmptyString) "Invalid scanId" ;;
   let tempDir := tempDirOf w scanId in
   _ <- mkdir w tempDir ;;
   let relativeFilePath := strip_uploads filePath in
   publicUrl <-
     match storage_publicUrl w relativeFilePath with
     | Some url => if String.eqb url EmptyString then throw (Error "Failed to get public URL for file")
                   else ret url
     | None => throw (Error "Failed to get public URL for file")
     end ;;
   response <- lift (http_download w publicUrl) ;;
   _ <- throw_if (negb (response.1 =? 200)) "Failed to download file" ;;
   writeFile w tempDir (path_basename w filePath))%pipeline.

Definition pdfPathOf (w : World) (job : JobData) : string :=
  let reportFileName := path_stem w (job_filePath job) +:+ "_report.pdf" in
  job_userId job +:+ "/" +:+ job_scanId job +:+ "/" +:+ reportFileName.

Definition pdfDataOf (w : World) (job : JobData) (tfScore : number)
    (combinedResults : Results) : PdfData :=
  {| pdf_scanId := job_scanId job;
     pdf_fileName := path_basename w (job_filePath job);
     pdf_tfScore := tfScore;
     pdf_findings := combinedResults;
     pdf_reportData := mobsf combinedResults |}.

(** Lines 99-161: score, render and upload the report, write the
    completed record, remove the temporary directory. *)
Definition score_and_persist (w : World) (job : JobData) (combinedResults : Results)
  : M unit :=
  (let scanId := job_scanId job in
   tfScore <- lift (calculateTFScore combinedResults) ;;
   _ <- emit Assembled ;;
   pdfBuffer <- lift (render_pdf w (pdfDataOf w job tfScore combinedResults)) ;;
   let pdfPath := pdfPathOf w job in
   pdfUploadError <- upload w pdfPath pdfBuffer ;;
   _ <- throw_if pdfUploadError "Failed to upload PDF report" ;;
   recommendations <- lift (generateRecommendations combinedResults) ;;
   _ <- throw_if (String.eqb scanId EmptyString) "Invalid scanId" ;;
   updateError <- db_update w scanId (completed_update tfScore pdfPath combinedResults) ;;
   _ <- throw_if updateError "Failed to update scan record" ;;
   rm w (tempDirOf w scanId))%pipeline.

(** The body of the outer [try] of [processScan]. *)
Definition processScan_body (w : World) (job : JobData) : M unit :=
  (_ <- fetch_file w job ;;
   combinedResults <- run_providers w ;;
   score_and_persist w job combinedResults)%pipeline.

(** [processScan]: the body, and the [catch] clause that writes the
    failed status and rethrows. The worker reports the job finished when
    this function returns or throws. *)
Definition processScan (w : World) (job : JobData) : M unit :=
  try_catch (processScan_body w job)
    (fun error =>
       (_ <- db_update w (job_scanId job) (status_only "failed") ;;
        throw error)%pipeline).

(* ===================================================================== *)
(** * 8. The service: [retryScan]                                         *)
(* ===================================================================== *)

(** The exceptions of the service, with their HTTP status. *)
Inductive ServiceError : Type :=
  | NotFoundException (msg : string)              (* 404 *)
  | BadRequestException (msg : string)            (* 400 *)
  | InternalServerErrorException (msg : string)   (* 500 *)
  | Uncaught (e : error).                         (* not an HTTP exception: 500 *)

Definition http_status (e : ServiceError) : Z :=
  match e with
  | NotFoundException _ => 404
  | BadRequestException _ => 400
  | InternalServerErrorException _ => 500
  | Uncaught _ => 500
  end.

Definition client_error (e : ServiceError) : bool :=
  (400 <=? http_status e) && (http_status e <? 500).

Record RetryReply : Type := mkReply {
  reply_message : string;
  reply_scanId : string;
}.

(** [.select("*").eq("scan_id", scanId).eq("user_id", userId).single()]:
    the row, or nothing when the answer carries an error or no row. *)
Definition select_single (w : World) (scanId userId : string) (s : System)
  : option ScanRecord :=
  if store_readable w then
    match scans s !! scanId with
    | Some scan => if String.eqb (user_id scan) userId then Some scan else None
    | None => None
    end
  else None.

Definition retryScan (w : World) (scanId userId : string) (s : System)
  : System * (ServiceError + RetryReply) :=
  match select_single w scanId userId s with
  | None => (s, inl (NotFoundException "Scan not found"))
  | Some scan =>
      if negb (String.eqb (scan_status scan) "failed") then
        (s, inl (BadRequestException "Only failed scans can be retried"))
      else
        match enqueue w {| job_scanId := scan_id scan;
                           job_userId := user_id scan;
                           job_filePath := file_url scan |} s with
        | (s1, Throw e) => (s1, inl (Uncaught e))
        | (s1, Normal _) =>
            match db_update w scanId (status_only "retrying") s1 with
            | (s2, Normal true) =>
                (s2, inl (InternalServerErrorException "Failed to update scan status"))
            | (s2, Normal false) =>
                (s2, inr {| reply_message := "Scan retry initiated successfully";
                            reply_scanId := scanId |})
            | (s2, Throw e) => (s2, inl (Uncaught e))
            end
        end
  end.

(* ===================================================================== *)
(** * 9. Sample surroundings, used to run the embedded code               *)
(* ===================================================================== *)

Definition sample_report : value := encode_static (mkStatic [VStr "h1"; VStr "h2"] [VStr "m1"] []).
Definition sample_verdicts : value :=
  encode_verdicts [("Avast", "malicious"); ("Kaspersky", "undetected")].
Definition sample_threats : value := encode_threats [("ClamAV", EmptyString); ("Sophos", EmptyString)].
Definition sample_sandbox : value := encode_sandbox (mkSandbox "clean" []).

(** A world in which every collaborator answers well, but for the three
    given: the static analysis finishes at the third poll, the AV
    analysis and the reputation scan at the second, the sandbox at the
    third. *)
Definition sample_world (mobsf_up : completion unit) (md_up : completion Z)
    (accepts : string -> ScanUpdate -> bool) : World :=
  {| cwd := "/srv/app";
     path_basename := fun _ => "app.apk";
     path_stem := fun _ => "app";
     fs_mkdir := fun _ => Normal tt;
     fs_writeFile := fun _ => Normal tt;
     fs_rm := fun _ => Normal tt;
     storage_publicUrl := fun p => Some ("https://store.example/" +:+ p);
     http_download := fun _ => Normal (200, []);
     mobsf_upload := mobsf_up;
     mobsf_start := Normal tt;
     mobsf_logs :=
       script_of [MobBody (Some []);
                  MobBody (Some [LogStr "10:00:01 - Reading manifest"]);
                  MobBody (Some [LogStr "10:00:01 - Reading manifest";
                                 LogStr "10:00:09 - Saving to Database"])]
                 (MobBody (Some []));
     mobsf_report := Normal sample_report;
     vt_stat := Normal 4096;
     vt_size_text := fun _ => "0.00";
     vt_upload := Normal tt;
     vt_analyses :=
       script_of [VtStatus "queued" VUndef; VtStatus "completed" sample_verdicts]
                 (VtStatus "queued" VUndef);
     vt_hash_lookup := Throw (Error "Request failed with status code 404");
     local_file_mime := Normal (Some apk_mime);
     md_upload := md_up;
     md_progress :=
       script_of [MdResults (VObj [("progress_percentage", VNum 40)]);
                  MdResults sample_threats]
                 (MdResults sample_threats);
     ha_upload := Normal 201;
     ha_states :=
       script_of [HaThrows {| message := "Request failed with status code 404";
                              response_status := Some 404 |};
                  HaState "IN_PROGRESS" (Throw (Error "not requested"));
                  HaState "SUCCESS" (Normal sample_sandbox)]
                 (HaState "SUCCESS" (Normal sample_sandbox));
     render_pdf := fun _ => Normal [];
     storage_upload_fails := fun _ => false;
     store_readable := true;
     store_accepts := accepts;
     queue_add := fun _ => Normal tt |}.

Definition calm_world : World :=
  sample_world (Normal tt) (Normal 200) (fun _ _ => true).

Definition sample_scan (status : string) : ScanRecord :=
  {| scan_id := "scan-1";
     user_id := "user-7";
     file_name := "app.apk";
     file_url := "app-uploads/user-7/app.apk";
     scan_status := status;
     report_data := None;
     tf_score := None;
     pdf_report_url := None |}.

Definition sample_system (status : string) : System :=
  {| scans := {[ "scan-1" := sample_scan status ]};
     temp := ∅;
     reports := ∅;
     queue := [];
     trace := [] |}.

Definition sample_job : JobData :=
  {| job_scanId := "scan-1";
     job_userId := "user-7";
     job_filePath := "app-uploads/user-7/app.apk" |}.

(* ===================================================================== *)
(** * 10. Vocabulary of the properties                                    *)
(* ===================================================================== *)

(** ** Scripts for the poll drivers *)

(** The provider answers "failed" at the first attempt and "completed" at
    the second. *)
Definition vt_failed_then_done : nat -> VtAnswer :=
  script_of [VtStatus "failed" VUndef; VtStatus "completed" sample_verdicts]
            (VtStatus "queued" VUndef).

(** The provider answers "failed" at the first attempt; the analysis stays
    queued ever after. *)
Definition vt_failed_then_queued : nat -> VtAnswer :=
  script_of [VtStatus "failed" VUndef] (VtStatus "queued" VUndef).

Definition failed_log : LogEntry := LogStr "10:00:04 - Scan failed: manifest is unreadable".
Definition saved_log : LogEntry := LogStr "10:00:09 - Saving to Database".

(** The last log entry says the scan failed at the first attempt; a later
    entry at the second attempt says the report was saved. *)
Definition mobsf_failed_then_done : nat -> MobsfAnswer :=
  script_of [MobBody (Some [failed_log]); MobBody (Some [failed_log; saved_log])]
            (MobBody (Some [failed_log; saved_log])).

(** The entry that says the report was saved carries the timestamp of
    the entry the poller saw last. *)
Definition mobsf_done_in_same_second : nat -> MobsfAnswer :=
  script_of [MobBody (Some [LogStr "10:00:09 - Reading manifest"])]
            (MobBody (Some [LogStr "10:00:09 - Reading manifest";
                            LogStr "10:00:09 - Saving to Database"])).

(** The sandbox answers "ERROR" at the first attempt and "SUCCESS" at the
    second. *)
Definition ha_error_then_done : nat -> HaAnswer :=
  script_of [HaState "ERROR" (Throw (Error "not requested"));
             HaState "SUCCESS" (Normal sample_sandbox)]
            (HaState "IN_PROGRESS" (Throw (Error "not requested"))).

(** ** Jobs and their surroundings *)

Definition is_optional (p : Provider) : bool :=
  match p with
  | MobSF => false
  | VirusTotal | MetaDefender | HybridAnalysis => true
  end.

(** The collaborators the worker needs before the providers answer well:
    the job names a scan, the directory can be made, the file has a public
    URL and downloads with status 200, and it can be written. *)
Definition fetch_ok (w : World) (job : JobData) : Prop :=
  job_scanId job <> EmptyString
  /\ (forall dir, fs_mkdir w dir = Normal tt)
  /\ (exists url data,
         storage_publicUrl w (strip_uploads (job_filePath job)) = Some url
         /\ url <> EmptyString
         /\ http_download w url = Normal (200, data))
  /\ (forall file, fs_writeFile w file = Normal tt).

(** The collaborators the worker needs after the providers answer well:
    the report renders and uploads, the record store takes the completed
    record, the directory can be removed. *)
Definition persist_ok (w : World) (job : JobData) : Prop :=
  (forall d, exists pdf, render_pdf w d = Normal pdf)
  /\ (forall path, storage_upload_fails w path = false)
  /\ (forall u, store_accepts w (job_scanId job) u = true)
  /\ (forall dir, fs_rm w dir = Normal tt).

(** A client that rethrows (the reputation and the sandbox client) ends
    with outcome [o]: it returns the payload, throws the reason, or
    returns the skip object. *)
Definition ends_with {P} (enc : P -> value) (run : completion value) (o : Outcome P) : Prop :=
  match o with
  | Success p => run = Normal (enc p)
  | Failed r => exists e, run = Throw e /\ message e = r
  | Skipped r => run = Normal (skipped_object r)
  end.

(** The providers of world [w] end with the outcomes of bundle [b]. The
    AV client never throws: it returns the object of its outcome. *)
Definition realises (w : World) (b : Bundle) : Prop :=
  (exists p, static_analysis b = Success p /\ runMobSFScan w = Normal (encode_static p))
  /\ runVirusTotalScan w = Normal (encode_av_outcome (av b))
  /\ ends_with encode_threats (runMetaDefenderScan w) (reputation b)
  /\ ends_with encode_sandbox (runHybridAnalysisScan w) (sandbox b).


Definition failed {P} (o : Outcome P) : Prop :=
  match o with Failed _ => True | _ => False end.


(** The record of a completed scan. *)
Definition completed_scan (scan : ScanRecord) (score : Z) (pdfPath : string)
    (combinedResults : Results) : ScanRecord :=
  {| scan_id := scan_id scan;
     user_id := user_id scan;
     file_name := file_name scan;
     file_url := file_url scan;
     scan_status := "completed";
     report_data := Some combinedResults;
     tf_score := Some score;
     pdf_report_url := Some pdfPath |}.

(** The record with its status replaced, all else as it was. *)
Definition with_status (status : string) (scan : ScanRecord) : ScanRecord :=
  {| scan_id := scan_id scan;
     user_id := user_id scan;
     file_name := file_name scan;
     file_url := file_url scan;
     scan_status := status;
     report_data := report_data scan;
     tf_score := tf_score scan;
     pdf_report_url := pdf_report_url scan |}.

(** ** Traces *)

(** Fan-out: every optional provider is dispatched before the await on
    any optional provider has returned. *)
Definition dispatched_before_any_await (tr : list Event) : Prop :=
  forall (i j : nat) (p q : Provider),
    is_optional p = true -> is_optional q = true ->
    tr !! i = Some (Dispatched p) -> tr !! j = Some (Settled q) ->
    (i < j)%nat.

(** What the provider calls of one job look like in the trace. *)
Definition mandatory_call : list Event := [Dispatched MobSF; Settled MobSF].

Definition optional_calls : list Event :=
  [Dispatched VirusTotal; Settled VirusTotal;
   Dispatched MetaDefender; Settled MetaDefender;
   Dispatched HybridAnalysis; Settled HybridAnalysis].

Definition is_provider_event (ev : Event) : bool :=
  match ev with
  | Dispatched _ | Settled _ => true
  | _ => false
  end.

(** The world in which the static-analysis server refuses the upload. *)
Definition mobsf_down_world : World :=
  sample_world (Throw (Error "connect ECONNREFUSED")) (Normal 200) (fun _ _ => true).


(** The world in which the record store refuses every write. *)
Definition store_down_world : World :=
  sample_world (Normal tt) (Normal 200) (fun _ _ => false).


(** The job the retry of [sample_scan] puts on the queue. *)
Definition retry_job (scan : ScanRecord) : JobData :=
  {| job_scanId := scan_id scan;
     job_userId := user_id scan;
     job_filePath := file_url scan |}.

(** What the call of an optional provider leaves in the combined results:
    the payload, or the object of the caught error. *)
Definition member_of (run : completion value) : value :=
  match run with
  | Normal v => v
  | Throw e => failed_object (message e)
  end.

(** The state after the [catch] clause of [processScan] has sent its
    write. *)
Definition mark_failed (w : World) (job : JobData) (s : System) : System :=
  (db_update w (job_scanId job) (status_only "failed") s).1.

(* ===================================================================== *)
(** * The service's other operations and the report service              *)
(* ===================================================================== *)

(** ** [uploadAndScan] *)

(** What Multer hands over of an uploaded file. *)
Record UploadedFile : Type := mkFile {
  originalname : string;
  buffer : list byte;
  mimetype : string;
}.

(** The collaborators of [uploadAndScan] beside those of [World]:
    [path.extname], [uuidv4()], the answer of the [app-uploads] bucket
    and the identifier the database gives the inserted row ([None] when
    the insert answers with an error). *)
Record Intake : Type := mkIntake {
  path_extname : string -> string;
  uuidv4 : string;
  uploads_upload_fails : string -> bool;
  inserted_scan_id : option string;
}.

(** The state [uploadAndScan] acts on: the system and the bucket
    [app-uploads]. *)
Record Site : Type := mkSite {
  site_system : System;
  site_uploads : gmap string (list byte);
}.

Definition is_alnum_or_dot (c : ascii) : bool :=
  let n := nat_of_ascii c in
  ((97 <=? n) && (n <=? 122) || (65 <=? n) && (n <=? 90)
   || (48 <=? n) && (n <=? 57) || (n =? 46))%nat.

(** [name.replace(/[^a-zA-Z0-9.]/g, "_")], on ASCII text. *)
Fixpoint sanitize (name : string) : string :=
  match name with
  | EmptyString => EmptyString
  | String c rest =>
      String (if is_alnum_or_dot c then c else "_"%char) (sanitize rest)
  end.

Definition is_space (c : ascii) : bool :=
  let n := nat_of_ascii c in
  ((n =? 32) || (9 <=? n) && (n <=? 13))%nat.

Fixpoint trim_start (s : string) : string :=
  match s with
  | String c rest => if is_space c then trim_start rest else s
  | EmptyString => EmptyString
  end.

(** The text without its trailing white space. *)
Fixpoint trim_end (s : string) : string :=
  match s with
  | EmptyString => EmptyString
  | String c rest =>
      match trim_end rest with
      | EmptyString => if is_space c then EmptyString else String c EmptyString
      | rest' => String c rest'
      end
  end.

(** [s.trim()], on ASCII white space. *)
Definition trim (s : string) : string := trim_end (trim_start s).

(** The path under which the file is stored:
    [`${sanitizedUserId}/${uuidv4()}_${sanitized basename}`]. *)
Definition storage_path (w : World) (k : Intake) (file : UploadedFile) (userId : string)
  : string :=
  let sanitizedUserId := trim userId in
  let sanitizedFileName :=
    uuidv4 k +:+ "_" +:+ sanitize (path_basename w (originalname file)) in
  sanitizedUserId +:+ "/" +:+ sanitizedFileName.

Definition pending_scan (id userId : string) (file : UploadedFile) (fileUrl : string)
  : ScanRecord :=
  {| scan_id := id;
     user_id := userId;
     file_name := originalname file;
     file_url := fileUrl;
     scan_status := "pending";
     report_data := None;
     tf_score := None;
     pdf_report_url := None |}.

(** The body of the [try] of [uploadAndScan]. An [inl] is one of the
    exceptions the body throws itself, [Uncaught] a failure of the
    queue. The insert fails on an identifier that is taken ([scan_id] is
    the primary key). *)
Definition uploadAndScan_body (w : World) (k : Intake) (file : UploadedFile)
    (userId : string) (site : Site) : Site * (ServiceError + RetryReply) :=
  let sanitizedUserId := trim userId in
  let filePath := storage_path w k file userId in
  if String.eqb filePath EmptyString then
    (site, inl (InternalServerErrorException "Generated file path is invalid"))
  else if uploads_upload_fails k filePath then
    (site, inl (InternalServerErrorException "File upload failed"))
  else
    let uploads := <[filePath := buffer file]> (site_uploads site) in
    let fileUrl := "app-uploads/" +:+ filePath in
    match inserted_scan_id k with
    | None =>
        ({| site_system := site_system site; site_uploads := uploads |},
         inl (InternalServerErrorException "Failed to create scan record"))
    | Some id =>
        match scans (site_system site) !! id with
        | Some _ =>
            ({| site_system := site_system site; site_uploads := uploads |},
             inl (InternalServerErrorException "Failed to create scan record"))
        | None =>
            let s1 :=
              with_scans (insert id (pending_scan id sanitizedUserId file fileUrl))
                (site_system site) in
            match enqueue w {| job_scanId := id;
                               job_userId := sanitizedUserId;
                               job_filePath := fileUrl |} s1 with
            | (s2, Normal _) =>
                ({| site_system := s2; site_uploads := uploads |},
                 inr {| reply_message := "File uploaded and scan initiated";
                        reply_scanId := id |})
            | (s2, Throw e) =>
                ({| site_system := s2; site_uploads := uploads |}, inl (Uncaught e))
            end
        end
    end.

(** [uploadAndScan]: the check of the extension, then the body, whose
    every exception the [catch] clause replaces by one and the same. *)
Definition uploadAndScan (w : World) (k : Intake) (file : UploadedFile)
    (userId : string) (site : Site) : Site * (ServiceError + RetryReply) :=
  let ext := toLowerCase (path_extname k (originalname file)) in
  if negb (String.eqb ext ".apk") && negb (String.eqb ext ".ipa") then
    (site, inl (BadRequestException "Only .apk and .ipa files are allowed"))
  else
    match uploadAndScan_body w k file userId site with
    | (site', inr reply) => (site', inr reply)
    | (site', inl _) => (site', inl (InternalServerErrorException "Scan initiation failed"))
    end.

(** [ScanController.uploadFile]: no file, no upload. *)
Definition uploadFile (w : World) (k : Intake) (file : option UploadedFile)
    (userId : string) (site : Site) : Site * (ServiceError + RetryReply) :=
  match file with
  | None => (site, inl (BadRequestException "No file uploaded"))
  | Some f => uploadAndScan w k f userId site
  end.

(** ** [getScanStatus] *)

Definition getScanStatus (w : World) (scanId userId : string) (s : System)
  : ServiceError + string :=
  match select_single w scanId userId s with
  | None => inl (NotFoundException "Scan not found")
  | Some data => inr (scan_status data)
  end.

(** ** [ReportService.getScanReport] *)

Definition excludedKeys : list string := ["strings"; "files"; "urls"; "sbom"; "logs"].

Fixpoint indexed (i : nat) (vs : list value) : list (string * value) :=
  match vs with
  | [] => []
  | v :: vs' => (pretty i, v) :: indexed (S i) vs'
  end.

(** [Object.entries(v)] of a value that is not [null] or [undefined]. *)
Definition object_entries (v : value) : list (string * value) :=
  match v with
  | VObj ms => ms
  | VArr l => indexed 0 l
  | VStr s => indexed 0 (chars s)
  | _ => []
  end.

(** [v || null]. *)
Definition or_null (v : value) : value := if truthy v then v else VNull.

(** The report as it is returned. *)
Record ScanReport : Type := mkReport {
  report_scanId : string;
  report_fileName : string;
  report_tfScore : option Z;
  report_mobsf : value;
  report_virustotal : value;
  report_metadefender : value;
  report_hybridAnalysis : value;
}.

(** A member of [data.report_data?], [undefined] without report data. *)
Definition report_member (member : Results -> value) (data : ScanRecord) : value :=
  match report_data data with
  | Some results => member results
  | None => VUndef
  end.

Definition getScanReport (w : World) (scanId userId : string) (s : System)
  : ServiceError + ScanReport :=
  match select_single w scanId userId s with
  | None => inl (NotFoundException "Report not found")
  | Some data =>
      if negb (String.eqb (scan_status data) "completed") then
        inl (BadRequestException "Scan is not completed yet")
      else
        let mobsf :=
          if truthy (report_member mobsf data) then
            VObj (List.filter (fun kv => negb (bool_decide (kv.1 ∈ excludedKeys)))
                    (object_entries (report_member mobsf data)))
          else VNull in
        inr {| report_scanId := scan_id data;
               report_fileName := file_name data;
               report_tfScore := tf_score data;
               report_mobsf := mobsf;
               report_virustotal := or_null (report_member virustotal data);
               report_metadefender := or_null (report_member metadefender data);
               report_hybridAnalysis := or_null (report_member hybridAnalysis data) |}
  end.

(* ===================================================================== *)
(** * Vocabulary of the further properties                                *)
(* ===================================================================== *)

(** An answer whose status the AV poller does not know. *)
Definition vt_unknown (a : VtAnswer) : bool :=
  match a with
  | VtStatus status _ =>
      negb (String.eqb status "completed")
      && negb (String.eqb status "queued" || String.eqb status "in-progress")
      && negb (String.eqb status "failed")
  | VtThrows _ => false
  end.

(** A run of a poll loop that started with [attempts] requests sent,
    [waits] waits made and [remaining] requests left stays within that
    budget, and waits at most once per request. *)
Definition within_budget {A} (run : PollRun A) (remaining attempts waits : nat) : Prop :=
  (attempts <= poll_attempts run <= attempts + remaining)%nat
  /\ (remaining = 0%nat \/ attempts < poll_attempts run)%nat
  /\ (poll_waits run + attempts <= waits + poll_attempts run)%nat.

(** The done signal of a sandbox answer: the state "SUCCESS" with the
    report fetched. *)
Definition ha_done (a : HaAnswer) : option value :=
  match a with
  | HaState state (Normal report) =>
      if String.eqb state "SUCCESS" then Some report else None
  | _ => None
  end.

(** The last entry of the logs an answer carries, if any. *)
Definition last_entry (a : MobsfAnswer) : option LogEntry :=
  match a with
  | MobBody (Some logs) => last logs
  | _ => None
  end.

(** A log entry that says both that the scan completed and that there was
    an error. *)
Definition mixed_log : LogEntry := LogStr "10:00:09 - Scan completed with 1 error".

(** Not yet ready (404) twice, in progress, an error state, then success. *)
Definition ha_rough_then_done : nat -> HaAnswer :=
  script_of [HaThrows {| message := "Request failed with status code 404";
                         response_status := Some 404 |};
             HaThrows {| message := "Request failed with status code 404";
                         response_status := Some 404 |};
             HaState "IN_PROGRESS" (Throw (Error "not requested"));
             HaState "ERROR" (Throw (Error "not requested"));
             HaState "SUCCESS" (Normal sample_sandbox)]
            (HaState "IN_PROGRESS" (Throw (Error "not requested"))).

(** ** Worlds that differ from a given one in one collaborator *)

Definition with_fs_rm (x : string -> completion unit) (w : World) : World :=
  {| cwd := cwd w; path_basename := path_basename w; path_stem := path_stem w;
     fs_mkdir := fs_mkdir w; fs_writeFile := fs_writeFile w; fs_rm := x;
     storage_publicUrl := storage_publicUrl w; http_download := http_download w;
     mobsf_upload := mobsf_upload w; mobsf_start := mobsf_start w;
     mobsf_logs := mobsf_logs w; mobsf_report := mobsf_report w; vt_stat := vt_stat w;
     vt_size_text := vt_size_text w; vt_upload := vt_upload w;
     vt_analyses := vt_analyses w; vt_hash_lookup := vt_hash_lookup w;
     local_file_mime := local_file_mime w; md_upload := md_upload w;
     md_progress := md_progress w; ha_upload := ha_upload w; ha_states := ha_states w;
     render_pdf := render_pdf w; storage_upload_fails := storage_upload_fails w;
     store_readable := store_readable w; store_accepts := store_accepts w;
     queue_add := queue_add w |}.

Definition with_http_download (x : string -> completion (Z * list byte)) (w : World) : World :=
  {| cwd := cwd w; path_basename := path_basename w; path_stem := path_stem w;
     fs_mkdir := fs_mkdir w; fs_writeFile := fs_writeFile w; fs_rm := fs_rm w;
     storage_publicUrl := storage_publicUrl w; http_download := x;
     mobsf_upload := mobsf_upload w; mobsf_start := mobsf_start w;
     mobsf_logs := mobsf_logs w; mobsf_report := mobsf_report w; vt_stat := vt_stat w;
     vt_size_text := vt_size_text w; vt_upload := vt_upload w;
     vt_analyses := vt_analyses w; vt_hash_lookup := vt_hash_lookup w;
     local_file_mime := local_file_mime w; md_upload := md_upload w;
     md_progress := md_progress w; ha_upload := ha_upload w; ha_states := ha_states w;
     render_pdf := render_pdf w; storage_upload_fails := storage_upload_fails w;
     store_readable := store_readable w; store_accepts := store_accepts w;
     queue_add := queue_add w |}.

Definition with_mobsf_logs (x : nat -> MobsfAnswer) (w : World) : World :=
  {| cwd := cwd w; path_basename := path_basename w; path_stem := path_stem w;
     fs_mkdir := fs_mkdir w; fs_writeFile := fs_writeFile w; fs_rm := fs_rm w;
     storage_publicUrl := storage_publicUrl w; http_download := http_download w;
     mobsf_upload := mobsf_upload w; mobsf_start := mobsf_start w; mobsf_logs := x;
     mobsf_report := mobsf_report w; vt_stat := vt_stat w;
     vt_size_text := vt_size_text w; vt_upload := vt_upload w;
     vt_analyses := vt_analyses w; vt_hash_lookup := vt_hash_lookup w;
     local_file_mime := local_file_mime w; md_upload := md_upload w;
     md_progress := md_progress w; ha_upload := ha_upload w; ha_states := ha_states w;
     render_pdf := render_pdf w; storage_upload_fails := storage_upload_fails w;
     store_readable := store_readable w; store_accepts := store_accepts w;
     queue_add := queue_add w |}.

Definition with_mobsf_report (x : completion value) (w : World) : World :=
  {| cwd := cwd w; path_basename := path_basename w; path_stem := path_stem w;
     fs_mkdir := fs_mkdir w; fs_writeFile := fs_writeFile w; fs_rm := fs_rm w;
     storage_publicUrl := storage_publicUrl w; http_download := http_download w;
     mobsf_upload := mobsf_upload w; mobsf_start := mobsf_start w;
     mobsf_logs := mobsf_logs w; mobsf_report := x; vt_stat := vt_stat w;
     vt_size_text := vt_size_text w; vt_upload := vt_upload w;
     vt_analyses := vt_analyses w; vt_hash_lookup := vt_hash_lookup w;
     local_file_mime := local_file_mime w; md_upload := md_upload w;
     md_progress := md_progress w; ha_upload := ha_upload w; ha_states := ha_states w;
     render_pdf := render_pdf w; storage_upload_fails := storage_upload_fails w;
     store_readable := store_readable w; store_accepts := store_accepts w;
     queue_add := queue_add w |}.

Definition with_vt_stat (x : completion Z) (w : World) : World :=
  {| cwd := cwd w; path_basename := path_basename w; path_stem := path_stem w;
     fs_mkdir := fs_mkdir w; fs_writeFile := fs_writeFile w; fs_rm := fs_rm w;
     storage_publicUrl := storage_publicUrl w; http_download := http_download w;
     mobsf_upload := mobsf_upload w; mobsf_start := mobsf_start w;
     mobsf_logs := mobsf_logs w; mobsf_report := mobsf_report w; vt_stat := x;
     vt_size_text := vt_size_text w; vt_upload := vt_upload w;
     vt_analyses := vt_analyses w; vt_hash_lookup := vt_hash_lookup w;
     local_file_mime := local_file_mime w; md_upload := md_upload w;
     md_progress := md_progress w; ha_upload := ha_upload w; ha_states := ha_states w;
     render_pdf := render_pdf w; storage_upload_fails := storage_upload_fails w;
     store_readable := store_readable w; store_accepts := store_accepts w;
     queue_add := queue_add w |}.

Definition with_vt_upload (x : completion unit) (w : World) : World :=
  {| cwd := cwd w; path_basename := path_basename w; path_stem := path_stem w;
     fs_mkdir := fs_mkdir w; fs_writeFile := fs_writeFile w; fs_rm := fs_rm w;
     storage_publicUrl := storage_publicUrl w; http_download := http_download w;
     mobsf_upload := mobsf_upload w; mobsf_start := mobsf_start w;
     mobsf_logs := mobsf_logs w; mobsf_report := mobsf_report w; vt_stat := vt_stat w;
     vt_size_text := vt_size_text w; vt_upload := x; vt_analyses := vt_analyses w;
     vt_hash_lookup := vt_hash_lookup w; local_file_mime := local_file_mime w;
     md_upload := md_upload w; md_progress := md_progress w; ha_upload := ha_upload w;
     ha_states := ha_states w; render_pdf := render_pdf w;
     storage_upload_fails := storage_upload_fails w; store_readable := store_readable w;
     store_accepts := store_accepts w; queue_add := queue_add w |}.

Definition with_vt_analyses (x : nat -> VtAnswer) (w : World) : World :=
  {| cwd := cwd w; path_basename := path_basename w; path_stem := path_stem w;
     fs_mkdir := fs_mkdir w; fs_writeFile := fs_writeFile w; fs_rm := fs_rm w;
     storage_publicUrl := storage_publicUrl w; http_download := http_download w;
     mobsf_upload := mobsf_upload w; mobsf_start := mobsf_start w;
     mobsf_logs := mobsf_logs w; mobsf_report := mobsf_report w; vt_stat := vt_stat w;
     vt_size_text := vt_size_text w; vt_upload := vt_upload w; vt_analyses := x;
     vt_hash_lookup := vt_hash_lookup w; local_file_mime := local_file_mime w;
     md_upload := md_upload w; md_progress := md_progress w; ha_upload := ha_upload w;
     ha_states := ha_states w; render_pdf := render_pdf w;
     storage_upload_fails := storage_upload_fails w; store_readable := store_readable w;
     store_accepts := store_accepts w; queue_add := queue_add w |}.

Definition with_vt_hash_lookup (x : completion (Z * value)) (w : World) : World :=
  {| cwd := cwd w; path_basename := path_basename w; path_stem := path_stem w;
     fs_mkdir := fs_mkdir w; fs_writeFile := fs_writeFile w; fs_rm := fs_rm w;
     storage_publicUrl := storage_publicUrl w; http_download := http_download w;
     mobsf_upload := mobsf_upload w; mobsf_start := mobsf_start w;
     mobsf_logs := mobsf_logs w; mobsf_report := mobsf_report w; vt_stat := vt_stat w;
     vt_size_text := vt_size_text w; vt_upload := vt_upload w;
     vt_analyses := vt_analyses w; vt_hash_lookup := x;
     local_file_mime := local_file_mime w; md_upload := md_upload w;
     md_progress := md_progress w; ha_upload := ha_upload w; ha_states := ha_states w;
     render_pdf := render_pdf w; storage_upload_fails := storage_upload_fails w;
     store_readable := store_readable w; store_accepts := store_accepts w;
     queue_add := queue_add w |}.

Definition with_local_file_mime (x : completion (option string)) (w : World) : World :=
  {| cwd := cwd w; path_basename := path_basename w; path_stem := path_stem w;
     fs_mkdir := fs_mkdir w; fs_writeFile := fs_writeFile w; fs_rm := fs_rm w;
     storage_publicUrl := storage_publicUrl w; http_download := http_download w;
     mobsf_upload := mobsf_upload w; mobsf_start := mobsf_start w;
     mobsf_logs := mobsf_logs w; mobsf_report := mobsf_report w; vt_stat := vt_stat w;
     vt_size_text := vt_size_text w; vt_upload := vt_upload w;
     vt_analyses := vt_analyses w; vt_hash_lookup := vt_hash_lookup w;
     local_file_mime := x; md_upload := md_upload w; md_progress := md_progress w;
     ha_upload := ha_upload w; ha_states := ha_states w; render_pdf := render_pdf w;
     storage_upload_fails := storage_upload_fails w; store_readable := store_readable w;
     store_accepts := store_accepts w; queue_add := queue_add w |}.

Definition with_queue_add (x : JobData -> completion unit) (w : World) : World :=
  {| cwd := cwd w; path_basename := path_basename w; path_stem := path_stem w;
     fs_mkdir := fs_mkdir w; fs_writeFile := fs_writeFile w; fs_rm := fs_rm w;
     storage_publicUrl := storage_publicUrl w; http_download := http_download w;
     mobsf_upload := mobsf_upload w; mobsf_start := mobsf_start w;
     mobsf_logs := mobsf_logs w; mobsf_report := mobsf_report w; vt_stat := vt_stat w;
     vt_size_text := vt_size_text w; vt_upload := vt_upload w;
     vt_analyses := vt_analyses w; vt_hash_lookup := vt_hash_lookup w;
     local_file_mime := local_file_mime w; md_upload := md_upload w;
     md_progress := md_progress w; ha_upload := ha_upload w; ha_states := ha_states w;
     render_pdf := render_pdf w; storage_upload_fails := storage_upload_fails w;
     store_readable := store_readable w; store_accepts := store_accepts w;
     queue_add := x |}.

Definition with_store_readable (x : bool) (w : World) : World :=
  {| cwd := cwd w; path_basename := path_basename w; path_stem := path_stem w;
     fs_mkdir := fs_mkdir w; fs_writeFile := fs_writeFile w; fs_rm := fs_rm w;
     storage_publicUrl := storage_publicUrl w; http_download := http_download w;
     mobsf_upload := mobsf_upload w; mobsf_start := mobsf_start w;
     mobsf_logs := mobsf_logs w; mobsf_report := mobsf_report w; vt_stat := vt_stat w;
     vt_size_text := vt_size_text w; vt_upload := vt_upload w;
     vt_analyses := vt_analyses w; vt_hash_lookup := vt_hash_lookup w;
     local_file_mime := local_file_mime w; md_upload := md_upload w;
     md_progress := md_progress w; ha_upload := ha_upload w; ha_states := ha_states w;
     render_pdf := render_pdf w; storage_upload_fails := storage_upload_fails w;
     store_readable := x; store_accepts := store_accepts w; queue_add := queue_add w |}.

Definition with_storage_upload_fails (x : string -> bool) (w : World) : World :=
  {| cwd := cwd w; path_basename := path_basename w; path_stem := path_stem w;
     fs_mkdir := fs_mkdir w; fs_writeFile := fs_writeFile w; fs_rm := fs_rm w;
     storage_publicUrl := storage_publicUrl w; http_download := http_download w;
     mobsf_upload := mobsf_upload w; mobsf_start := mobsf_start w;
     mobsf_logs := mobsf_logs w; mobsf_report := mobsf_report w; vt_stat := vt_stat w;
     vt_size_text := vt_size_text w; vt_upload := vt_upload w;
     vt_analyses := vt_analyses w; vt_hash_lookup := vt_hash_lookup w;
     local_file_mime := local_file_mime w; md_upload := md_upload w;
     md_progress := md_progress w; ha_upload := ha_upload w; ha_states := ha_states w;
     render_pdf := render_pdf w; storage_upload_fails := x;
     store_readable := store_readable w; store_accepts := store_accepts w;
     queue_add := queue_add w |}.

(** The body of the [try] of [runVirusTotalScan]. *)
Definition vt_attempt (w : World) : completion value :=
  (fileSize <- vt_stat w ;;
   if vt_size_limit <? fileSize then Normal (vt_too_large_object w fileSize)
   else
     _ <- vt_upload w ;;
     poll_result (pollVirusTotalResults (vt_analyses w)))%js.

(** The failure says the file is too large:
    [error.response?.status === 413 || error.message.includes("large")]. *)
Definition says_too_large (e : error) : bool :=
  bool_decide (response_status e = Some 413) || includes "large" (message e).

(** The upload is refused with status 413. *)
Definition payload_too_large : error :=
  {| message := "Request failed with status code 413"; response_status := Some 413 |}.

(** ** Recommendations *)

(** The six recommendations, in the order [generateRecommendations]
    pushes them. *)
Definition all_recommendations : list string :=
  [rec_high; rec_medium; rec_low; rec_virustotal; rec_metadefender; rec_hybrid].

(** The provider has a payload, and the payload counts at least one
    adverse finding. *)
Definition adverse {P} (count : P -> nat) (o : Outcome P) : bool :=
  match o with
  | Success p => negb (Nat.eqb (count p) 0)
  | Failed _ | Skipped _ => false
  end.

Definition verdict_malicious (o : Outcome SandboxReport) : bool :=
  match o with
  | Success p => bool_decide (sb_verdict p = "malicious")
  | Failed _ | Skipped _ => false
  end.

(** The recommendations of a bundle, read off the typed outcomes. *)
Definition recommendations_of (b : Bundle) : list string :=
  let recs := push_if (adverse (fun p => length (sf_high p)) (static_analysis b)) rec_high [] in
  let recs := push_if (adverse (fun p => length (sf_medium p)) (static_analysis b)) rec_medium recs in
  let recs := push_if (adverse (fun p => length (sf_low p)) (static_analysis b)) rec_low recs in
  let recs := push_if (adverse malicious_engines (av b)) rec_virustotal recs in
  let recs := push_if (adverse detections (reputation b)) rec_metadefender recs in
  push_if (verdict_malicious (sandbox b)) rec_hybrid recs.

(** A bundle without an adverse finding but for the sandbox, whose
    verdict is "suspicious" and which names two threats. *)
Definition suspicious_bundle : Bundle :=
  {| static_analysis := Success (mkStatic [] [] []);
     av := Success [("Avast", "undetected")];
     reputation := Success [("ClamAV", EmptyString)];
     sandbox := Success (mkSandbox "suspicious" [VStr "t1"; VStr "t2"]) |}.

(** ** The worker *)

(** The combined results of the provider calls of world [w] when the
    static analysis returned [report]. *)
Definition combined_results (w : World) (report : value) : Results :=
  {| mobsf := report;
     virustotal := member_of (runVirusTotalScan w);
     metadefender := member_of (runMetaDefenderScan w);
     hybridAnalysis := member_of (runHybridAnalysisScan w) |}.

(** State [s'] differs from state [s] at most in what belongs to [job]:
    its record, its temporary directory, its report and the events that
    were added; no record was made or removed. *)
Definition touches_only (w : World) (job : JobData) (s s' : System) : Prop :=
  queue s' = queue s
  /\ (forall id, id <> job_scanId job -> scans s' !! id = scans s !! id)
  /\ (forall id, is_Some (scans s' !! id) <-> is_Some (scans s !! id))
  /\ (forall dir, dir <> tempDirOf w (job_scanId job) -> temp s' !! dir = temp s !! dir)
  /\ (forall path, path <> pdfPathOf w job -> reports s' !! path = reports s !! path)
  /\ exists rest, trace s' = trace s ++ rest.

(** The report of the job renders and uploads. *)
Definition report_ok (w : World) (job : JobData) : Prop :=
  (forall d, exists pdf, render_pdf w d = Normal pdf)
  /\ storage_upload_fails w (pdfPathOf w job) = false.

(** The bundle of [calm_world]. *)
Definition calm_bundle : Bundle :=
  {| static_analysis := Success (mkStatic [VStr "h1"; VStr "h2"] [VStr "m1"] []);
     av := Success [("Avast", "malicious"); ("Kaspersky", "undetected")];
     reputation := Success [("ClamAV", EmptyString); ("Sophos", EmptyString)];
     sandbox := Success (mkSandbox "clean" []) |}.

(** The state in which the worker leaves the sample job in the calm
    world. *)
Definition calm_outcome : System :=
  (processScan calm_world sample_job (sample_system "pending")).1.

(** The calm world with a temporary directory that cannot be removed. *)
Definition busy_disk_world : World :=
  with_fs_rm (fun _ => Throw (Error "EBUSY: resource busy or locked")) calm_world.

(** The calm world with an AV report in which one engine's entry is
    [null]. *)
Definition null_engine_world : World :=
  with_vt_analyses (fun _ => VtStatus "completed" (VObj [("Avast", VNull)])) calm_world.

(** A job without a scan identifier. *)
Definition nameless_job : JobData :=
  {| job_scanId := EmptyString;
     job_userId := "user-7";
     job_filePath := "app-uploads/user-7/app.apk" |}.

(** ** The service *)

(** A file as Multer hands it over, and what the surroundings of
    [uploadAndScan] answer for it. *)
Definition sample_file : UploadedFile :=
  {| originalname := "app.apk"; buffer := []; mimetype := "application/octet-stream" |}.

Definition sample_intake : Intake :=
  {| path_extname := fun _ => ".apk";
     uuidv4 := "0b9d6c1e";
     uploads_upload_fails := fun _ => false;
     inserted_scan_id := Some "scan-2" |}.

Definition sample_site : Site :=
  {| site_system := sample_system "completed"; site_uploads := ∅ |}.

(** The surroundings of [uploadAndScan] for a file called notes.txt. *)
Definition text_intake : Intake :=
  {| path_extname := fun _ => ".txt";
     uuidv4 := "0b9d6c1e";
     uploads_upload_fails := fun _ => false;
     inserted_scan_id := Some "scan-2" |}.

(** The calm world with a queue that cannot be reached. *)
Definition queue_down_world : World :=
  with_queue_add (fun _ => Throw (Error "connect ECONNREFUSED 127.0.0.1:6379")) calm_world.

(** The job [uploadAndScan] puts on the queue. *)
Definition upload_job (w : World) (k : Intake) (file : UploadedFile) (userId id : string)
  : JobData :=
  {| job_scanId := id;
     job_userId := trim userId;
     job_filePath := "app-uploads/" +:+ storage_path w k file userId |}.

(** The extension of the file is one of the two [uploadAndScan] lets
    through. *)
Definition extension_ok (k : Intake) (file : UploadedFile) : Prop :=
  toLowerCase (path_extname k (originalname file)) = ".apk"
  \/ toLowerCase (path_extname k (originalname file)) = ".ipa".

(** The text holds ASCII characters only; on such text the byte-wise
    [toLowerCase] is that of JavaScript. *)
Definition ascii_only (s : string) : Prop :=
  Forall (fun c => (nat_of_ascii c < 128)%nat) (list_ascii_of_string s).

(** A completed scan whose static-analysis report carries two of the
    members the report service leaves out. *)
Definition bulky_scan : ScanRecord :=
  {| scan_id := "scan-1";
     user_id := "user-7";
     file_name := "app.apk";
     file_url := "app-uploads/user-7/app.apk";
     scan_status := "completed";
     report_data :=
       Some {| mobsf := VObj [("appsec", VObj []); ("strings", VArr [VStr "s"]);
                              ("logs", VArr []); ("version", VStr "4.0")];
               virustotal := failed_object "quota exceeded";
               metadefender := VUndef;
               hybridAnalysis := VNull |};
     tf_score := Some 100;
     pdf_report_url := Some "user-7/scan-1/app_report.pdf" |}.

Definition bulky_system : System :=
  {| scans := {[ "scan-1" := bulky_scan ]};
     temp := ∅;
     reports := ∅;
     queue := [];
     trace := [] |}.

(* ===================================================================== *)
(** * 11. The scoring engine meets its rule                               *)
(* ===================================================================== *)

Section Scoring.

Implicit Types (z : Z) (r : string) (res : Results).

(** Member reads of the objects the encoding builds. *)

Lemma assoc_engines_error (p : EngineVerdicts) :
  engines_ok p ->
  assoc "error" (map (fun ec => (ec.1, VObj [("category", VStr ec.2)])) p) = None.
Proof.
  induction 1 as [|[e c] p He _ IH]; [reflexivity|].
  cbn [map assoc fst snd]. cbn [fst] in He.
  destruct (String.eqb_spec "error" e) as [Heq|_]; [congruence|exact IH].
Qed.

Lemma is_string_decide (s lit : string) :
  is_string (VStr s) lit = bool_decide (s = lit).
Proof.
  cbn [is_string]. destruct (String.eqb_spec s lit); symmetry.
  - by apply bool_decide_eq_true.
  - by apply bool_decide_eq_false.
Qed.

(** Counting the malicious engines of an encoded verdict map. *)
Lemma filterM_malicious (p : EngineVerdicts) :
  exists hits,
    filterM category_is_malicious
      (map snd (map (fun ec => (ec.1, VObj [("category", VStr ec.2)])) p))
    = Normal hits /\ length hits = malicious_engines p.
Proof.
  induction p as [|[e c] p [hits [Hf Hl]]]; [by exists []|].
  cbn [map snd filterM]. rewrite Hf.
  unfold category_is_malicious at 1.
  cbn [get assoc cbind String.eqb Ascii.eqb Bool.eqb].
  rewrite is_string_decide. unfold malicious_engines in *.
  rewrite filter_cons. cbn [snd].
  destruct (decide (c = "malicious")) as [Hc|Hc].
  - rewrite bool_decide_eq_true_2 by done.
    eexists; split; [reflexivity|]. cbn [length]. by rewrite Hl.
  - rewrite bool_decide_eq_false_2 by done.
    eexists; split; [reflexivity|]. done.
Qed.

Lemma present_without_error_verdicts (p : EngineVerdicts) :
  engines_ok p -> present_without_error (encode_verdicts p) = Normal true.
Proof.
  intros Hok. unfold present_without_error, encode_verdicts.
  cbn [truthy get cbind]. by rewrite (assoc_engines_error _ Hok).
Qed.

Lemma count_malicious (p : EngineVerdicts) :
  count_values category_is_malicious (encode_verdicts p)
  = Normal (Z.of_nat (malicious_engines p)).
Proof.
  unfold count_values, encode_verdicts. cbn [object_values cbind].
  destruct (filterM_malicious p) as [hits [-> <-]]. reflexivity.
Qed.

Lemma truthy_VStr (s : string) : truthy (VStr s) = bool_decide (s <> EmptyString).
Proof.
  cbn [truthy]. destruct (String.eqb_spec s EmptyString); symmetry; cbn [negb].
  - apply bool_decide_eq_false. tauto.
  - by apply bool_decide_eq_true.
Qed.

(** Counting the detections of an encoded detail map. *)
Lemma filterM_detections (p : EngineThreats) :
  exists hits,
    filterM threat_found
      (map snd (map (fun et => (et.1, VObj [("threat_found", VStr et.2)])) p))
    = Normal hits /\ length hits = detections p.
Proof.
  induction p as [|[e t] p [hits [Hf Hl]]]; [by exists []|].
  cbn [map snd filterM]. rewrite Hf.
  unfold threat_found at 1.
  cbn [get assoc cbind String.eqb Ascii.eqb Bool.eqb].
  rewrite truthy_VStr. unfold detections in *.
  rewrite filter_cons. cbn [snd].
  destruct (decide (t <> EmptyString)) as [Ht|Ht].
  - rewrite bool_decide_eq_true_2 by done.
    eexists; split; [reflexivity|]. cbn [length]. by rewrite Hl.
  - rewrite bool_decide_eq_false_2 by done.
    eexists; split; [reflexivity|]. done.
Qed.

Lemma count_detections (p : EngineThreats) :
  count_values threat_found
    (VObj (map (fun et => (et.1, VObj [("threat_found", VStr et.2)])) p))
  = Normal (Z.of_nat (detections p)).
Proof.
  unfold count_values. cbn [object_values cbind].
  destruct (filterM_detections p) as [hits [-> <-]]. reflexivity.
Qed.

(** A failed or skipped outcome has no malicious entry and no detail. *)
Lemma count_malicious_failed r :
  count_values category_is_malicious (vt_failed_object r) = Normal 0.
Proof. reflexivity. Qed.

Lemma count_malicious_skipped r :
  count_values category_is_malicious (skipped_object r) = Normal 0.
Proof. reflexivity. Qed.

(** ** One provider at a time *)

Lemma score_mobsf_encode res z (o : Outcome StaticFindings) :
  mobsf res = encode_static_outcome o ->
  score_mobsf res (Int z) = Normal (Int (z - spec_deduction spec_static o)).
Proof.
  intros E. unfold score_mobsf. rewrite E. unfold encode_static_outcome.
  destruct o as [p|r|r]; cbn; f_equal; f_equal; unfold spec_static; lia.
Qed.

Lemma score_virustotal_encode res z (o : Outcome EngineVerdicts) :
  virustotal res = encode_av_outcome o ->
  match o with Success p => engines_ok p | _ => True end ->
  score_virustotal res (Int z) = Normal (Int (z - spec_deduction spec_av o)).
Proof.
  intros E Hok. unfold score_virustotal. rewrite E.
  destruct o as [p|r|r]; cbn [encode_outcome spec_deduction];
    try unfold encode_static_outcome, encode_av_outcome, encode_reputation_outcome,
      encode_sandbox_outcome; cbn [encode_outcome].
  - rewrite (present_without_error_verdicts _ Hok). cbn [cbind].
    rewrite count_malicious. cbn [cbind num_sub].
    f_equal; f_equal; unfold spec_av; lia.
  - unfold present_without_error. unfold vt_failed_object at 1 2.
    cbn [truthy get cbind assoc String.eqb Ascii.eqb Bool.eqb].
    destruct (negb (negb (r =? EmptyString)%string)); cbn [cbind].
    + rewrite count_malicious_failed. cbn. f_equal; f_equal; lia.
    + f_equal; f_equal; lia.
  - cbn. f_equal; f_equal; lia.
Qed.

Lemma score_metadefender_encode res z (o : Outcome EngineThreats) :
  metadefender res = encode_reputation_outcome o ->
  score_metadefender res (Int z) = Normal (Int (z - spec_deduction spec_reputation o)).
Proof.
  intros E. unfold score_metadefender. rewrite E.
  destruct o as [p|r|r]; cbn [encode_outcome spec_deduction];
    try unfold encode_static_outcome, encode_av_outcome, encode_reputation_outcome,
      encode_sandbox_outcome; cbn [encode_outcome].
  - unfold present_without_error, encode_threats.
    cbn [truthy get cbind assoc String.eqb Ascii.eqb Bool.eqb negb].
    rewrite count_detections. cbn [cbind num_sub].
    f_equal; f_equal; unfold spec_reputation; lia.
  - unfold present_without_error, failed_object.
    cbn [truthy get cbind assoc String.eqb Ascii.eqb Bool.eqb].
    destruct (negb (negb (r =? EmptyString)%string)); cbn; f_equal; f_equal; lia.
  - cbn. f_equal; f_equal; lia.
Qed.

Lemma verdict_deduction z (v : string) :
  (if is_string (VStr v) "malicious" then num_sub (Int z) (Int 20)
   else if is_string (VStr v) "suspicious" then num_sub (Int z) (Int 10)
   else Int z) = Int (z - spec_verdict v).
Proof.
  rewrite !is_string_decide. unfold spec_verdict.
  destruct (decide (v = "malicious")).
  - rewrite bool_decide_eq_true_2 by done. reflexivity.
  - rewrite bool_decide_eq_false_2 by done.
    destruct (decide (v = "suspicious")).
    + rewrite bool_decide_eq_true_2 by done. reflexivity.
    + rewrite bool_decide_eq_false_2 by done. f_equal; lia.
Qed.

Lemma score_hybridAnalysis_encode res z (o : Outcome SandboxReport) :
  hybridAnalysis res = encode_sandbox_outcome o ->
  score_hybridAnalysis res (Int z) = Normal (Int (z - spec_deduction spec_sandbox o)).
Proof.
  intros E. unfold score_hybridAnalysis. rewrite E.
  destruct o as [[v ts]|r|r]; cbn [encode_outcome spec_deduction];
    try unfold encode_static_outcome, encode_av_outcome, encode_reputation_outcome,
      encode_sandbox_outcome; cbn [encode_outcome].
  - unfold present_without_error, encode_sandbox, get_default, length_times.
    cbn [truthy get cbind assoc String.eqb Ascii.eqb Bool.eqb negb
         sb_verdict sb_threats to_number num_mul].
    rewrite verdict_deduction. cbn [num_sub].
    f_equal; f_equal; unfold spec_sandbox; cbn [sb_verdict sb_threats]; lia.
  - unfold present_without_error, failed_object.
    cbn [truthy get cbind assoc String.eqb Ascii.eqb Bool.eqb].
    destruct (negb (negb (r =? EmptyString)%string)); cbn; f_equal; f_equal; lia.
  - cbn. f_equal; f_equal; lia.
Qed.

(** The object the worker itself builds when a call of the AV client
    throws (line 80) costs nothing either. *)
Lemma score_virustotal_caught res z r :
  virustotal res = failed_object r ->
  score_virustotal res (Int z) = Normal (Int z).
Proof.
  intros E. unfold score_virustotal. rewrite E.
  unfold present_without_error, failed_object.
  cbn [truthy get cbind assoc String.eqb Ascii.eqb Bool.eqb].
  destruct (negb (negb (r =? EmptyString)%string)); cbn; do 2 f_equal; lia.
Qed.

(** ** The whole function *)

Lemma calculateTFScore_encode (b : Bundle) :
  bundle_ok b ->
  calculateTFScore (encode b) = Normal (Int (spec_score b)).
Proof.
  intros Hok. unfold calculateTFScore.
  rewrite (score_mobsf_encode _ _ (static_analysis b)) by reflexivity.
  cbn [cbind].
  rewrite (score_virustotal_encode _ _ (av b)) by (reflexivity || exact Hok).
  cbn [cbind].
  rewrite (score_metadefender_encode _ _ (reputation b)) by reflexivity.
  cbn [cbind].
  rewrite (score_hybridAnalysis_encode _ _ (sandbox b)) by reflexivity.
  reflexivity.
Qed.

Lemma clamp_range z : 0 <= clamp z <= 100.
Proof. unfold clamp. lia. Qed.

Lemma clamp_mono z z' : z' <= z -> clamp z' <= clamp z.
Proof. unfold clamp. lia. Qed.

Lemma spec_score_mono (b b' : Bundle) :
  more_findings b b' -> spec_score b' <= spec_score b.
Proof.
  intros H. unfold spec_score. apply clamp_mono.
  destruct H as [p p' E E' H1 H2 H3 Ea Er Es
                |p p' E E' H1 Est Er Es
                |p p' E E' H1 Est Ea Es
                |p p' E E' Hv H1 Est Ea Er].
  - rewrite E, E', Ea, Er, Es. cbn [spec_deduction]. unfold spec_static. lia.
  - rewrite E, E', Est, Er, Es. cbn [spec_deduction]. unfold spec_av. lia.
  - rewrite E, E', Est, Ea, Es. cbn [spec_deduction]. unfold spec_reputation. lia.
  - rewrite E, E', Est, Ea, Er. cbn [spec_deduction]. unfold spec_sandbox.
    rewrite Hv. lia.
Qed.

(** ** The range, for every bundle

    An engine called "error" makes the processor take an AV payload for
    a failed outcome; the score then lacks the AV deduction, and still
    lies in the range. *)

Lemma assoc_engines_cases (p : EngineVerdicts) :
  assoc "error" (map (fun ec => (ec.1, VObj [("category", VStr ec.2)])) p) = None
  \/ exists c, assoc "error" (map (fun ec => (ec.1, VObj [("category", VStr ec.2)])) p)
               = Some (VObj [("category", VStr c)]).
Proof.
  induction p as [|[e c] p IH]; [by left|].
  cbn [map assoc fst snd].
  destruct (String.eqb "error" e); [right; eauto|exact IH].
Qed.

Lemma score_virustotal_any res z (o : Outcome EngineVerdicts) :
  virustotal res = encode_av_outcome o ->
  exists d, 0 <= d /\ score_virustotal res (Int z) = Normal (Int (z - d)).
Proof.
  intros E. destruct o as [p|r|r].
  - unfold score_virustotal. rewrite E.
    unfold encode_av_outcome. cbn [encode_outcome].
    unfold present_without_error, encode_verdicts at 1 2.
    cbn [truthy get cbind].
    destruct (assoc_engines_cases p) as [->|[c ->]]; cbn [truthy negb cbind].
    + rewrite count_malicious. cbn [cbind num_sub].
      exists (5 * Z.of_nat (malicious_engines p)). split; [lia|]. do 2 f_equal. lia.
    + exists 0. split; [lia|]. do 2 f_equal. lia.
  - exists 0. split; [lia|].
    rewrite (score_virustotal_encode res z (Failed r) E I). reflexivity.
  - exists 0. split; [lia|].
    rewrite (score_virustotal_encode res z (Skipped r) E I). reflexivity.
Qed.

Lemma spec_deduction_nonneg :
  (forall o, 0 <= spec_deduction spec_static o)
  /\ (forall o, 0 <= spec_deduction spec_reputation o)
  /\ (forall o, 0 <= spec_deduction spec_sandbox o).
Proof.
  repeat split; intros [p|r|r]; cbn [spec_deduction]; try lia.
  - unfold spec_static. lia.
  - unfold spec_reputation. lia.
  - unfold spec_sandbox, spec_verdict. repeat case_decide; lia.
Qed.

Lemma calculateTFScore_range (b : Bundle) :
  exists s, calculateTFScore (encode b) = Normal (Int s) /\ 0 <= s <= 100.
Proof.
  unfold calculateTFScore.
  rewrite (score_mobsf_encode _ _ (static_analysis b)) by reflexivity.
  cbn [cbind].
  destruct (score_virustotal_any (encode b)
              (100 - spec_deduction spec_static (static_analysis b)) (av b) eq_refl)
    as (d & _ & ->).
  cbn [cbind].
  rewrite (score_metadefender_encode _ _ (reputation b)) by reflexivity.
  cbn [cbind].
  rewrite (score_hybridAnalysis_encode _ _ (sandbox b)) by reflexivity.
  cbn [cbind math_min math_max].
  eexists. split; [reflexivity|]. lia.
Qed.

End Scoring.

(** ** The claims about the scoring engine *)

(** Where no AV engine is called "error", the scoring function follows
    the rule: it starts at 100 and deducts 10 per high-severity
    static-analysis finding, 5 per medium, 2 per low, 5 per AV engine
    reporting malicious, 5 per reputation-service detection, 20 for a
    malicious sandbox verdict, 10 for a suspicious one and 3 per
    identified sandbox threat, the result clamped to [0,100]. Every such
    bundle with 2 high and 1 medium static findings, 1 malicious AV
    engine, a clean sandbox verdict and a skipped reputation service
    scores 70; for the scenario of the design document the
    recommendations are the high-severity, the medium-severity and the
    AV-investigation strings, without a sandbox recommendation. *)
Theorem score_follows_deduction_rule :
  (forall (s : StaticFindings) (a : EngineVerdicts) (rp : EngineThreats)
          (sb : SandboxReport),
      engines_ok a ->
      calculateTFScore
        (encode {| static_analysis := Success s; av := Success a;
                   reputation := Success rp; sandbox := Success sb |})
      = Normal (Int (clamp (100
                            - 10 * Z.of_nat (length (sf_high s))
                            - 5 * Z.of_nat (length (sf_medium s))
                            - 2 * Z.of_nat (length (sf_low s))
                            - 5 * Z.of_nat (malicious_engines a)
                            - 5 * Z.of_nat (detections rp)
                            - (if decide (sb_verdict sb = "malicious") then 20
                               else if decide (sb_verdict sb = "suspicious") then 10
                               else 0)
                            - 3 * Z.of_nat (length (sb_threats sb))))))
  /\ (forall (s : StaticFindings) (a : EngineVerdicts) (reason : string),
        engines_ok a ->
        length (sf_high s) = 2%nat -> length (sf_medium s) = 1%nat ->
        length (sf_low s) = 0%nat ->
        malicious_engines a = 1%nat ->
        calculateTFScore
          (encode {| static_analysis := Success s; av := Success a;
                     reputation := Skipped reason;
                     sandbox := Success {| sb_verdict := "clean"; sb_threats := [] |} |})
        = Normal (Int 70))
  /\ calculateTFScore (encode scenario) = Normal (Int 70)
  /\ generateRecommendations (encode scenario)
     = Normal [rec_high; rec_medium; rec_virustotal].
Proof.
  split; [|split; [|split; reflexivity]].
  - intros s a rp sb Hok.
    rewrite calculateTFScore_encode by exact Hok.
    unfold spec_score, spec_static, spec_av, spec_reputation, spec_sandbox, spec_verdict.
    cbn [spec_deduction static_analysis av reputation sandbox].
    do 2 f_equal. f_equal. lia.
  - intros s a reason Hok Hh Hm Hl Ha.
    rewrite calculateTFScore_encode by exact Hok.
    unfold spec_score, spec_static, spec_av, spec_sandbox.
    cbn [spec_deduction static_analysis av reputation sandbox sb_verdict sb_threats].
    rewrite Hh, Hm, Hl, Ha. reflexivity.
Qed.

(** The rule at a concrete, fully successful bundle, and at a bundle of
    the scenario's kind. *)
Lemma score_follows_deduction_rule_witness :
  engines_ok [("Avast", "malicious"); ("AVG", "malicious")]
  /\ calculateTFScore
       (encode {| static_analysis := Success (mkStatic [VNull] [VNull; VNull] [VNull]);
                  av := Success [("Avast", "malicious"); ("AVG", "malicious")];
                  reputation := Success [("ClamAV", "Trojan.Agent")];
                  sandbox := Success (mkSandbox "suspicious" [VStr "t1"]) |})
     = Normal (Int 50)
  /\ calculateTFScore
       (encode {| static_analysis := Success (mkStatic [VNull; VNull] [VNull] []);
                  av := Success [("Avast", "undetected"); ("AVG", "malicious")];
                  reputation := Skipped "file too large";
                  sandbox := Success (mkSandbox "clean" []) |})
     = Normal (Int 70).
Proof.
  assert (Hok : forall a : EngineVerdicts,
             bool_decide (engines_ok a) = true -> engines_ok a).
  { intros a H. apply (bool_decide_unpack _). rewrite H. exact I. }
  split; [apply Hok; vm_compute; reflexivity|]. split.
  - rewrite (proj1 score_follows_deduction_rule); [reflexivity|].
    apply Hok. vm_compute. reflexivity.
  - apply (proj1 (proj2 score_follows_deduction_rule)); try reflexivity.
    apply Hok. vm_compute. reflexivity.
Defined.

(** For every result bundle the computed trust score is an integer in
    [0,100]; and where no AV engine is called "error", before and after,
    it does not increase when one provider's adverse-finding count (high,
    medium or low static findings, malicious AV engines, reputation
    detections, sandbox threats) grows while the other providers'
    outcomes are held fixed. *)
Theorem score_bounded_and_monotone (b : Bundle) :
  exists s : Z,
    calculateTFScore (encode b) = Normal (Int s)
    /\ 0 <= s <= 100
    /\ (bundle_ok b ->
        forall b' : Bundle,
          bundle_ok b' -> more_findings b b' ->
          exists s' : Z,
            calculateTFScore (encode b') = Normal (Int s') /\ s' <= s).
Proof.
  destruct (calculateTFScore_range b) as (s & Hs & Hr).
  exists s. split; [exact Hs|]. split; [exact Hr|].
  intros Hok b' Hok' Hmore. exists (spec_score b'). split.
  - by apply calculateTFScore_encode.
  - rewrite (calculateTFScore_encode b Hok) in Hs. injection Hs as <-.
    by apply spec_score_mono.
Qed.

Lemma scenario_ok : bundle_ok scenario.
Proof. apply (bool_decide_unpack _). vm_compute. exact I. Defined.

Lemma scenario_worse_ok : bundle_ok scenario_worse.
Proof. apply (bool_decide_unpack _). vm_compute. exact I. Defined.

Lemma scenario_worse_more : more_findings scenario scenario_worse.
Proof.
  eapply more_static; try reflexivity; cbn [sf_high sf_medium sf_low length]; lia.
Defined.

(** The scenario, and the scenario with one more high-severity
    finding. *)
Lemma score_bounded_and_monotone_witness :
  exists s s' : Z,
    calculateTFScore (encode scenario) = Normal (Int s)
    /\ calculateTFScore (encode scenario_worse) = Normal (Int s')
    /\ 0 <= s <= 100 /\ s' <= s.
Proof.
  destruct (score_bounded_and_monotone scenario) as (s & Hs & Hr & Hm).
  destruct (Hm scenario_ok scenario_worse scenario_worse_ok scenario_worse_more)
    as (s' & Hs' & Hle).
  exists s, s'. auto.
Defined.

(** ** An AV engine called "error"

    The processor reads the [error] member of the AV payload to tell a
    failed outcome from a payload (line 1341). An engine of that name
    makes it take the payload for a failed outcome, and no AV deduction
    is made at all. *)

Lemma assoc_engines_named_error (p : EngineVerdicts) :
  ~ engines_ok p ->
  exists c, assoc "error" (map (fun ec => (ec.1, VObj [("category", VStr ec.2)])) p)
            = Some (VObj [("category", VStr c)]).
Proof.
  intros Hno. destruct (assoc_engines_cases p) as [Hnone|Hsome]; [|exact Hsome].
  destruct Hno. revert Hnone. unfold engines_ok.
  induction p as [|[e c] p IH]; [constructor|].
  cbn [map assoc fst snd].
  destruct (String.eqb_spec "error" e) as [Heq|Hne]; [discriminate|].
  intros H. constructor; [cbn; congruence|by apply IH].
Qed.

Lemma engines_named_error (p1 p2 : EngineVerdicts) (c : string) :
  ~ engines_ok (p1 ++ ("error", c) :: p2).
Proof.
  unfold engines_ok. rewrite Forall_app, Forall_cons. cbn. tauto.
Qed.

Lemma calculateTFScore_engine_named_error (b : Bundle) (p : EngineVerdicts) :
  av b = Success p -> ~ engines_ok p ->
  calculateTFScore (encode b)
  = Normal (Int (clamp (100
                        - spec_deduction spec_static (static_analysis b)
                        - spec_deduction spec_reputation (reputation b)
                        - spec_deduction spec_sandbox (sandbox b)))).
Proof.
  intros Hav Hno. unfold calculateTFScore.
  rewrite (score_mobsf_encode _ _ (static_analysis b)) by reflexivity.
  cbn [cbind].
  assert (Hvt : forall z, score_virustotal (encode b) (Int z) = Normal (Int z)).
  { intros z. unfold score_virustotal, encode. cbn [virustotal]. rewrite Hav.
    unfold encode_av_outcome. cbn [encode_outcome].
    unfold present_without_error, encode_verdicts.
    cbn [truthy get cbind].
    destruct (assoc_engines_named_error p Hno) as [c ->]. reflexivity. }
  rewrite Hvt. cbn [cbind].
  rewrite (score_metadefender_encode _ _ (reputation b)) by reflexivity.
  cbn [cbind].
  rewrite (score_hybridAnalysis_encode _ _ (sandbox b)) by reflexivity.
  reflexivity.
Qed.

(** No bundle scores more than it would without its AV deduction. *)
Lemma calculateTFScore_at_most (b : Bundle) :
  exists s,
    calculateTFScore (encode b) = Normal (Int s)
    /\ 0 <= s <= 100
    /\ s <= clamp (100
                   - spec_deduction spec_static (static_analysis b)
                   - spec_deduction spec_reputation (reputation b)
                   - spec_deduction spec_sandbox (sandbox b)).
Proof.
  unfold calculateTFScore.
  rewrite (score_mobsf_encode _ _ (static_analysis b)) by reflexivity.
  cbn [cbind].
  destruct (score_virustotal_any (encode b)
              (100 - spec_deduction spec_static (static_analysis b)) (av b) eq_refl)
    as (d & Hd & ->).
  cbn [cbind].
  rewrite (score_metadefender_encode _ _ (reputation b)) by reflexivity.
  cbn [cbind].
  rewrite (score_hybridAnalysis_encode _ _ (sandbox b)) by reflexivity.
  cbn [cbind math_min math_max].
  eexists. split; [reflexivity|]. unfold clamp. lia.
Qed.

(** C1 (what the code does where the claim fails). The claim's bundle
    with 2 high and 1 medium static findings, 1 malicious AV engine, a
    clean sandbox verdict and a skipped reputation service scores 75, not
    the 70 of the rule, when the malicious engine is called "error",
    while [generateRecommendations] does count that engine; and every
    bundle whose AV payload has an engine of that name is scored without
    any AV deduction, however many of its engines report malicious. *)
Theorem engine_named_error_escapes_the_deduction :
  malicious_engines [("error", "malicious"); ("AVG", "undetected")] = 1%nat
  /\ spec_score scenario_engine_named_error = 70
  /\ calculateTFScore (encode scenario_engine_named_error) = Normal (Int 75)
  /\ generateRecommendations (encode scenario_engine_named_error)
     = Normal [rec_high; rec_medium; rec_virustotal]
  /\ forall (b : Bundle) (p1 p2 : EngineVerdicts) (c : string),
       calculateTFScore (encode (set_av (Success (p1 ++ ("error", c) :: p2)) b))
       = Normal (Int (clamp (100
                             - spec_deduction spec_static (static_analysis b)
                             - spec_deduction spec_reputation (reputation b)
                             - spec_deduction spec_sandbox (sandbox b)))).
Proof.
  split; [reflexivity|]. split; [reflexivity|]. split; [reflexivity|].
  split; [reflexivity|].
  intros b p1 p2 c.
  apply (calculateTFScore_engine_named_error
           (set_av (Success (p1 ++ ("error", c) :: p2)) b) (p1 ++ ("error", c) :: p2));
    [reflexivity|apply engines_named_error].
Qed.

(** C2 (what the code does where the claim fails). The score is an
    integer in [0,100] for every bundle, but it is not monotone: with a
    second malicious AV engine, called "error", and all else held fixed,
    the score of the scenario rises from 70 to 75; and for every bundle,
    one more malicious engine of that name never lowers the score: it
    lifts it to what the bundle scores without any AV deduction. *)
Theorem malicious_engine_named_error_raises_the_score :
  more_findings scenario scenario_error_engine
  /\ calculateTFScore (encode scenario) = Normal (Int 70)
  /\ calculateTFScore (encode scenario_error_engine) = Normal (Int 75)
  /\ forall (b : Bundle) (p : EngineVerdicts),
       more_findings (set_av (Success p) b)
         (set_av (Success (p ++ [("error", "malicious")])) b)
       /\ exists s s' : Z,
            calculateTFScore (encode (set_av (Success p) b)) = Normal (Int s)
            /\ calculateTFScore
                 (encode (set_av (Success (p ++ [("error", "malicious")])) b))
               = Normal (Int s')
            /\ 0 <= s <= 100 /\ 0 <= s' <= 100 /\ s <= s'.
Proof.
  split; [|split; [reflexivity|split; [reflexivity|]]].
  - eapply more_av; try reflexivity. vm_compute. lia.
  - intros b p. split.
    + eapply more_av; try reflexivity.
      unfold malicious_engines. rewrite filter_app, length_app. lia.
    + destruct (calculateTFScore_at_most (set_av (Success p) b)) as (s & Hs & Hr & Hle).
      exists s. eexists. split; [exact Hs|]. split.
      * apply (calculateTFScore_engine_named_error
                 (set_av (Success (p ++ [("error", "malicious")])) b)
                 (p ++ [("error", "malicious")])); [reflexivity|].
        apply engines_named_error.
      * split; [exact Hr|]. split; [apply clamp_range|exact Hle].
Qed.

(** C3. A bundle in which every provider outcome is Skipped scores exactly
    100 and yields no recommendation; and a Failed or Skipped outcome of
    any provider contributes no deduction: the score is then 100 less the
    deductions of the other three providers, clamped. *)
Theorem failed_or_skipped_costs_nothing :
  (forall r1 r2 r3 r4 : string,
      calculateTFScore (encode (all_skipped r1 r2 r3 r4)) = Normal (Int 100)
      /\ generateRecommendations (encode (all_skipped r1 r2 r3 r4)) = Normal [])
  /\ (forall b : Bundle,
        bundle_ok b ->
        (forall o, no_payload o ->
           calculateTFScore (encode (set_static o b))
           = Normal (Int (clamp (100
                                 - spec_deduction spec_av (av b)
                                 - spec_deduction spec_reputation (reputation b)
                                 - spec_deduction spec_sandbox (sandbox b)))))
        /\ (forall o, no_payload o ->
           calculateTFScore (encode (set_av o b))
           = Normal (Int (clamp (100
                                 - spec_deduction spec_static (static_analysis b)
                                 - spec_deduction spec_reputation (reputation b)
                                 - spec_deduction spec_sandbox (sandbox b)))))
        /\ (forall o, no_payload o ->
           calculateTFScore (encode (set_reputation o b))
           = Normal (Int (clamp (100
                                 - spec_deduction spec_static (static_analysis b)
                                 - spec_deduction spec_av (av b)
                                 - spec_deduction spec_sandbox (sandbox b)))))
        /\ (forall o, no_payload o ->
           calculateTFScore (encode (set_sandbox o b))
           = Normal (Int (clamp (100
                                 - spec_deduction spec_static (static_analysis b)
                                 - spec_deduction spec_av (av b)
                                 - spec_deduction spec_reputation (reputation b)))))).
Proof.
  split.
  - intros r1 r2 r3 r4. split; reflexivity.
  - intros b Hok. repeat split; intros o Ho.
    + rewrite calculateTFScore_encode by exact Hok.
      unfold spec_score. cbn [set_static static_analysis av reputation sandbox].
      destruct o; [destruct Ho| |]; cbn [spec_deduction]; do 3 f_equal; lia.
    + rewrite calculateTFScore_encode by (unfold bundle_ok; by destruct o).
      unfold spec_score. cbn [set_av static_analysis av reputation sandbox].
      destruct o; [destruct Ho| |]; cbn [spec_deduction]; do 3 f_equal; lia.
    + rewrite calculateTFScore_encode by exact Hok.
      unfold spec_score. cbn [set_reputation static_analysis av reputation sandbox].
      destruct o; [destruct Ho| |]; cbn [spec_deduction]; do 3 f_equal; lia.
    + rewrite calculateTFScore_encode by exact Hok.
      unfold spec_score. cbn [set_sandbox static_analysis av reputation sandbox].
      destruct o; [destruct Ho| |]; cbn [spec_deduction]; do 3 f_equal; lia.
Qed.

(** C3 (witness). The scenario with the AV aggregator failed:
    100 - 20 - 5 = 75. *)
Lemma failed_or_skipped_costs_nothing_witness :
  bundle_ok scenario
  /\ no_payload (Failed (P := EngineVerdicts) "VirusTotal scan timed out after 30 attempts")
  /\ calculateTFScore
       (encode (set_av (Failed "VirusTotal scan timed out after 30 attempts") scenario))
     = Normal (Int 75).
Proof.
  split; [exact scenario_ok|]. split; [exact I|].
  destruct (proj2 failed_or_skipped_costs_nothing scenario scenario_ok) as (_ & Hav & _).
  rewrite (Hav (Failed "VirusTotal scan timed out after 30 attempts") I).
  reflexivity.
Defined.

(* ===================================================================== *)
(** * 12. The poll drivers                                                *)
(* ===================================================================== *)

Section PollVirusTotal.

Variable script : nat -> VtAnswer.

Lemma vt_loop_step remaining attempts waits :
  vt_loop script (S remaining) attempts waits =
  match script (S attempts) with
  | VtThrows e =>
      if (vt_maxAttempts <=? S attempts)%nat
      then mkPollRun (Throw (vt_timeout_with e)) (S attempts) waits
      else vt_loop script remaining (S attempts) (S waits)
  | VtStatus status results =>
      if String.eqb status "completed" then
        mkPollRun (Normal results) (S attempts) waits
      else if String.eqb status "queued" || String.eqb status "in-progress" then
        vt_loop script remaining (S attempts) (S waits)
      else if String.eqb status "failed" then
        if (vt_maxAttempts <=? S attempts)%nat
        then mkPollRun (Throw (vt_timeout_with (Error "VirusTotal analysis failed")))
               (S attempts) waits
        else vt_loop script remaining (S attempts) (S waits)
      else vt_loop script remaining (S attempts) waits
  end.
Proof. reflexivity. Qed.

(** The first done signal within the budget ends the loop with its
    payload, at that attempt, whatever was answered before. *)
Lemma vt_loop_done results :
  forall remaining k attempts waits,
    (1 <= k <= remaining)%nat ->
    (attempts + remaining = vt_maxAttempts)%nat ->
    vt_done (script (attempts + k)) = Some results ->
    (forall j, (1 <= j < k)%nat -> vt_done (script (attempts + j)) = None) ->
    exists w,
      vt_loop script remaining attempts waits
      = mkPollRun (Normal results) (attempts + k) w.
Proof.
  induction remaining as [|remaining IH]; intros k attempts waits Hk Hinv Hdone Hbefore;
    [lia|].
  rewrite vt_loop_step.
  destruct (decide (k = 1%nat)) as [->|Hk1].
  - replace (attempts + 1)%nat with (S attempts) in * by lia.
    destruct (script (S attempts)) as [e|status rs]; cbn [vt_done] in Hdone;
      [discriminate|].
    destruct (String.eqb status "completed"); [|discriminate].
    injection Hdone as ->. eauto.
  - assert (Hnone : vt_done (script (S attempts)) = None).
    { replace (S attempts) with (attempts + 1)%nat by lia. apply Hbefore. lia. }
    assert (Hlt : (vt_maxAttempts <=? S attempts)%nat = false).
    { apply Nat.leb_gt. lia. }
    assert (Hrec : forall w0,
               exists w, vt_loop script remaining (S attempts) w0
                         = mkPollRun (Normal results) (attempts + k) w).
    { intros w0.
      destruct (IH (k - 1)%nat (S attempts) w0) as [w Hw]; try lia.
      - replace (S attempts + (k - 1))%nat with (attempts + k)%nat by lia. exact Hdone.
      - intros j Hj. replace (S attempts + j)%nat with (attempts + S j)%nat by lia.
        apply Hbefore. lia.
      - exists w. rewrite Hw. f_equal. lia. }
    destruct (script (S attempts)) as [e|status rs]; cbn [vt_done] in Hnone.
    + rewrite Hlt. apply Hrec.
    + destruct (String.eqb status "completed"); [discriminate|].
      destruct (String.eqb status "queued" || String.eqb status "in-progress");
        [apply Hrec|].
      destruct (String.eqb status "failed"); [rewrite Hlt|]; apply Hrec.
Qed.

Lemma pollVirusTotalResults_done (k : nat) (results : value) :
  (1 <= k <= vt_maxAttempts)%nat ->
  vt_done (script k) = Some results ->
  (forall j, (1 <= j < k)%nat -> vt_done (script j) = None) ->
  poll_result (pollVirusTotalResults script) = Normal results
  /\ poll_attempts (pollVirusTotalResults script) = k.
Proof.
  intros Hk Hdone Hbefore.
  destruct (vt_loop_done results vt_maxAttempts k 0 0) as [w Hw]; auto.
  unfold pollVirusTotalResults. rewrite Hw. auto.
Qed.

(** Pending answers all the way exhaust the budget. *)
Lemma vt_loop_pending :
  forall remaining attempts waits,
    (forall n, (attempts < n <= attempts + remaining)%nat -> vt_pending (script n) = true) ->
    vt_loop script remaining attempts waits
    = mkPollRun (Throw vt_timeout) (attempts + remaining) (waits + remaining).
Proof.
  induction remaining as [|remaining IH]; intros attempts waits Hp.
  - cbn [vt_loop]. f_equal; lia.
  - rewrite vt_loop_step.
    assert (H1 : vt_pending (script (S attempts)) = true) by (apply Hp; lia).
    destruct (script (S attempts)) as [e|status rs]; cbn [vt_pending] in H1;
      [discriminate|].
    destruct (String.eqb_spec status "completed") as [->|_]; [discriminate|].
    rewrite H1, IH by (intros n Hn; apply Hp; lia).
    f_equal; lia.
Qed.

Lemma pollVirusTotalResults_pending :
  (forall n, (1 <= n <= vt_maxAttempts)%nat -> vt_pending (script n) = true) ->
  pollVirusTotalResults script = mkPollRun (Throw vt_timeout) 30 30.
Proof.
  intros Hp. unfold pollVirusTotalResults.
  rewrite vt_loop_pending; [reflexivity|].
  intros n Hn. apply Hp. lia.
Qed.

(** Whatever the script, the loop raises only once the budget is spent,
    and what it raises is a timeout: the failure signal of the provider
    is never raised as such. *)
Lemma vt_loop_raises (e : error) :
  forall remaining attempts waits,
    (attempts + remaining = vt_maxAttempts)%nat ->
    poll_result (vt_loop script remaining attempts waits) = Throw e ->
    poll_attempts (vt_loop script remaining attempts waits) = vt_maxAttempts
    /\ (e = vt_timeout \/ exists e', e = vt_timeout_with e').
Proof.
  induction remaining as [|remaining IH]; intros attempts waits Hinv.
  - cbn [vt_loop poll_result poll_attempts]. intros [= <-]. split; [lia|auto].
  - rewrite vt_loop_step.
    assert (Hrec : forall w0,
               poll_result (vt_loop script remaining (S attempts) w0) = Throw e ->
               poll_attempts (vt_loop script remaining (S attempts) w0) = vt_maxAttempts
               /\ (e = vt_timeout \/ exists e', e = vt_timeout_with e')).
    { intros w0. apply IH. lia. }
    assert (Hcatch : forall e0 : error,
               poll_result
                 (if (vt_maxAttempts <=? S attempts)%nat
                  then mkPollRun (Throw (vt_timeout_with e0)) (S attempts) waits
                  else vt_loop script remaining (S attempts) (S waits)) = Throw e ->
               poll_attempts
                 (if (vt_maxAttempts <=? S attempts)%nat
                  then mkPollRun (Throw (vt_timeout_with e0)) (S attempts) waits
                  else vt_loop script remaining (S attempts) (S waits)) = vt_maxAttempts
               /\ (e = vt_timeout \/ exists e', e = vt_timeout_with e')).
    { intros e0. destruct (Nat.leb_spec vt_maxAttempts (S attempts)).
      - cbn [poll_result poll_attempts]. intros [= <-]. split; [lia|eauto].
      - apply Hrec. }
    destruct (script (S attempts)) as [e0|status rs]; [apply Hcatch|].
    destruct (String.eqb status "completed"); [discriminate|].
    destruct (String.eqb status "queued" || String.eqb status "in-progress");
      [apply Hrec|].
    destruct (String.eqb status "failed"); [apply Hcatch|apply Hrec].
Qed.

Lemma pollVirusTotalResults_raises (e : error) :
  poll_result (pollVirusTotalResults script) = Throw e ->
  poll_attempts (pollVirusTotalResults script) = 30%nat
  /\ (e = vt_timeout \/ exists e', e = vt_timeout_with e').
Proof. apply vt_loop_raises. reflexivity. Qed.

End PollVirusTotal.

Section PollMobSF.

Variable script : nat -> MobsfAnswer.

Lemma mobsf_loop_step remaining attempts waits lastLogTimestamp :
  mobsf_loop script (S remaining) attempts waits lastLogTimestamp =
  let mobsf_catch (e : error) (lastLogTimestamp : option string) :=
    if (mobsf_maxAttempts <=? S attempts)%nat
    then mkPollRun (Throw (mobsf_timeout_with e)) (S attempts) waits
    else mobsf_loop script remaining (S attempts) (S waits) lastLogTimestamp in
  match script (S attempts) with
  | MobThrows e => mobsf_catch e lastLogTimestamp
  | MobBody None => mobsf_catch (Error "Invalid logs response format") lastLogTimestamp
  | MobBody (Some logs) =>
      match last logs with
      | None => mobsf_loop script remaining (S attempts) (S waits) lastLogTimestamp
      | Some lastLog =>
          if decide (log_timestamp lastLog = lastLogTimestamp) then
            mobsf_loop script remaining (S attempts) (S waits) lastLogTimestamp
          else if completion_indicator (toLowerCase (log_text lastLog)) then
            mkPollRun (Normal logs) (S attempts) waits
          else if failure_indicator (toLowerCase (log_text lastLog)) then
            mobsf_catch (Error ("Scan failed: " +:+ log_text lastLog))
              (log_timestamp lastLog)
          else
            mobsf_loop script remaining (S attempts) (S waits) (log_timestamp lastLog)
      end
  end.
Proof. reflexivity. Qed.

(** The log poller, too, raises only once its budget is spent, and then
    a timeout. *)
Lemma mobsf_loop_raises (e : error) :
  forall remaining attempts waits lastLogTimestamp,
    (attempts + remaining = mobsf_maxAttempts)%nat ->
    poll_result (mobsf_loop script remaining attempts waits lastLogTimestamp) = Throw e ->
    poll_attempts (mobsf_loop script remaining attempts waits lastLogTimestamp)
    = mobsf_maxAttempts
    /\ (e = mobsf_timeout \/ exists e', e = mobsf_timeout_with e').
Proof.
  induction remaining as [|remaining IH]; intros attempts waits ts Hinv.
  - cbn [mobsf_loop poll_result poll_attempts]. intros [= <-]. split; [lia|auto].
  - rewrite mobsf_loop_step. cbv zeta.
    assert (Hrec : forall w0 ts0,
               poll_result (mobsf_loop script remaining (S attempts) w0 ts0) = Throw e ->
               poll_attempts (mobsf_loop script remaining (S attempts) w0 ts0)
               = mobsf_maxAttempts
               /\ (e = mobsf_timeout \/ exists e', e = mobsf_timeout_with e')).
    { intros w0 ts0. apply IH. lia. }
    assert (Hcatch : forall (e0 : error) ts0,
               poll_result
                 (if (mobsf_maxAttempts <=? S attempts)%nat
                  then mkPollRun (Throw (mobsf_timeout_with e0)) (S attempts) waits
                  else mobsf_loop script remaining (S attempts) (S waits) ts0) = Throw e ->
               poll_attempts
                 (if (mobsf_maxAttempts <=? S attempts)%nat
                  then mkPollRun (Throw (mobsf_timeout_with e0)) (S attempts) waits
                  else mobsf_loop script remaining (S attempts) (S waits) ts0)
               = mobsf_maxAttempts
               /\ (e = mobsf_timeout \/ exists e', e = mobsf_timeout_with e')).
    { intros e0 ts0. destruct (Nat.leb_spec mobsf_maxAttempts (S attempts)).
      - cbn [poll_result poll_attempts]. intros [= <-]. split; [lia|eauto].
      - apply Hrec. }
    destruct (script (S attempts)) as [e0|[logs|]]; [apply Hcatch| |apply Hcatch].
    destruct (last logs) as [lastLog|]; [|apply Hrec].
    destruct (decide (log_timestamp lastLog = ts)); [apply Hrec|].
    destruct (completion_indicator (toLowerCase (log_text lastLog))); [discriminate|].
    destruct (failure_indicator (toLowerCase (log_text lastLog)));
      [apply Hcatch|apply Hrec].
Qed.

Lemma pollMobSFScanLogs_raises (e : error) :
  poll_result (pollMobSFScanLogs script) = Throw e ->
  poll_attempts (pollMobSFScanLogs script) = 60%nat
  /\ (e = mobsf_timeout \/ exists e', e = mobsf_timeout_with e').
Proof. apply mobsf_loop_raises. reflexivity. Qed.

End PollMobSF.

Section PollMetaDefender.

Variable script : nat -> MdAnswer.

Lemma md_loop_step remaining attempts waits :
  md_loop script (S remaining) attempts waits =
  let md_catch (e : error) :=
    if (md_maxAttempts <=? S attempts)%nat
    then mkPollRun (Throw (md_timeout_with e)) (S attempts) waits
    else md_loop script remaining (S attempts) (S waits) in
  match script (S attempts) with
  | MdThrows e => md_catch e
  | MdResults scan_results =>
      match get scan_results "progress_percentage" with
      | Throw e => md_catch e
      | Normal status =>
          if is_hundred status then mkPollRun (Normal scan_results) (S attempts) waits
          else md_loop script remaining (S attempts) (S waits)
      end
  end.
Proof. reflexivity. Qed.

Lemma md_loop_raises (e : error) :
  forall remaining attempts waits,
    (attempts + remaining = md_maxAttempts)%nat ->
    poll_result (md_loop script remaining attempts waits) = Throw e ->
    poll_attempts (md_loop script remaining attempts waits) = md_maxAttempts
    /\ (e = md_timeout \/ exists e', e = md_timeout_with e').
Proof.
  induction remaining as [|remaining IH]; intros attempts waits Hinv.
  - cbn [md_loop poll_result poll_attempts]. intros [= <-]. split; [lia|auto].
  - rewrite md_loop_step. cbv zeta.
    assert (Hrec : forall w0,
               poll_result (md_loop script remaining (S attempts) w0) = Throw e ->
               poll_attempts (md_loop script remaining (S attempts) w0) = md_maxAttempts
               /\ (e = md_timeout \/ exists e', e = md_timeout_with e')).
    { intros w0. apply IH. lia. }
    assert (Hcatch : forall e0 : error,
               poll_result
                 (if (md_maxAttempts <=? S attempts)%nat
                  then mkPollRun (Throw (md_timeout_with e0)) (S attempts) waits
                  else md_loop script remaining (S attempts) (S waits)) = Throw e ->
               poll_attempts
                 (if (md_maxAttempts <=? S attempts)%nat
                  then mkPollRun (Throw (md_timeout_with e0)) (S attempts) waits
                  else md_loop script remaining (S attempts) (S waits)) = md_maxAttempts
               /\ (e = md_timeout \/ exists e', e = md_timeout_with e')).
    { intros e0. destruct (Nat.leb_spec md_maxAttempts (S attempts)).
      - cbn [poll_result poll_attempts]. intros [= <-]. split; [lia|eauto].
      - apply Hrec. }
    destruct (script (S attempts)) as [e0|scan_results]; [apply Hcatch|].
    destruct (get scan_results "progress_percentage") as [status|e0]; [|apply Hcatch].
    destruct (is_hundred status); [discriminate|apply Hrec].
Qed.

Lemma pollMetaDefenderResults_raises (e : error) :
  poll_result (pollMetaDefenderResults script) = Throw e ->
  poll_attempts (pollMetaDefenderResults script) = 30%nat
  /\ (e = md_timeout \/ exists e', e = md_timeout_with e').
Proof. apply md_loop_raises. reflexivity. Qed.

End PollMetaDefender.

Section PollHybridAnalysis.

Variable script : nat -> HaAnswer.

Lemma ha_loop_step remaining attempts waits :
  ha_loop script (S remaining) attempts waits =
  let ha_catch (e : error) :=
    if (ha_maxAttempts <=? S attempts)%nat
    then mkPollRun (Throw (ha_timeout_with e)) (S attempts) waits
    else ha_loop script remaining (S attempts) (S waits) in
  match script (S attempts) with
  | HaThrows e => ha_catch e
  | HaState state summary =>
      if String.eqb state "SUCCESS" then
        match summary with
        | Normal report => mkPollRun (Normal report) (S attempts) waits
        | Throw e => ha_catch e
        end
      else if String.eqb state "IN_PROGRESS" then
        ha_loop script remaining (S attempts) (S waits)
      else if String.eqb state "ERROR" then
        ha_catch (Error "Hybrid Analysis scan failed")
      else
        ha_loop script remaining (S attempts) waits
  end.
Proof.
  cbn [ha_loop]. cbv zeta.
  destruct (script (S attempts)) as [e|state summary].
  - by destruct (bool_decide (response_status e = Some 404)).
  - destruct summary as [report|e]; [reflexivity|].
    by destruct (bool_decide (response_status e = Some 404)).
Qed.

Lemma ha_loop_raises (e : error) :
  forall remaining attempts waits,
    (attempts + remaining = ha_maxAttempts)%nat ->
    poll_result (ha_loop script remaining attempts waits) = Throw e ->
    poll_attempts (ha_loop script remaining attempts waits) = ha_maxAttempts
    /\ (e = ha_timeout \/ exists e', e = ha_timeout_with e').
Proof.
  induction remaining as [|remaining IH]; intros attempts waits Hinv.
  - cbn [ha_loop poll_result poll_attempts]. intros [= <-]. split; [lia|auto].
  - rewrite ha_loop_step. cbv zeta.
    assert (Hrec : forall w0,
               poll_result (ha_loop script remaining (S attempts) w0) = Throw e ->
               poll_attempts (ha_loop script remaining (S attempts) w0) = ha_maxAttempts
               /\ (e = ha_timeout \/ exists e', e = ha_timeout_with e')).
    { intros w0. apply IH. lia. }
    assert (Hcatch : forall e0 : error,
               poll_result
                 (if (ha_maxAttempts <=? S attempts)%nat
                  then mkPollRun (Throw (ha_timeout_with e0)) (S attempts) waits
                  else ha_loop script remaining (S attempts) (S waits)) = Throw e ->
               poll_attempts
                 (if (ha_maxAttempts <=? S attempts)%nat
                  then mkPollRun (Throw (ha_timeout_with e0)) (S attempts) waits
                  else ha_loop script remaining (S attempts) (S waits)) = ha_maxAttempts
               /\ (e = ha_timeout \/ exists e', e = ha_timeout_with e')).
    { intros e0. destruct (Nat.leb_spec ha_maxAttempts (S attempts)).
      - cbn [poll_result poll_attempts]. intros [= <-]. split; [lia|eauto].
      - apply Hrec. }
    destruct (script (S attempts)) as [e0|state summary]; [apply Hcatch|].
    destruct (String.eqb state "SUCCESS").
    { destruct summary; [discriminate|apply Hcatch]. }
    destruct (String.eqb state "IN_PROGRESS"); [apply Hrec|].
    destruct (String.eqb state "ERROR"); [apply Hcatch|apply Hrec].
Qed.

Lemma pollHybridAnalysisResults_raises (e : error) :
  poll_result (pollHybridAnalysisResults script) = Throw e ->
  poll_attempts (pollHybridAnalysisResults script) = 30%nat
  /\ (e = ha_timeout \/ exists e', e = ha_timeout_with e').
Proof. apply ha_loop_raises. reflexivity. Qed.

End PollHybridAnalysis.

(** C4 (what the code does where the claim fails). A failure signal of
    the provider does not end the poll loop: the error the loop body
    throws for it is caught by the [catch] clause of the same iteration,
    which retries. Answered "failed" at attempt 1 and "completed" at
    attempt 2, [pollVirusTotalResults] returns the payload after two
    attempts; answered "failed" once and "queued" from then on, it spends
    all 30 attempts and raises a timeout. [pollMobSFScanLogs] does the
    same with a log entry that says the scan failed, and
    [pollHybridAnalysisResults] with the state "ERROR". *)
Theorem poll_failure_signal_is_retried :
  vt_failed (vt_failed_then_done 1) = true
  /\ pollVirusTotalResults vt_failed_then_done
     = {| poll_result := Normal sample_verdicts; poll_attempts := 2; poll_waits := 1 |}
  /\ pollVirusTotalResults vt_failed_then_queued
     = {| poll_result := Throw vt_timeout; poll_attempts := 30; poll_waits := 30 |}
  /\ failure_indicator (toLowerCase (log_text failed_log)) = true
  /\ pollMobSFScanLogs mobsf_failed_then_done
     = {| poll_result := Normal [failed_log; saved_log];
          poll_attempts := 2; poll_waits := 1 |}
  /\ pollHybridAnalysisResults ha_error_then_done
     = {| poll_result := Normal sample_sandbox; poll_attempts := 2; poll_waits := 1 |}.
Proof. repeat split; vm_compute; reflexivity. Qed.

(** The log poller tells a new last entry from an old one by the text
    before the first " - " alone: a completion entry that carries the
    timestamp of the entry seen before it is never looked at, and the
    budget runs out. *)
Example mobsf_done_entry_overlooked :
  completion_indicator (toLowerCase "10:00:09 - Saving to Database") = true
  /\ pollMobSFScanLogs mobsf_done_in_same_second
     = {| poll_result := Throw mobsf_timeout; poll_attempts := 60; poll_waits := 60 |}.
Proof. split; vm_compute; reflexivity. Qed.

(* ===================================================================== *)
(** * 13. The worker                                                      *)
(* ===================================================================== *)

Section Worker.

Variable w : World.
Variable job : JobData.

Implicit Types (s : System) (e : error).

(** Systems are compared member by member. *)
Lemma System_eq s s' :
  scans s = scans s' -> temp s = temp s' -> reports s = reports s' ->
  queue s = queue s' -> trace s = trace s' -> s = s'.
Proof. destruct s, s'; cbn; congruence. Qed.

(** ** Fetching the file touches the temporary directory only *)

Lemma fetch_file_frame s s' (r : completion unit) :
  fetch_file w job s = (s', r) ->
  scans s' = scans s /\ reports s' = reports s
  /\ queue s' = queue s /\ trace s' = trace s.
Proof.
  unfold fetch_file, bind, throw_if, mkdir, writeFile, lift, ret, throw.
  intros H. repeat case_match; simplify_eq; cbn; auto.
Qed.

Lemma fetch_file_ok s :
  fetch_ok w job ->
  exists s1,
    fetch_file w job s = (s1, Normal tt)
    /\ is_Some (temp s1 !! tempDirOf w (job_scanId job)).
Proof.
  intros (Hid & Hmk & (url & data & Hurl & Hne & Hdl) & Hwr).
  unfold fetch_file, bind, throw_if, mkdir, writeFile, lift, ret, throw.
  apply String.eqb_neq in Hid, Hne.
  rewrite Hid, Hmk, Hurl, Hne, Hdl, Hwr. cbn.
  eexists; split; [reflexivity|]. cbn.
  rewrite lookup_alter_is_Some.
  destruct (temp s !! tempDirOf w (job_scanId job)) eqn:E; [by rewrite E|].
  by rewrite lookup_insert_eq.
Qed.

(** ** The provider calls *)

Lemma run_optional_eq (p : Provider) (run : completion value) s :
  run_optional p run s
  = (with_trace (fun t => t ++ [Dispatched p; Settled p]) s, Normal (member_of run)).
Proof. unfold run_optional, try_catch, call, ret. by destruct run. Qed.

Lemma run_providers_mandatory_fails s e :
  runMobSFScan w = Throw e ->
  run_providers w s = (with_trace (fun t => t ++ mandatory_call) s, Throw e).
Proof. intros H. unfold run_providers, bind, call. by rewrite H. Qed.

Lemma run_providers_ok s (report : value) :
  runMobSFScan w = Normal report ->
  run_providers w s
  = (with_trace (fun t => t ++ mandatory_call ++ optional_calls) s,
     Normal {| mobsf := report;
               virustotal := member_of (runVirusTotalScan w);
               metadefender := member_of (runMetaDefenderScan w);
               hybridAnalysis := member_of (runHybridAnalysisScan w) |}).
Proof.
  intros H. unfold run_providers, bind. unfold call at 1. rewrite H.
  rewrite !run_optional_eq. unfold ret. f_equal.
  apply System_eq; cbn; try reflexivity.
  by rewrite <- !app_assoc.
Qed.

(** The AV client returns, whatever happens inside it. *)
Lemma runVirusTotalScan_returns : exists v, runVirusTotalScan w = Normal v.
Proof. unfold runVirusTotalScan. repeat case_match; eauto. Qed.


Lemma member_of_ends_with {P} (enc : P -> value) (run : completion value) (o : Outcome P) :
  ends_with enc run o -> member_of run = encode_outcome enc failed_object o.
Proof.
  destruct o as [p|r|r]; cbn.
  - by intros ->.
  - by intros (e & -> & <-).
  - by intros ->.
Qed.

Lemma run_providers_realises s (b : Bundle) :
  realises w b ->
  run_providers w s
  = (with_trace (fun t => t ++ mandatory_call ++ optional_calls) s, Normal (encode b)).
Proof.
  intros ((p & Hst & Hmob) & Hvt & Hmd & Hha).
  rewrite (run_providers_ok _ _ Hmob). do 2 f_equal.
  unfold encode. rewrite Hst, Hvt.
  rewrite (member_of_ends_with _ _ _ Hmd), (member_of_ends_with _ _ _ Hha).
  reflexivity.
Qed.

(** ** The [catch] clause *)

Lemma db_update_eq (id : string) (u : ScanUpdate) s :
  db_update w id u s
  = if store_accepts w id u
    then (with_scans (alter (apply_update u) id)
            (with_trace (fun t => t ++ [UpdateSent id u]) s), Normal false)
    else (with_trace (fun t => t ++ [UpdateSent id u]) s, Normal true).
Proof. unfold db_update, bind, emit. reflexivity. Qed.

Lemma apply_status_only (status : string) (scan : ScanRecord) :
  apply_update (status_only status) scan = with_status status scan.
Proof. reflexivity. Qed.

Lemma processScan_throws s s1 e :
  processScan_body w job s = (s1, Throw e) ->
  processScan w job s = (mark_failed w job s1, Throw e).
Proof.
  intros H. unfold processScan, try_catch, mark_failed. rewrite H.
  unfold bind, throw. rewrite db_update_eq.
  by destruct (store_accepts w (job_scanId job) (status_only "failed")).
Qed.

Lemma processScan_returns s s1 :
  processScan_body w job s = (s1, Normal tt) ->
  processScan w job s = (s1, Normal tt).
Proof. intros H. unfold processScan, try_catch. by rewrite H. Qed.

Lemma mark_failed_frame s :
  temp (mark_failed w job s) = temp s /\ reports (mark_failed w job s) = reports s
  /\ queue (mark_failed w job s) = queue s
  /\ trace (mark_failed w job s)
     = trace s ++ [UpdateSent (job_scanId job) (status_only "failed")]
  /\ scans (mark_failed w job s)
     = if store_accepts w (job_scanId job) (status_only "failed")
       then alter (with_status "failed") (job_scanId job) (scans s)
       else scans s.
Proof.
  unfold mark_failed. rewrite db_update_eq. case_match; cbn; auto.
Qed.

(** ** A failing mandatory provider *)

Lemma processScan_body_mandatory_fails s e :
  runMobSFScan w = Throw e ->
  exists s1 e1,
    processScan_body w job s = (s1, Throw e1)
    /\ scans s1 = scans s /\ reports s1 = reports s /\ queue s1 = queue s
    /\ (fetch_ok w job ->
        e1 = e /\ trace s1 = trace s ++ mandatory_call
        /\ is_Some (temp s1 !! tempDirOf w (job_scanId job))).
Proof.
  intros Hmob. unfold processScan_body, bind.
  destruct (fetch_file w job s) as [s0 [[]|e0]] eqn:Hf.
  - rewrite (run_providers_mandatory_fails _ _ Hmob).
    destruct (fetch_file_frame _ _ _ Hf) as (Hs & Hr & Hq & Ht).
    eexists _, _. split; [reflexivity|]. cbn. split; [|split; [|split]]; auto.
    intros Hok. destruct (fetch_file_ok s Hok) as (s1 & Hf' & Htemp).
    rewrite Hf in Hf'. simplify_eq. rewrite Ht. auto.
  - destruct (fetch_file_frame _ _ _ Hf) as (Hs & Hr & Hq & Ht).
    eexists _, _. split; [reflexivity|]. split; [|split; [|split]]; auto.
    intros Hok. destruct (fetch_file_ok s Hok) as (s1 & Hf' & Htemp).
    rewrite Hf in Hf'. discriminate.
Qed.

End Worker.

Section WorkerCompletes.

Variable w : World.
Variable job : JobData.

Implicit Types (s : System) (e : error) (b : Bundle).

(** ** Recommendations of an encoded bundle never throw *)

Lemma has_findings_encode (o : Outcome StaticFindings) :
  (exists h, has_findings (encode_static_outcome o) "high" = Normal h)
  /\ (exists m, has_findings (encode_static_outcome o) "medium" = Normal m)
  /\ (exists l, has_findings (encode_static_outcome o) "low" = Normal l).
Proof. destruct o; cbn; repeat split; eauto. Qed.

Lemma generateRecommendations_encode b :
  bundle_ok b -> exists recs, generateRecommendations (encode b) = Normal recs.
Proof.
  intros Hok. unfold generateRecommendations, encode.
  cbn [mobsf virustotal metadefender hybridAnalysis].
  destruct (has_findings_encode (static_analysis b)) as ((h & ->) & (m & ->) & (l & ->)).
  cbn [cbind].
  assert (Hvt : exists n,
             (if truthy (encode_av_outcome (av b))
              then (n <- count_values category_is_malicious (encode_av_outcome (av b)) ;;
                    Normal (0 <? n))%js
              else Normal false) = Normal n).
  { unfold bundle_ok in Hok. destruct (av b) as [p|r|r]; cbn [encode_av_outcome encode_outcome].
    - unfold encode_av_outcome. cbn [encode_outcome].
      rewrite count_malicious. cbn. eauto.
    - cbn. eauto.
    - cbn. eauto. }
  destruct Hvt as [n ->]. cbn [cbind].
  assert (Hmd : exists d,
             (details <- get_opt (encode_reputation_outcome (reputation b)) "scan_details" ;;
              md <- (if truthy details
                     then (n <- count_values threat_found details ;; Normal (0 <? n))
                     else Normal false) ;;
              Normal md)%js = Normal d).
  { destruct (reputation b) as [p|r|r]; unfold encode_reputation_outcome;
      cbn [encode_outcome].
    - unfold encode_threats.
      cbn [get_opt get assoc String.eqb Ascii.eqb Bool.eqb cbind truthy].
      rewrite count_detections. cbn. eauto.
    - cbn. eauto.
    - cbn. eauto. }
  destruct Hmd as [d Hd].
  destruct (get_opt (encode_reputation_outcome (reputation b)) "scan_details")
    as [details|e]; [|discriminate].
  cbn [cbind] in Hd |- *.
  destruct (if truthy details
            then (n0 <- count_values threat_found details ;; Normal (0 <? n0))%js
            else Normal false) as [md|e]; [|discriminate].
  cbn [cbind].
  destruct (sandbox b) as [p|r|r]; cbn; eauto.
Qed.

(** ** Scoring, rendering and persisting *)

Lemma score_and_persist_ok s (results : Results) (n : number) (recs : list string) :
  job_scanId job <> EmptyString ->
  persist_ok w job ->
  calculateTFScore results = Normal n ->
  generateRecommendations results = Normal recs ->
  exists pdf,
    score_and_persist w job results s
    = ({| scans := alter (apply_update (completed_update n (pdfPathOf w job) results))
                     (job_scanId job) (scans s);
          temp := delete (tempDirOf w (job_scanId job)) (temp s);
          reports := <[pdfPathOf w job := pdf]> (reports s);
          queue := queue s;
          trace := trace s ++ [Assembled;
                               UpdateSent (job_scanId job)
                                 (completed_update n (pdfPathOf w job) results)] |},
       Normal tt).
Proof.
  intros Hid (Hpdf & Hup & Hst & Hrm) Hscore Hrecs.
  destruct (Hpdf (pdfDataOf w job n results)) as [pdf Hpdf'].
  exists pdf.
  unfold score_and_persist, bind, lift, emit, upload, throw_if, ret, rm.
  rewrite Hscore, Hpdf', Hup, Hrecs. apply String.eqb_neq in Hid. rewrite Hid.
  rewrite db_update_eq, Hst, Hrm. cbn. f_equal.
  apply System_eq; cbn; try reflexivity.
  by rewrite <- app_assoc.
Qed.

Lemma score_and_persist_trace s s' (results : Results) (r : completion unit) :
  score_and_persist w job results s = (s', r) ->
  exists rest,
    trace s' = trace s ++ rest
    /\ Forall (fun ev => is_provider_event ev = false) rest.
Proof.
  unfold score_and_persist, db_update, bind, lift, emit, upload, throw_if, ret, throw, rm.
  intros H. repeat case_match; simplify_eq; cbn;
    try (exists []; split; [by rewrite app_nil_r|constructor]);
    try (exists [Assembled]; split; [reflexivity|repeat constructor]);
    try (eexists [Assembled; UpdateSent _ _]; split;
         [by rewrite <- app_assoc|repeat constructor]).
Qed.

(** The worker completes a job whose mandatory provider succeeded,
    whatever the optional providers did, when its other collaborators
    answer well. *)
Lemma processScan_completes s b (scan : ScanRecord) :
  fetch_ok w job -> persist_ok w job ->
  realises w b -> bundle_ok b ->
  scans s !! job_scanId job = Some scan ->
  exists s',
    processScan w job s = (s', Normal tt)
    /\ scans s' !! job_scanId job
       = Some (completed_scan scan (spec_score b) (pdfPathOf w job) (encode b))
    /\ temp s' !! tempDirOf w (job_scanId job) = None.
Proof.
  intros Hfetch Hpersist Hreal Hok Hscan.
  destruct (fetch_file_ok w job s Hfetch) as (s1 & Hf & _).
  destruct (fetch_file_frame w job _ _ _ Hf) as (Hs1 & _).
  destruct (generateRecommendations_encode b Hok) as [recs Hrecs].
  destruct (score_and_persist_ok
              (with_trace (fun t => t ++ mandatory_call ++ optional_calls) s1)
              (encode b) (Int (spec_score b)) recs
              (proj1 Hfetch) Hpersist (calculateTFScore_encode b Hok) Hrecs)
    as [pdf Hsp].
  eexists. split; [|split].
  - apply processScan_returns. unfold processScan_body, bind.
    rewrite Hf, (run_providers_realises w _ b Hreal). exact Hsp.
  - cbn. rewrite lookup_alter_eq, Hs1, Hscan. reflexivity.
  - cbn. apply lookup_delete_eq.
Qed.

End WorkerCompletes.

(** ** The sample worlds answer well *)

Lemma calm_fetch_ok : fetch_ok calm_world sample_job.
Proof.
  unfold fetch_ok. split; [discriminate|]. split; [reflexivity|]. split; [|reflexivity].
  eexists _, _. split; [reflexivity|]. split; [discriminate|reflexivity].
Defined.






(** ** The claims about the worker *)



(** C6. When the mandatory static-analysis provider fails, the worker
    throws; the job record keeps the result bundle, the score and the
    report reference it had, and no report is stored; the one write the
    worker sends names the status only, and once the record store has
    applied it the record is the old one with status "failed". *)
Theorem mandatory_failure_persists_nothing (w : World) (job : JobData) (s : System)
    (e : error) (scan : ScanRecord) :
  runMobSFScan w = Throw e ->
  scans s !! job_scanId job = Some scan ->
  exists (s' : System) (e' : error) (scan' : ScanRecord),
    processScan w job s = (s', Throw e')
    /\ scans s' !! job_scanId job = Some scan'
    /\ report_data scan' = report_data scan
    /\ tf_score scan' = tf_score scan
    /\ pdf_report_url scan' = pdf_report_url scan
    /\ reports s' = reports s
    /\ (store_accepts w (job_scanId job) (status_only "failed") = true ->
        scan' = with_status "failed" scan).
Proof.
  intros Hmob Hscan.
  destruct (processScan_body_mandatory_fails w job s e Hmob)
    as (s1 & e1 & Hbody & Hs & Hr & _).
  destruct (mark_failed_frame w job s1) as (_ & Hr' & _ & _ & Hs').
  exists (mark_failed w job s1), e1.
  destruct (store_accepts w (job_scanId job) (status_only "failed")) eqn:Hacc.
  - exists (with_status "failed" scan). split; [by apply processScan_throws|].
    rewrite Hs', Hs, lookup_alter_eq, Hscan, Hr', Hr. by repeat split.
  - exists scan. split; [by apply processScan_throws|].
    rewrite Hs', Hs, Hscan, Hr', Hr. by repeat split.
Qed.

(** C6 (witness). The static-analysis server refuses the upload of a
    pending scan. *)
Lemma mandatory_failure_persists_nothing_witness :
  exists (s' : System) (e' : error),
    processScan mobsf_down_world sample_job (sample_system "pending") = (s', Throw e')
    /\ scans s' !! "scan-1" = Some (sample_scan "failed")
    /\ reports s' = ∅.
Proof.
  destruct (mandatory_failure_persists_nothing mobsf_down_world sample_job
              (sample_system "pending") (Error "MobSF scan failed: connect ECONNREFUSED")
              (sample_scan "pending") eq_refl eq_refl)
    as (s' & e' & scan' & Hrun & Hrec & _ & _ & _ & Hrep & Hfailed).
  exists s', e'. split; [exact Hrun|]. split; [|exact Hrep].
  change (job_scanId sample_job) with "scan-1" in Hrec.
  rewrite Hrec, (Hfailed eq_refl). reflexivity.
Defined.

(** The success path removes the temporary directory. *)
Lemma processScan_success_removes_temp (w : World) (job : JobData) (s s' : System) :
  processScan w job s = (s', Normal tt) ->
  temp s' !! tempDirOf w (job_scanId job) = None.
Proof.
  unfold processScan, try_catch, processScan_body, bind at 1 2.
  destruct (fetch_file w job s) as [s0 [[]|e0]];
    [|unfold bind, db_update, emit, throw; intros; repeat case_match; simplify_eq].
  destruct (run_providers w s0) as [s1 [results|e1]];
    [|unfold bind, db_update, emit, throw; intros; repeat case_match; simplify_eq].
  unfold score_and_persist, db_update, bind, lift, emit, upload, throw_if, ret, throw, rm.
  intros H. repeat case_match; simplify_eq. cbn. apply lookup_delete_eq.
Qed.

(** A failing mandatory provider leaves the temporary directory behind. *)
Lemma processScan_failure_keeps_temp (w : World) (job : JobData) (s : System) (e : error) :
  fetch_ok w job ->
  runMobSFScan w = Throw e ->
  (processScan w job s).2 = Throw e
  /\ is_Some (temp (processScan w job s).1 !! tempDirOf w (job_scanId job)).
Proof.
  intros Hfetch Hmob.
  destruct (processScan_body_mandatory_fails w job s e Hmob)
    as (s1 & e1 & Hbody & _ & _ & _ & Hok).
  destruct (Hok Hfetch) as (-> & _ & Htemp).
  rewrite (processScan_throws w job s s1 e Hbody). cbn [fst snd]. split; [reflexivity|].
  destruct (mark_failed_frame w job s1) as (-> & _). exact Htemp.
Qed.

(** C8 (what the code does where the claim fails). The worker removes the
    temporary directory at the end of the [try] block only. When the
    static-analysis server refuses the upload, the worker writes the
    failed status and throws, and the directory with the downloaded file
    is still there when it reports the job finished. *)
Theorem temp_dir_left_behind_on_failure :
  (processScan mobsf_down_world sample_job (sample_system "pending")).2
  = Throw (Error "MobSF scan failed: connect ECONNREFUSED")
  /\ temp (processScan mobsf_down_world sample_job (sample_system "pending")).1
       !! "/srv/app/temp/scan-1" = Some ["app.apk"]
  /\ temp (processScan calm_world sample_job (sample_system "pending")).1
       !! "/srv/app/temp/scan-1" = None.
Proof. repeat split; vm_compute; reflexivity. Qed.

(** The trace of [sample_job] in the calm world. *)
Example calm_run_trace :
  take 9 (trace (processScan calm_world sample_job (sample_system "pending")).1)
  = mandatory_call ++ optional_calls ++ [Assembled].
Proof. vm_compute. reflexivity. Qed.

(** C9 (counterexample). The optional providers are not fanned out: in
    the run of [sample_job] in the calm world the reputation service is
    dispatched (position 4 of the trace) after the await on the AV
    aggregator has returned (position 3). *)
Lemma optional_providers_not_fanned_out :
  ~ dispatched_before_any_await
      (trace (processScan calm_world sample_job (sample_system "pending")).1).
Proof.
  intros H.
  assert (Hlt : (4 < 3)%nat).
  { apply (H 4%nat 3%nat MetaDefender VirusTotal); vm_compute; reflexivity. }
  lia.
Qed.

(** C9 (amended). Within a job the provider scans run one after the
    other, in the order static analysis, AV aggregator, reputation
    service, sandbox: each provider is dispatched only after the await on
    the one before it has returned. The trace a job adds is either free of
    provider events (the file could not be fetched), or the mandatory
    call alone (it failed), or the mandatory call followed by the three
    optional calls in sequence; the combined bundle is assembled in the
    third case only, after all of them have settled. *)
Theorem optional_providers_run_in_sequence (w : World) (job : JobData) (s : System) :
  exists rest : list Event,
    Forall (fun ev => is_provider_event ev = false) rest
    /\ ((trace (processScan w job s).1 = trace s ++ rest /\ Assembled ∉ rest)
        \/ (trace (processScan w job s).1 = trace s ++ mandatory_call ++ rest
            /\ Assembled ∉ rest)
        \/ trace (processScan w job s).1
           = trace s ++ mandatory_call ++ optional_calls ++ rest).
Proof.
  pose (failed_write := UpdateSent (job_scanId job) (status_only "failed")).
  assert (Hnot : Assembled ∉ [failed_write]).
  { intros Hin. apply list_elem_of_singleton in Hin. discriminate. }
  destruct (processScan_body w job s) as [sb rb] eqn:Hbody.
  revert Hbody. unfold processScan_body, bind at 1 2.
  destruct (fetch_file w job s) as [s0 [[]|e0]] eqn:Hf;
    destruct (fetch_file_frame w job _ _ _ Hf) as (_ & _ & _ & Ht0).
  - destruct (runMobSFScan w) as [report|e] eqn:Hmob.
    + rewrite (run_providers_ok w s0 report Hmob).
      intros Hsp. destruct (score_and_persist_trace w job _ _ _ _ Hsp) as (rest & Ht & Hrest).
      cbn [trace with_trace] in Ht. rewrite Ht0 in Ht.
      destruct rb as [[]|e1].
      * exists rest. split; [exact Hrest|]. right. right.
        rewrite (processScan_returns w job s sb); [|by unfold processScan_body, bind; rewrite Hf, (run_providers_ok w s0 report Hmob)].
        cbn [fst]. rewrite Ht. by rewrite <- !app_assoc.
      * exists (rest ++ [failed_write]). split.
        { apply Forall_app. split; [exact Hrest|repeat constructor]. }
        right. right.
        rewrite (processScan_throws w job s sb e1); [|by unfold processScan_body, bind; rewrite Hf, (run_providers_ok w s0 report Hmob)].
        cbn [fst]. destruct (mark_failed_frame w job sb) as (_ & _ & _ & -> & _).
        rewrite Ht. by rewrite <- !app_assoc.
    + rewrite (run_providers_mandatory_fails w s0 e Hmob). intros [= <- <-].
      exists [failed_write]. split; [repeat constructor|]. right. left.
      rewrite (processScan_throws w job s (with_trace (fun t => t ++ mandatory_call) s0) e);
        [|by unfold processScan_body, bind; rewrite Hf, (run_providers_mandatory_fails w s0 e Hmob)].
      cbn [fst]. destruct (mark_failed_frame w job (with_trace (fun t => t ++ mandatory_call) s0))
        as (_ & _ & _ & -> & _).
      cbn [trace with_trace]. rewrite Ht0. split; [by rewrite <- !app_assoc|exact Hnot].
  - intros [= <- <-].
    exists [failed_write]. split; [repeat constructor|]. left.
    rewrite (processScan_throws w job s s0 e0);
      [|by unfold processScan_body, bind; rewrite Hf].
    cbn [fst]. destruct (mark_failed_frame w job s0) as (_ & _ & _ & -> & _).
    rewrite Ht0. split; [reflexivity|exact Hnot].
Qed.

(* ===================================================================== *)
(** * 14. The retry operation                                             *)
(* ===================================================================== *)

Section Retry.

Variable w : World.

Implicit Types (s : System) (scan : ScanRecord).

Lemma select_single_Some scanId userId s scan :
  select_single w scanId userId s = Some scan ->
  scans s !! scanId = Some scan /\ user_id scan = userId.
Proof.
  unfold select_single. intros H. repeat case_match; simplify_eq.
  split; [reflexivity|]. by apply String.eqb_eq.
Qed.

Lemma enqueue_eq (j : JobData) s :
  enqueue w j s
  = match queue_add w j with
    | Normal _ =>
        ({| scans := scans s; temp := temp s; reports := reports s;
            queue := queue s ++ [j]; trace := trace s ++ [Enqueued j] |}, Normal tt)
    | Throw e => (s, Throw e)
    end.
Proof. unfold enqueue. by destruct (queue_add w j). Qed.

(** The retry of a scan that is not in the failed state is rejected
    with a 400, before anything is done. *)
Lemma retryScan_rejects scanId userId s scan :
  select_single w scanId userId s = Some scan ->
  scan_status scan <> "failed" ->
  retryScan w scanId userId s
  = (s, inl (BadRequestException "Only failed scans can be retried")).
Proof.
  intros Hsel Hst. unfold retryScan. rewrite Hsel.
  apply String.eqb_neq in Hst. by rewrite Hst.
Qed.

(** An accepted retry found the scan failed, put its job on the queue
    and set the status to "retrying". *)
Lemma retryScan_accepts scanId userId s s' (reply : RetryReply) :
  retryScan w scanId userId s = (s', inr reply) ->
  exists scan,
    scans s !! scanId = Some scan /\ user_id scan = userId
    /\ scan_status scan = "failed"
    /\ queue s' = queue s ++ [retry_job scan]
    /\ scans s' !! scanId = Some (with_status "retrying" scan).
Proof.
  unfold retryScan.
  destruct (select_single w scanId userId s) as [scan|] eqn:Hsel; [|discriminate].
  destruct (select_single_Some _ _ _ _ Hsel) as (Hscan & Huser).
  destruct (String.eqb_spec (scan_status scan) "failed") as [Hst|_]; [|discriminate].
  cbn [negb]. fold (retry_job scan). rewrite enqueue_eq.
  destruct (queue_add w (retry_job scan)); [|discriminate].
  rewrite db_update_eq.
  destruct (store_accepts w scanId (status_only "retrying")); [|discriminate].
  intros [= <- _]. exists scan. cbn.
  rewrite lookup_alter_eq, Hscan. auto.
Qed.

End Retry.

(** C7 (counterexample). The accepted retry of a failed scan leaves the
    status "retrying", not "processing". *)
Lemma retry_sets_retrying_not_processing :
  (retryScan calm_world "scan-1" "user-7" (sample_system "failed")).2
  = inr {| reply_message := "Scan retry initiated successfully"; reply_scanId := "scan-1" |}
  /\ scan_status <$>
       scans (retryScan calm_world "scan-1" "user-7" (sample_system "failed")).1 !! "scan-1"
     = Some "retrying"
  /\ scan_status <$>
       scans (retryScan calm_world "scan-1" "user-7" (sample_system "failed")).1 !! "scan-1"
     <> Some "processing".
Proof.
  split; [vm_compute; reflexivity|].
  assert (H : scan_status <$>
                scans (retryScan calm_world "scan-1" "user-7" (sample_system "failed")).1
                  !! "scan-1" = Some "retrying") by (vm_compute; reflexivity).
  split; [exact H|]. rewrite H. discriminate.
Qed.

(** C7 (amended). The retry operation is accepted only when the job's
    current status is failed: a retry of a scan in any other state, such
    as pending, processing or completed, is rejected as a client error
    (400) and changes nothing. An accepted retry re-enqueues the job and
    sets its status from "failed" to "retrying". *)
Theorem retry_only_from_failed (w : World) (scanId userId : string) (s : System) :
  (forall (s' : System) (reply : RetryReply),
      retryScan w scanId userId s = (s', inr reply) ->
      exists scan : ScanRecord,
        scans s !! scanId = Some scan /\ user_id scan = userId
        /\ scan_status scan = "failed"
        /\ queue s' = queue s ++ [retry_job scan]
        /\ scans s' !! scanId = Some (with_status "retrying" scan))
  /\ (forall scan : ScanRecord,
        select_single w scanId userId s = Some scan ->
        scan_status scan <> "failed" ->
        exists err : ServiceError,
          retryScan w scanId userId s = (s, inl err)
          /\ client_error err = true).
Proof.
  split.
  - intros s' reply. apply retryScan_accepts.
  - intros scan Hsel Hst. eexists. split; [by eapply retryScan_rejects|reflexivity].
Qed.

(** C7 (witness). A retry of a failed scan, and retries of a pending, a
    processing and a completed scan. *)
Lemma retry_only_from_failed_witness :
  (exists s',
      retryScan calm_world "scan-1" "user-7" (sample_system "failed") = (s', inr
        {| reply_message := "Scan retry initiated successfully"; reply_scanId := "scan-1" |})
      /\ queue s' = [sample_job]
      /\ scans s' !! "scan-1" = Some (sample_scan "retrying"))
  /\ (forall status, status ∈ ["pending"; "processing"; "completed"] ->
      exists err,
        retryScan calm_world "scan-1" "user-7" (sample_system status)
        = (sample_system status, inl err)
        /\ client_error err = true).
Proof.
  split.
  - eexists. split; [vm_compute; reflexivity|].
    destruct (proj1 (retry_only_from_failed calm_world "scan-1" "user-7"
                       (sample_system "failed")) _ _ eq_refl)
      as (scan & Hscan & _ & _ & Hq & Hrec).
    assert (scan = sample_scan "failed") as ->.
    { vm_compute in Hscan. by injection Hscan. }
    split; [exact Hq|exact Hrec].
  - intros status Hin.
    apply (proj2 (retry_only_from_failed calm_world "scan-1" "user-7"
                    (sample_system status)) (sample_scan status)).
    + unfold select_single, sample_system. cbn [store_readable calm_world scans].
      rewrite lookup_singleton_eq. reflexivity.
    + cbn [scan_status sample_scan].
      repeat (apply elem_of_cons in Hin as [->|Hin]; [discriminate|]).
      by apply elem_of_nil in Hin.
Defined.

(** C10. In the retry operation the job is put on the queue before the
    status update is sent. When the retry of a failed scan is enqueued
    and the record store then refuses the status update, the operation
    answers with an error (500) although the job is on the queue, and the
    record still says "failed": the error does not mean that nothing was
    done. *)
Theorem retry_error_after_enqueue (w : World) (scanId userId : string) (s : System)
    (scan : ScanRecord) :
  select_single w scanId userId s = Some scan ->
  scan_status scan = "failed" ->
  queue_add w (retry_job scan) = Normal tt ->
  store_accepts w scanId (status_only "retrying") = false ->
  exists s' : System,
    retryScan w scanId userId s
    = (s', inl (InternalServerErrorException "Failed to update scan status"))
    /\ queue s' = queue s ++ [retry_job scan]
    /\ scans s' = scans s
    /\ trace s' = trace s ++ [Enqueued (retry_job scan);
                              UpdateSent scanId (status_only "retrying")].
Proof.
  intros Hsel Hst Hq Hacc. unfold retryScan. rewrite Hsel, Hst.
  cbn [String.eqb Ascii.eqb Bool.eqb negb]. fold (retry_job scan).
  rewrite enqueue_eq, Hq, db_update_eq, Hacc.
  eexists. split; [reflexivity|]. cbn. by rewrite <- app_assoc.
Qed.

(** C10 (witness). The record store is down when a failed scan is retried. *)
Lemma retry_error_after_enqueue_witness :
  exists s' : System,
    retryScan store_down_world "scan-1" "user-7" (sample_system "failed")
    = (s', inl (InternalServerErrorException "Failed to update scan status"))
    /\ queue s' = [sample_job]
    /\ scans s' !! "scan-1" = Some (sample_scan "failed").
Proof.
  destruct (retry_error_after_enqueue store_down_world "scan-1" "user-7"
              (sample_system "failed") (sample_scan "failed")
              eq_refl eq_refl eq_refl eq_refl)
    as (s' & Hrun & Hq & Hs & _).
  exists s'. split; [exact Hrun|]. split; [exact Hq|]. rewrite Hs. reflexivity.
Defined.

(* ===================================================================== *)
(** * Further properties: the poll drivers                                *)
(* ===================================================================== *)

Lemma vt_loop_unknown (script : nat -> VtAnswer) :
  forall remaining attempts waits,
    (forall n, (attempts < n <= attempts + remaining)%nat -> vt_unknown (script n) = true) ->
    vt_loop script remaining attempts waits
    = mkPollRun (Throw vt_timeout) (attempts + remaining) waits.
Proof.
  induction remaining as [|remaining IH]; intros attempts waits Hu.
  - cbn [vt_loop]. f_equal; lia.
  - rewrite vt_loop_step.
    assert (H1 : vt_unknown (script (S attempts)) = true) by (apply Hu; lia).
    destruct (script (S attempts)) as [e|status rs]; cbn [vt_unknown] in H1;
      [discriminate|].
    destruct (String.eqb status "completed"); [discriminate|].
    destruct (String.eqb status "queued" || String.eqb status "in-progress");
      [discriminate|].
    destruct (String.eqb status "failed"); [discriminate|].
    rewrite IH by (intros n Hn; apply Hu; lia).
    f_equal; lia.
Qed.

(** X1. [pollVirusTotalResults] does not wait after an answer whose
    status it does not know: against answers whose status is none of
    "completed", "queued", "in-progress" and "failed" it sends its 30
    requests without a single wait and then raises the timeout. *)
Theorem vt_poll_unknown_status_never_waits (script : nat -> VtAnswer) :
  (forall n, (1 <= n <= 30)%nat -> vt_unknown (script n) = true) ->
  pollVirusTotalResults script
  = {| poll_result := Throw vt_timeout; poll_attempts := 30; poll_waits := 0 |}.
Proof.
  intros Hu. unfold pollVirusTotalResults. rewrite vt_loop_unknown; [reflexivity|].
  intros n Hn. apply Hu. unfold vt_maxAttempts in Hn. lia.
Qed.

(** X1 (witness). The status "unknown" at every attempt. *)
Lemma vt_poll_unknown_status_never_waits_witness :
  pollVirusTotalResults (fun _ => VtStatus "unknown" VUndef)
  = {| poll_result := Throw vt_timeout; poll_attempts := 30; poll_waits := 0 |}.
Proof.
  apply (vt_poll_unknown_status_never_waits (fun _ => VtStatus "unknown" VUndef)).
  intros n Hn. reflexivity.
Defined.

(** ** The budget of the four poll loops *)

Ltac budget_cases :=
  repeat match goal with
         | |- context [match ?x with _ => _ end] =>
             lazymatch x with
             | context [vt_loop] => fail
             | context [mobsf_loop] => fail
             | context [md_loop] => fail
             | context [ha_loop] => fail
             | _ => destruct x
             end
         end.

Ltac budget_close IH :=
  first
    [ cbn [poll_attempts poll_waits]; lia
    | match goal with
      | |- within_budget (vt_loop _ _ ?a ?w) _ _ _ =>
          destruct (IH a w) as (? & ? & ?); unfold within_budget; lia
      | |- within_budget (md_loop _ _ ?a ?w) _ _ _ =>
          destruct (IH a w) as (? & ? & ?); unfold within_budget; lia
      | |- within_budget (ha_loop _ _ ?a ?w) _ _ _ =>
          destruct (IH a w) as (? & ? & ?); unfold within_budget; lia
      | |- within_budget (mobsf_loop _ _ ?a ?w ?t) _ _ _ =>
          destruct (IH a w t) as (? & ? & ?); unfold within_budget; lia
      end ].

Lemma vt_loop_budget (script : nat -> VtAnswer) :
  forall remaining attempts waits,
    within_budget (vt_loop script remaining attempts waits) remaining attempts waits.
Proof.
  induction remaining as [|remaining IH]; intros attempts waits.
  - unfold within_budget. cbn [vt_loop poll_attempts poll_waits]. lia.
  - rewrite vt_loop_step. budget_cases; try budget_close IH;
      unfold within_budget; cbn [poll_attempts poll_waits]; lia.
Qed.

Lemma mobsf_loop_budget (script : nat -> MobsfAnswer) :
  forall remaining attempts waits ts,
    within_budget (mobsf_loop script remaining attempts waits ts) remaining attempts waits.
Proof.
  induction remaining as [|remaining IH]; intros attempts waits ts.
  - unfold within_budget. cbn [mobsf_loop poll_attempts poll_waits]. lia.
  - rewrite mobsf_loop_step. cbv zeta. budget_cases; try budget_close IH;
      unfold within_budget; cbn [poll_attempts poll_waits]; lia.
Qed.

Lemma md_loop_budget (script : nat -> MdAnswer) :
  forall remaining attempts waits,
    within_budget (md_loop script remaining attempts waits) remaining attempts waits.
Proof.
  induction remaining as [|remaining IH]; intros attempts waits.
  - unfold within_budget. cbn [md_loop poll_attempts poll_waits]. lia.
  - rewrite md_loop_step. cbv zeta. budget_cases; try budget_close IH;
      unfold within_budget; cbn [poll_attempts poll_waits]; lia.
Qed.

Lemma ha_loop_budget (script : nat -> HaAnswer) :
  forall remaining attempts waits,
    within_budget (ha_loop script remaining attempts waits) remaining attempts waits.
Proof.
  induction remaining as [|remaining IH]; intros attempts waits.
  - unfold within_budget. cbn [ha_loop poll_attempts poll_waits]. lia.
  - rewrite ha_loop_step. cbv zeta. budget_cases; try budget_close IH;
      unfold within_budget; cbn [poll_attempts poll_waits]; lia.
Qed.

(** X2. Every poll loop sends at least one and at most its budget of
    requests (30, for the static analysis 60), whatever the provider
    answers, and waits at most once per request. *)
Theorem pollers_respect_budget :
  (forall script : nat -> VtAnswer,
      (1 <= poll_attempts (pollVirusTotalResults script) <= 30)%nat
      /\ (poll_waits (pollVirusTotalResults script)
          <= poll_attempts (pollVirusTotalResults script))%nat)
  /\ (forall script : nat -> MobsfAnswer,
      (1 <= poll_attempts (pollMobSFScanLogs script) <= 60)%nat
      /\ (poll_waits (pollMobSFScanLogs script)
          <= poll_attempts (pollMobSFScanLogs script))%nat)
  /\ (forall script : nat -> MdAnswer,
      (1 <= poll_attempts (pollMetaDefenderResults script) <= 30)%nat
      /\ (poll_waits (pollMetaDefenderResults script)
          <= poll_attempts (pollMetaDefenderResults script))%nat)
  /\ (forall script : nat -> HaAnswer,
      (1 <= poll_attempts (pollHybridAnalysisResults script) <= 30)%nat
      /\ (poll_waits (pollHybridAnalysisResults script)
          <= poll_attempts (pollHybridAnalysisResults script))%nat).
Proof.
  split; [|split; [|split]]; intros script.
  - destruct (vt_loop_budget script vt_maxAttempts 0 0) as (H1 & H2 & H3).
    unfold pollVirusTotalResults, vt_maxAttempts in *. lia.
  - destruct (mobsf_loop_budget script mobsf_maxAttempts 0 0 (Some EmptyString))
      as (H1 & H2 & H3).
    unfold pollMobSFScanLogs, mobsf_maxAttempts in *. lia.
  - destruct (md_loop_budget script md_maxAttempts 0 0) as (H1 & H2 & H3).
    unfold pollMetaDefenderResults, md_maxAttempts in *. lia.
  - destruct (ha_loop_budget script ha_maxAttempts 0 0) as (H1 & H2 & H3).
    unfold pollHybridAnalysisResults, ha_maxAttempts in *. lia.
Qed.

(** X2 (witness). The sandbox poll that succeeds at the fifth request. *)
Lemma pollers_respect_budget_witness :
  (1 <= poll_attempts (pollHybridAnalysisResults ha_rough_then_done) <= 30)%nat.
Proof.
  destruct pollers_respect_budget as (_ & _ & _ & H).
  exact (proj1 (H ha_rough_then_done)).
Defined.

(** X3. Whatever the provider answers, a poll loop that raises has spent
    its whole budget, and what it raises is its timeout error, bare or
    with the message of a caught error appended. *)
Theorem pollers_raise_only_timeouts :
  (forall (script : nat -> VtAnswer) (e : error),
      poll_result (pollVirusTotalResults script) = Throw e ->
      poll_attempts (pollVirusTotalResults script) = 30%nat
      /\ (e = vt_timeout \/ exists e', e = vt_timeout_with e'))
  /\ (forall (script : nat -> MobsfAnswer) (e : error),
      poll_result (pollMobSFScanLogs script) = Throw e ->
      poll_attempts (pollMobSFScanLogs script) = 60%nat
      /\ (e = mobsf_timeout \/ exists e', e = mobsf_timeout_with e'))
  /\ (forall (script : nat -> MdAnswer) (e : error),
      poll_result (pollMetaDefenderResults script) = Throw e ->
      poll_attempts (pollMetaDefenderResults script) = 30%nat
      /\ (e = md_timeout \/ exists e', e = md_timeout_with e'))
  /\ (forall (script : nat -> HaAnswer) (e : error),
      poll_result (pollHybridAnalysisResults script) = Throw e ->
      poll_attempts (pollHybridAnalysisResults script) = 30%nat
      /\ (e = ha_timeout \/ exists e', e = ha_timeout_with e')).
Proof.
  split; [|split; [|split]].
  - apply pollVirusTotalResults_raises.
  - apply pollMobSFScanLogs_raises.
  - apply pollMetaDefenderResults_raises.
  - apply pollHybridAnalysisResults_raises.
Qed.

(** X3 (witness). The sandbox answers "ERROR" throughout. *)
Lemma pollers_raise_only_timeouts_witness :
  poll_attempts (pollHybridAnalysisResults
                   (fun _ => HaState "ERROR" (Throw (Error "not requested")))) = 30%nat.
Proof.
  apply (proj2 (proj2 (proj2 pollers_raise_only_timeouts))
           (fun _ => HaState "ERROR" (Throw (Error "not requested")))
           (ha_timeout_with (Error "Hybrid Analysis scan failed"))).
  vm_compute. reflexivity.
Defined.

(** ** What the loops return *)

Lemma is_hundred_true (status : value) : is_hundred status = true -> status = VNum 100.
Proof.
  destruct status; cbn [is_hundred]; try discriminate.
  intros H. apply Z.eqb_eq in H. by subst.
Qed.

Lemma md_loop_returns (script : nat -> MdAnswer) (v : value) :
  forall remaining attempts waits,
    poll_result (md_loop script remaining attempts waits) = Normal v ->
    get v "progress_percentage" = Normal (VNum 100)
    /\ exists n, (attempts < n <= attempts + remaining)%nat /\ script n = MdResults v.
Proof.
  induction remaining as [|remaining IH]; intros attempts waits.
  - cbn [md_loop poll_result]. discriminate.
  - rewrite md_loop_step. cbv zeta.
    assert (Hrec : forall w0,
               poll_result (md_loop script remaining (S attempts) w0) = Normal v ->
               get v "progress_percentage" = Normal (VNum 100)
               /\ exists n, (attempts < n <= attempts + S remaining)%nat
                            /\ script n = MdResults v).
    { intros w0 H. destruct (IH _ _ H) as (Hg & n & Hn & Hs).
      split; [exact Hg|]. exists n. split; [lia|exact Hs]. }
    destruct (script (S attempts)) as [e0|scan_results] eqn:Hs.
    + destruct (md_maxAttempts <=? S attempts)%nat; [discriminate|apply Hrec].
    + destruct (get scan_results "progress_percentage") as [status|e0] eqn:Hg.
      * destruct (is_hundred status) eqn:Hh; [|apply Hrec].
        cbn [poll_result]. intros [= <-].
        apply is_hundred_true in Hh. subst status.
        split; [exact Hg|]. exists (S attempts). split; [lia|exact Hs].
      * destruct (md_maxAttempts <=? S attempts)%nat; [discriminate|apply Hrec].
Qed.

Lemma pollMetaDefenderResults_eq (script : nat -> MdAnswer) :
  pollMetaDefenderResults script = md_loop script md_maxAttempts 0 0.
Proof. reflexivity. Qed.

(** X4. [pollMetaDefenderResults] returns only a finished scan: whatever
    it returns is the [scan_results] of one of the first 30 answers, and
    its [progress_percentage] is the number 100. *)
Theorem md_poll_returns_only_finished (script : nat -> MdAnswer) (v : value) :
  poll_result (pollMetaDefenderResults script) = Normal v ->
  get v "progress_percentage" = Normal (VNum 100)
  /\ exists n, (1 <= n <= 30)%nat /\ script n = MdResults v.
Proof.
  rewrite pollMetaDefenderResults_eq. intros H.
  apply md_loop_returns in H. destruct H as (Hg & n & Hn & Hs).
  split; [exact Hg|]. exists n. split; [|exact Hs].
  unfold md_maxAttempts in Hn. lia.
Qed.

(** X4 (witness). The reputation scan of the calm world. *)
Lemma md_poll_returns_only_finished_witness :
  get sample_threats "progress_percentage" = Normal (VNum 100).
Proof.
  apply (md_poll_returns_only_finished (md_progress calm_world) sample_threats).
  vm_compute. reflexivity.
Defined.

(** X5. In [pollMobSFScanLogs] completion takes precedence over failure:
    a fresh last log entry that carries a completion indicator at the
    first poll ends the poll with the logs there and then, also when it
    carries a failure indicator such as the word "error". *)
Theorem mobsf_poll_completion_beats_failure (script : nat -> MobsfAnswer)
    (logs : list LogEntry) (lastLog : LogEntry) :
  script 1%nat = MobBody (Some logs) ->
  last logs = Some lastLog ->
  log_timestamp lastLog <> Some EmptyString ->
  completion_indicator (toLowerCase (log_text lastLog)) = true ->
  pollMobSFScanLogs script
  = {| poll_result := Normal logs; poll_attempts := 1; poll_waits := 0 |}.
Proof.
  intros Hs Hl Hts Hc. unfold pollMobSFScanLogs.
  change mobsf_maxAttempts with (S 59). rewrite mobsf_loop_step. cbv zeta.
  rewrite Hs, Hl. rewrite decide_False by exact Hts. by rewrite Hc.
Qed.

(** X5 (witness). "Scan completed with 1 error". *)
Lemma mobsf_poll_completion_beats_failure_witness :
  failure_indicator (toLowerCase (log_text mixed_log)) = true
  /\ pollMobSFScanLogs (fun _ => MobBody (Some [mixed_log]))
     = {| poll_result := Normal [mixed_log]; poll_attempts := 1; poll_waits := 0 |}.
Proof.
  split; [reflexivity|].
  apply (mobsf_poll_completion_beats_failure (fun _ => MobBody (Some [mixed_log]))
           [mixed_log] mixed_log).
  - reflexivity.
  - reflexivity.
  - vm_compute. discriminate.
  - reflexivity.
Defined.

Lemma mobsf_loop_stale (script : nat -> MobsfAnswer) (ts : option string) :
  forall remaining attempts waits,
    (forall n, (attempts < n <= attempts + remaining)%nat ->
               exists lastLog, last_entry (script n) = Some lastLog
                               /\ log_timestamp lastLog = ts) ->
    mobsf_loop script remaining attempts waits ts
    = mkPollRun (Throw mobsf_timeout) (attempts + remaining) (waits + remaining).
Proof.
  induction remaining as [|remaining IH]; intros attempts waits Hst.
  - cbn [mobsf_loop]. f_equal; lia.
  - rewrite mobsf_loop_step. cbv zeta.
    destruct (Hst (S attempts)) as (lastLog & Hl & Hts); [lia|].
    destruct (script (S attempts)) as [e|[logs|]]; cbn [last_entry] in Hl;
      try discriminate.
    rewrite Hl. rewrite decide_True by exact Hts.
    rewrite IH by (intros n Hn; apply Hst; lia).
    f_equal; lia.
Qed.

(** X6. [pollMobSFScanLogs] looks at a last log entry only if the text
    before its first " - " differs from that of the entry it looked at
    before. When the last entry of every answer carries one and the same
    timestamp, and the first of them says neither completed nor failed,
    the later entries are never looked at, whatever they say, and the
    poll raises the timeout after 60 requests. *)
Theorem mobsf_poll_same_timestamp_overlooked (script : nat -> MobsfAnswer)
    (ts : option string) (first : LogEntry) :
  (forall n, (1 <= n <= 60)%nat ->
             exists lastLog, last_entry (script n) = Some lastLog
                             /\ log_timestamp lastLog = ts) ->
  last_entry (script 1%nat) = Some first ->
  completion_indicator (toLowerCase (log_text first)) = false ->
  failure_indicator (toLowerCase (log_text first)) = false ->
  pollMobSFScanLogs script
  = {| poll_result := Throw mobsf_timeout; poll_attempts := 60; poll_waits := 60 |}.
Proof.
  intros Hst Hfirst Hc Hf. unfold pollMobSFScanLogs.
  destruct (decide (ts = Some EmptyString)) as [->|Hne].
  - rewrite mobsf_loop_stale; [reflexivity|].
    intros n Hn. apply Hst. unfold mobsf_maxAttempts in Hn. lia.
  - change mobsf_maxAttempts with (S 59). rewrite mobsf_loop_step. cbv zeta.
    destruct (Hst 1%nat) as (lastLog & Hl & Hts); [lia|].
    rewrite Hfirst in Hl. injection Hl as <-.
    destruct (script 1%nat) as [e|[logs|]]; cbn [last_entry] in Hfirst;
      try discriminate.
    rewrite Hfirst. rewrite decide_False by (rewrite Hts; exact Hne).
    rewrite Hc, Hf, Hts.
    rewrite mobsf_loop_stale; [reflexivity|].
    intros n Hn. apply Hst. lia.
Qed.

(** X6 (witness). The entry that says the report was saved comes within
    the second of the entry before it. *)
Lemma mobsf_poll_same_timestamp_overlooked_witness :
  pollMobSFScanLogs mobsf_done_in_same_second
  = {| poll_result := Throw mobsf_timeout; poll_attempts := 60; poll_waits := 60 |}.
Proof.
  apply (mobsf_poll_same_timestamp_overlooked mobsf_done_in_same_second
           (Some "10:00:09") (LogStr "10:00:09 - Reading manifest")).
  - intros n Hn. destruct n as [|[|n]]; [lia| |].
    + eexists. split; reflexivity.
    + exists (LogStr "10:00:09 - Saving to Database").
      split; [|reflexivity].
      unfold mobsf_done_in_same_second, script_of.
      cbn [Nat.sub nth]. destruct n; reflexivity.
  - reflexivity.
  - reflexivity.
  - reflexivity.
Defined.

Lemma ha_loop_done (script : nat -> HaAnswer) (report : value) :
  forall remaining k attempts waits,
    (1 <= k <= remaining)%nat ->
    (attempts + remaining = ha_maxAttempts)%nat ->
    ha_done (script (attempts + k)%nat) = Some report ->
    (forall j, (1 <= j < k)%nat -> ha_done (script (attempts + j)%nat) = None) ->
    exists w,
      ha_loop script remaining attempts waits
      = mkPollRun (Normal report) (attempts + k)%nat w.
Proof.
  induction remaining as [|remaining IH]; intros k attempts waits Hk Hinv Hdone Hbefore;
    [lia|].
  rewrite ha_loop_step. cbv zeta.
  destruct (decide (k = 1%nat)) as [->|Hk1].
  - replace (attempts + 1)%nat with (S attempts) in * by lia.
    destruct (script (S attempts)) as [e|state [r|e]]; cbn [ha_done] in Hdone;
      try discriminate.
    destruct (String.eqb state "SUCCESS"); [|discriminate].
    injection Hdone as ->. eauto.
  - assert (Hnone : ha_done (script (S attempts)) = None).
    { replace (S attempts) with (attempts + 1)%nat by lia. apply Hbefore. lia. }
    assert (Hlt : (ha_maxAttempts <=? S attempts)%nat = false).
    { apply Nat.leb_gt. lia. }
    assert (Hrec : forall w0,
               exists w, ha_loop script remaining (S attempts) w0
                         = mkPollRun (Normal report) (attempts + k)%nat w).
    { intros w0.
      destruct (IH (k - 1)%nat (S attempts) w0) as [w Hw]; try lia.
      - replace (S attempts + (k - 1))%nat with (attempts + k)%nat by lia. exact Hdone.
      - intros j Hj. replace (S attempts + j)%nat with (attempts + S j)%nat by lia.
        apply Hbefore. lia.
      - exists w. rewrite Hw. f_equal. lia. }
    destruct (script (S attempts)) as [e|state summary]; cbn [ha_done] in Hnone.
    + rewrite Hlt. apply Hrec.
    + destruct (String.eqb state "SUCCESS").
      { destruct summary; [discriminate|]. rewrite Hlt. apply Hrec. }
      destruct (String.eqb state "IN_PROGRESS"); [apply Hrec|].
      destruct (String.eqb state "ERROR"); [rewrite Hlt|]; apply Hrec.
Qed.

(** X7. [pollHybridAnalysisResults] returns the report of the first
    answer among the first 30 whose state is "SUCCESS" and whose report
    could be fetched, at that attempt, whatever came before: requests
    answered 404, other thrown requests, the states "IN_PROGRESS" and
    "ERROR", or a "SUCCESS" whose report could not be fetched. *)
Theorem ha_poll_first_success_wins (script : nat -> HaAnswer) (k : nat)
    (report : value) :
  (1 <= k <= 30)%nat ->
  ha_done (script k) = Some report ->
  (forall j, (1 <= j < k)%nat -> ha_done (script j) = None) ->
  poll_result (pollHybridAnalysisResults script) = Normal report
  /\ poll_attempts (pollHybridAnalysisResults script) = k.
Proof.
  intros Hk Hdone Hbefore.
  destruct (ha_loop_done script report ha_maxAttempts k 0 0) as [w Hw]; auto.
  unfold pollHybridAnalysisResults. rewrite Hw. auto.
Qed.

(** X7 (witness). *)
Lemma ha_poll_first_success_wins_witness :
  poll_result (pollHybridAnalysisResults ha_rough_then_done) = Normal sample_sandbox
  /\ poll_attempts (pollHybridAnalysisResults ha_rough_then_done) = 5%nat.
Proof.
  apply (ha_poll_first_success_wins ha_rough_then_done 5 sample_sandbox).
  - lia.
  - reflexivity.
  - intros j Hj. destruct j as [|[|[|[|[|j]]]]]; try lia; reflexivity.
Defined.

(* ===================================================================== *)
(** * Further properties: the provider clients                            *)
(* ===================================================================== *)

Lemma runVirusTotalScan_eq (w : World) :
  runVirusTotalScan w
  = match vt_attempt w with
    | Normal v => Normal v
    | Throw e =>
        if says_too_large e then
          match vt_hash_lookup w with
          | Normal (status, results) =>
              if status =? 200 then Normal results
              else Normal (vt_failed_object (message e))
          | Throw _ => Normal (vt_failed_object (message e))
          end
        else Normal (vt_failed_object (message e))
    end.
Proof.
  unfold runVirusTotalScan, vt_attempt, says_too_large.
  repeat case_match; simplify_eq; reflexivity.
Qed.

(** X8. [runVirusTotalScan] never throws. What it returns is the skip
    object of a file that is too large, the results its poll returned,
    the results of the hash lookup, or its failure object
    [{ error, skipped: true, reason }]; so the [catch] clause that
    [processScan] keeps for it never runs. *)
Theorem vt_scan_never_throws (w : World) :
  exists v : value,
    runVirusTotalScan w = Normal v
    /\ ((exists fileSize, vt_stat w = Normal fileSize /\ v = vt_too_large_object w fileSize)
        \/ poll_result (pollVirusTotalResults (vt_analyses w)) = Normal v
        \/ (exists status, vt_hash_lookup w = Normal (status, v))
        \/ (exists r, v = vt_failed_object r))
    /\ forall s : System,
         run_optional VirusTotal (runVirusTotalScan w) s
         = (with_trace (fun t => t ++ [Dispatched VirusTotal; Settled VirusTotal]) s,
            Normal v).
Proof.
  assert (H : exists v : value,
             runVirusTotalScan w = Normal v
             /\ ((exists fileSize,
                     vt_stat w = Normal fileSize /\ v = vt_too_large_object w fileSize)
                 \/ poll_result (pollVirusTotalResults (vt_analyses w)) = Normal v
                 \/ (exists status, vt_hash_lookup w = Normal (status, v))
                 \/ (exists r, v = vt_failed_object r))).
  { unfold runVirusTotalScan, cbind.
    repeat case_match; simplify_eq; eexists; (split; [reflexivity|]); eauto 6. }
  destruct H as (v & Hv & Hcases). exists v. split; [exact Hv|]. split; [exact Hcases|].
  intros s. rewrite run_optional_eq, Hv. reflexivity.
Qed.

(** X9. The size limit of [runVirusTotalScan] is exclusive: a file of
    more than 650 * 1024 * 1024 bytes is skipped, whatever the service
    would answer; a file of up to that size, the limit itself included,
    is uploaded, and the results of the poll are returned. *)
Theorem vt_scan_size_limit (w : World) (fileSize : Z) :
  vt_stat w = Normal fileSize ->
  (681574400 < fileSize -> runVirusTotalScan w = Normal (vt_too_large_object w fileSize))
  /\ (fileSize <= 681574400 ->
      vt_upload w = Normal tt ->
      forall results,
        poll_result (pollVirusTotalResults (vt_analyses w)) = Normal results ->
        runVirusTotalScan w = Normal results).
Proof.
  intros Hstat. split.
  - intros Hbig. rewrite runVirusTotalScan_eq. unfold vt_attempt. rewrite Hstat.
    cbn [cbind]. replace (vt_size_limit <? fileSize) with true; [reflexivity|].
    symmetry. apply Z.ltb_lt. unfold vt_size_limit. lia.
  - intros Hsmall Hup results Hpoll. rewrite runVirusTotalScan_eq. unfold vt_attempt.
    rewrite Hstat. cbn [cbind].
    replace (vt_size_limit <? fileSize) with false.
    + by rewrite Hup, Hpoll.
    + symmetry. apply Z.ltb_ge. unfold vt_size_limit. lia.
Qed.

(** X9 (witness). One byte above the limit, and the limit itself. *)
Lemma vt_scan_size_limit_witness :
  runVirusTotalScan (with_vt_stat (Normal 681574401) calm_world)
  = Normal (skipped_object "File too large for VirusTotal scan (0.00MB > 650MB limit)")
  /\ runVirusTotalScan (with_vt_stat (Normal 681574400) calm_world) = Normal sample_verdicts.
Proof.
  split.
  - apply (proj1 (vt_scan_size_limit (with_vt_stat (Normal 681574401) calm_world)
                    681574401 eq_refl)). lia.
  - apply (proj2 (vt_scan_size_limit (with_vt_stat (Normal 681574400) calm_world)
                    681574400 eq_refl)); [lia|reflexivity|reflexivity].
Defined.

(** X10. When the scan of [runVirusTotalScan] fails with status 413 or
    with a message that contains "large", the file is looked up by its
    hash: a lookup answered with status 200 turns the failure into a
    result; any other answer leaves the failure object, with the message
    of the first failure. A failure that does not say "too large" is
    returned as the failure object without a lookup. *)
Theorem vt_scan_falls_back_to_hash_lookup (w : World) (e : error) :
  vt_attempt w = Throw e ->
  (says_too_large e = true ->
   (forall results, vt_hash_lookup w = Normal (200, results) ->
                    runVirusTotalScan w = Normal results)
   /\ (forall status results,
          vt_hash_lookup w = Normal (status, results) -> status <> 200 ->
          runVirusTotalScan w = Normal (vt_failed_object (message e)))
   /\ (forall e', vt_hash_lookup w = Throw e' ->
                  runVirusTotalScan w = Normal (vt_failed_object (message e))))
  /\ (says_too_large e = false ->
      runVirusTotalScan w = Normal (vt_failed_object (message e))).
Proof.
  intros Hatt. rewrite runVirusTotalScan_eq, Hatt. split.
  - intros ->. split; [|split].
    + by intros results ->.
    + intros status results -> Hne. apply Z.eqb_neq in Hne. by rewrite Hne.
    + by intros e' ->.
  - by intros ->.
Qed.

(** X10 (witness). The upload is refused with 413 and the hash is known;
    the upload is refused with 413 and the hash is not known. *)
Lemma vt_scan_falls_back_to_hash_lookup_witness :
  runVirusTotalScan
    (with_vt_hash_lookup (Normal (200, sample_verdicts))
       (with_vt_upload (Throw payload_too_large) calm_world))
  = Normal sample_verdicts
  /\ runVirusTotalScan (with_vt_upload (Throw payload_too_large) calm_world)
     = Normal (vt_failed_object "Request failed with status code 413").
Proof.
  split.
  - apply (proj1 (proj1 (vt_scan_falls_back_to_hash_lookup
                           (with_vt_hash_lookup (Normal (200, sample_verdicts))
                              (with_vt_upload (Throw payload_too_large) calm_world))
                           payload_too_large eq_refl) eq_refl)).
    reflexivity.
  - apply (proj2 (proj2 (proj1 (vt_scan_falls_back_to_hash_lookup
                                  (with_vt_upload (Throw payload_too_large) calm_world)
                                  payload_too_large eq_refl) eq_refl))
             (Error "Request failed with status code 404")).
    reflexivity.
Defined.

Lemma mime_among_false (allowed : list string) (m : option string) :
  (forall a, a ∈ allowed -> m <> Some a) -> mime_among allowed m = false.
Proof.
  intros H. destruct m as [mime|]; [|reflexivity]. cbn [mime_among].
  apply bool_decide_eq_false. intros Hin. by apply (H mime).
Qed.

(** X11. The type gates of the two clients that rethrow. The sandbox
    client throws for every file whose detected type is not the APK type,
    the reputation client for every file whose type is neither the APK
    type nor [application/octet-stream]; neither uploads anything then.
    A file of type [application/octet-stream] passes the reputation
    client's gate and fails the sandbox client's. A file that cannot be
    read makes both throw the read error. *)
Theorem type_gates_of_the_clients (w : World) :
  (forall m, local_file_mime w = Normal m -> m <> Some apk_mime ->
             runHybridAnalysisScan w
             = Throw (Error ("Invalid file type: " +:+ mime_text m
                               +:+ ". Only APK files are allowed.")))
  /\ (forall m, local_file_mime w = Normal m ->
                m <> Some apk_mime -> m <> Some "application/octet-stream" ->
                runMetaDefenderScan w
                = Throw (Error ("Invalid file type: " +:+ mime_text m
                                  +:+ ". Only APK or IPA files are allowed.")))
  /\ (local_file_mime w = Normal (Some "application/octet-stream") ->
      md_upload w = Normal 200 ->
      runMetaDefenderScan w = poll_result (pollMetaDefenderResults (md_progress w)))
  /\ (forall e, local_file_mime w = Throw e ->
                runHybridAnalysisScan w = Throw e /\ runMetaDefenderScan w = Throw e).
Proof.
  split; [|split; [|split]].
  - intros m Hm Hne. unfold runHybridAnalysisScan. rewrite Hm. cbn [cbind].
    rewrite mime_among_false; [reflexivity|].
    intros a Ha. apply list_elem_of_singleton in Ha. by subst.
  - intros m Hm Hne1 Hne2. unfold runMetaDefenderScan. rewrite Hm. cbn [cbind].
    rewrite mime_among_false; [reflexivity|].
    intros a Ha. apply elem_of_cons in Ha as [->|Ha]; [done|].
    apply list_elem_of_singleton in Ha. by subst.
  - intros Hm Hup. unfold runMetaDefenderScan. rewrite Hm, Hup. reflexivity.
  - intros e Hm. unfold runHybridAnalysisScan, runMetaDefenderScan. rewrite Hm. by split.
Qed.

(** X11 (witness). A file of type [application/octet-stream], and a file
    whose type is not detected. *)
Lemma type_gates_of_the_clients_witness :
  runHybridAnalysisScan
    (with_local_file_mime (Normal (Some "application/octet-stream")) calm_world)
  = Throw (Error "Invalid file type: application/octet-stream. Only APK files are allowed.")
  /\ runMetaDefenderScan
       (with_local_file_mime (Normal (Some "application/octet-stream")) calm_world)
     = Normal sample_threats
  /\ runMetaDefenderScan (with_local_file_mime (Normal None) calm_world)
     = Throw (Error "Invalid file type: undefined. Only APK or IPA files are allowed.").
Proof.
  split; [|split].
  - apply (proj1 (type_gates_of_the_clients
                    (with_local_file_mime (Normal (Some "application/octet-stream"))
                       calm_world)) (Some "application/octet-stream") eq_refl).
    discriminate.
  - rewrite (proj1 (proj2 (proj2 (type_gates_of_the_clients
                    (with_local_file_mime (Normal (Some "application/octet-stream"))
                       calm_world)))) eq_refl eq_refl).
    reflexivity.
  - apply (proj1 (proj2 (type_gates_of_the_clients
                    (with_local_file_mime (Normal None) calm_world))) None eq_refl);
      discriminate.
Defined.

Lemma mobsf_loop_no_logs (script : nat -> MobsfAnswer) :
  forall remaining attempts waits ts,
    (forall n, (attempts < n <= attempts + remaining)%nat -> script n = MobBody (Some [])) ->
    mobsf_loop script remaining attempts waits ts
    = mkPollRun (Throw mobsf_timeout) (attempts + remaining) (waits + remaining).
Proof.
  induction remaining as [|remaining IH]; intros attempts waits ts Hn.
  - cbn [mobsf_loop]. f_equal; lia.
  - rewrite mobsf_loop_step. cbv zeta. rewrite (Hn (S attempts)) by lia.
    cbn [last]. rewrite IH by (intros n Hx; apply Hn; lia). f_equal; lia.
Qed.

(** X12. A static analysis that never writes a log fails the job after
    exactly 60 polls: [pollMobSFScanLogs] raises its timeout,
    [runMobSFScan] rethrows it under its own message, and [processScan]
    throws that error without calling another provider. *)
Theorem silent_static_analysis_fails_the_job (w : World) (job : JobData) (s : System) :
  fetch_ok w job ->
  mobsf_upload w = Normal tt -> mobsf_start w = Normal tt ->
  (forall n, (1 <= n <= 60)%nat -> mobsf_logs w n = MobBody (Some [])) ->
  pollMobSFScanLogs (mobsf_logs w)
  = {| poll_result := Throw mobsf_timeout; poll_attempts := 60; poll_waits := 60 |}
  /\ (processScan w job s).2
     = Throw (Error "MobSF scan failed: MobSF scan timed out after 60 attempts")
  /\ trace (processScan w job s).1
     = trace s ++ [Dispatched MobSF; Settled MobSF;
                   UpdateSent (job_scanId job) (status_only "failed")].
Proof.
  intros Hfetch Hup Hstart Hlogs.
  assert (Hpoll : pollMobSFScanLogs (mobsf_logs w)
                  = mkPollRun (Throw mobsf_timeout) 60 60).
  { unfold pollMobSFScanLogs. rewrite mobsf_loop_no_logs; [reflexivity|].
    intros n Hn. apply Hlogs. unfold mobsf_maxAttempts in Hn. lia. }
  split; [exact Hpoll|].
  assert (Hrun : runMobSFScan w
                 = Throw (Error "MobSF scan failed: MobSF scan timed out after 60 attempts")).
  { unfold runMobSFScan. by rewrite Hup, Hstart, Hpoll. }
  destruct (processScan_body_mandatory_fails w job s _ Hrun)
    as (s1 & e1 & Hbody & _ & _ & _ & Hok).
  destruct (Hok Hfetch) as (-> & Ht & _).
  rewrite (processScan_throws w job s s1 _ Hbody). cbn [fst snd]. split; [reflexivity|].
  destruct (mark_failed_frame w job s1) as (_ & _ & _ & -> & _).
  rewrite Ht. by rewrite <- app_assoc.
Qed.

(** X12 (witness). The calm world with a static analysis that stays
    silent. *)
Lemma silent_static_analysis_fails_the_job_witness :
  (processScan (with_mobsf_logs (fun _ => MobBody (Some [])) calm_world) sample_job
     (sample_system "pending")).2
  = Throw (Error "MobSF scan failed: MobSF scan timed out after 60 attempts").
Proof.
  apply (silent_static_analysis_fails_the_job
           (with_mobsf_logs (fun _ => MobBody (Some [])) calm_world) sample_job
           (sample_system "pending") calm_fetch_ok eq_refl eq_refl).
  intros n Hn. reflexivity.
Defined.

(* ===================================================================== *)
(** * Further properties of the scoring engine                            *)
(* ===================================================================== *)

(** X13. For every bundle of typed outcomes, whatever its AV engines
    are called, [calculateTFScore] returns an integer from 0 to 100,
    never [NaN], and the [tf_score] the worker writes ([tfScore || 0]) is
    that score, which meets the CHECK constraint of the column. *)
Theorem stored_score_fits_the_column (b : Bundle) (pdfPath : string) :
  exists z : Z,
    calculateTFScore (encode b) = Normal (Int z)
    /\ set_tf_score (completed_update (Int z) pdfPath (encode b)) = Some z
    /\ 0 <= z <= 100.
Proof.
  destruct (calculateTFScore_range b) as (z & Hz & Hr).
  exists z. split; [exact Hz|]. split; [reflexivity|exact Hr].
Qed.

Lemma push_if_sublist (b : bool) (x : string) (l l' : list string) :
  sublist l l' -> sublist (push_if b x l) (l' ++ [x]).
Proof.
  intros H. destruct b; cbn [push_if].
  - by apply sublist_app.
  - by apply sublist_inserts_r.
Qed.

(** X14. Whatever the providers returned, the recommendations that
    [generateRecommendations] returns are a selection of its six texts in
    their fixed order: none twice, none out of order, nothing else. *)
Theorem recommendations_are_an_ordered_selection (results : Results)
    (recs : list string) :
  generateRecommendations results = Normal recs ->
  sublist recs all_recommendations.
Proof.
  unfold generateRecommendations. intros H.
  destruct (has_findings (mobsf results) "high") as [h|]; [|discriminate].
  cbn [cbind] in H.
  destruct (has_findings (mobsf results) "medium") as [m|]; [|discriminate].
  cbn [cbind] in H.
  destruct (has_findings (mobsf results) "low") as [l|]; [|discriminate].
  cbn [cbind] in H.
  destruct (if truthy (virustotal results)
            then (n <- count_values category_is_malicious (virustotal results) ;;
                  Normal (0 <? n))%js
            else Normal false) as [vt|]; [|discriminate].
  cbn [cbind] in H.
  destruct (get_opt (metadefender results) "scan_details") as [details|]; [|discriminate].
  cbn [cbind] in H.
  destruct (if truthy details
            then (n <- count_values threat_found details ;; Normal (0 <? n))%js
            else Normal false) as [md|]; [|discriminate].
  cbn [cbind] in H.
  destruct (get_opt (hybridAnalysis results) "verdict") as [verdict|]; [|discriminate].
  cbn [cbind] in H. injection H as <-.
  change all_recommendations
    with (((((([] ++ [rec_high]) ++ [rec_medium]) ++ [rec_low]) ++ [rec_virustotal])
            ++ [rec_metadefender]) ++ [rec_hybrid]).
  repeat apply push_if_sublist. constructor.
Qed.

(** X14 (witness). The recommendations of the design document's
    scenario. *)
Lemma recommendations_are_an_ordered_selection_witness :
  sublist [rec_high; rec_medium; rec_virustotal] all_recommendations.
Proof.
  apply (recommendations_are_an_ordered_selection (encode scenario)).
  vm_compute. reflexivity.
Defined.

Lemma has_findings_adverse (o : Outcome StaticFindings) :
  has_findings (encode_static_outcome o) "high"
  = Normal (adverse (fun p => length (sf_high p)) o)
  /\ has_findings (encode_static_outcome o) "medium"
     = Normal (adverse (fun p => length (sf_medium p)) o)
  /\ has_findings (encode_static_outcome o) "low"
     = Normal (adverse (fun p => length (sf_low p)) o).
Proof.
  destruct o as [p|r|r]; unfold encode_static_outcome; cbn [encode_outcome adverse].
  - unfold has_findings, encode_static.
    cbn [get_opt get assoc String.eqb Ascii.eqb Bool.eqb cbind truthy].
    split; [|split]; do 2 f_equal.
    + by destruct (sf_high p).
    + by destruct (sf_medium p).
    + by destruct (sf_low p).
  - by cbn.
  - by cbn.
Qed.

Lemma positive_count (n : nat) : (0 <? Z.of_nat n) = negb (Nat.eqb n 0).
Proof. destruct n; reflexivity. Qed.

Lemma generateRecommendations_exact (b : Bundle) :
  generateRecommendations (encode b) = Normal (recommendations_of b).
Proof.
  unfold generateRecommendations, recommendations_of, encode.
  cbn [mobsf virustotal metadefender hybridAnalysis].
  destruct (has_findings_adverse (static_analysis b)) as (-> & -> & ->).
  cbn [cbind].
  assert (Hvt : (if truthy (encode_av_outcome (av b))
                 then (n <- count_values category_is_malicious (encode_av_outcome (av b)) ;;
                       Normal (0 <? n))%js
                 else Normal false) = Normal (adverse malicious_engines (av b))).
  { destruct (av b) as [p|r|r]; unfold encode_av_outcome; cbn [encode_outcome adverse].
    - rewrite count_malicious. cbn [truthy encode_verdicts cbind].
      by rewrite positive_count.
    - reflexivity.
    - reflexivity. }
  rewrite Hvt. cbn [cbind].
  assert (Hmd : (details <- get_opt (encode_reputation_outcome (reputation b)) "scan_details" ;;
                 if truthy details
                 then (n <- count_values threat_found details ;; Normal (0 <? n))
                 else Normal false)%js = Normal (adverse detections (reputation b))).
  { destruct (reputation b) as [p|r|r]; unfold encode_reputation_outcome;
      cbn [encode_outcome adverse].
    - unfold encode_threats.
      cbn [get_opt get assoc String.eqb Ascii.eqb Bool.eqb cbind truthy].
      rewrite count_detections. cbn [cbind]. by rewrite positive_count.
    - reflexivity.
    - reflexivity. }
  destruct (get_opt (encode_reputation_outcome (reputation b)) "scan_details")
    as [details|e]; [|discriminate].
  cbn [cbind] in Hmd |- *. rewrite Hmd. cbn [cbind].
  destruct (sandbox b) as [p|r|r]; unfold encode_sandbox_outcome;
    cbn [encode_outcome verdict_malicious].
  - unfold encode_sandbox.
    cbn [get_opt get assoc String.eqb Ascii.eqb Bool.eqb cbind].
    by rewrite is_string_decide.
  - reflexivity.
  - reflexivity.
Qed.

(** X15. The recommendations of a bundle, for every bundle: one text per
    severity of which the static analysis found something, one if an AV
    engine said malicious, one if the reputation service detected
    something, one if the sandbox verdict is "malicious"; a failed or
    skipped provider yields none. Unlike the score, the AV text does not
    depend on the engines' names. *)
Theorem recommendations_of_every_bundle (b : Bundle) :
  generateRecommendations (encode b) = Normal (recommendations_of b).
Proof. apply generateRecommendations_exact. Qed.

Lemma push_if_nil (b : bool) (x : string) (l : list string) :
  push_if b x l = [] -> b = false /\ l = [].
Proof.
  destruct b; cbn [push_if]; [|by auto].
  intros H. by destruct l.
Qed.

Lemma adverse_false {P} (count : P -> nat) (d : P -> Z) (o : Outcome P) :
  (forall p, d p = 0 -> count p = 0%nat) ->
  spec_deduction d o = 0 -> adverse count o = false.
Proof.
  intros Hd H. destruct o as [p|r|r]; cbn [adverse]; [|reflexivity..].
  cbn [spec_deduction] in H. by rewrite (Hd p H).
Qed.

(** X16. A perfect score comes without a recommendation: when the score
    of a bundle is 100, no provider's payload counts an adverse finding,
    and [generateRecommendations] returns the empty list. The converse
    does not hold: a "suspicious" sandbox verdict and the sandbox's
    threats cost points and are never recommended on. *)
Theorem perfect_score_has_no_recommendation (b : Bundle) :
  bundle_ok b ->
  calculateTFScore (encode b) = Normal (Int 100) ->
  generateRecommendations (encode b) = Normal [].
Proof.
  intros Hok. rewrite (calculateTFScore_encode b Hok), generateRecommendations_exact.
  intros [= H]. f_equal.
  destruct spec_deduction_nonneg as (Hst & Hrep & Hsb).
  specialize (Hst (static_analysis b)). specialize (Hrep (reputation b)).
  specialize (Hsb (sandbox b)).
  assert (Hav : 0 <= spec_deduction spec_av (av b)).
  { destruct (av b); cbn [spec_deduction]; unfold spec_av; lia. }
  unfold spec_score, clamp in H.
  assert (H1 : spec_deduction spec_static (static_analysis b) = 0) by lia.
  assert (H2 : spec_deduction spec_av (av b) = 0) by lia.
  assert (H3 : spec_deduction spec_reputation (reputation b) = 0) by lia.
  assert (H4 : spec_deduction spec_sandbox (sandbox b) = 0) by lia.
  unfold recommendations_of.
  rewrite (adverse_false (fun p => length (sf_high p)) spec_static)
    by (exact H1 || (intros p; unfold spec_static; lia)).
  rewrite (adverse_false (fun p => length (sf_medium p)) spec_static)
    by (exact H1 || (intros p; unfold spec_static; lia)).
  rewrite (adverse_false (fun p => length (sf_low p)) spec_static)
    by (exact H1 || (intros p; unfold spec_static; lia)).
  rewrite (adverse_false malicious_engines spec_av)
    by (exact H2 || (intros p; unfold spec_av; lia)).
  rewrite (adverse_false detections spec_reputation)
    by (exact H3 || (intros p; unfold spec_reputation; lia)).
  cbn [push_if].
  destruct (sandbox b) as [p|r|r]; cbn [verdict_malicious]; [|reflexivity..].
  cbn [spec_deduction] in H4. unfold spec_sandbox, spec_verdict in H4.
  case_bool_decide as Hv; [|reflexivity].
  rewrite decide_True in H4 by exact Hv. lia.
Qed.

(** X16 (witness). A bundle of clean payloads; and the suspicious bundle,
    which scores 84 and has no recommendation either. *)
Lemma perfect_score_has_no_recommendation_witness :
  generateRecommendations
    (encode (set_sandbox (Success (mkSandbox "clean" [])) suspicious_bundle)) = Normal []
  /\ calculateTFScore (encode suspicious_bundle) = Normal (Int 84)
  /\ generateRecommendations (encode suspicious_bundle) = Normal [].
Proof.
  split; [|split; reflexivity].
  apply (perfect_score_has_no_recommendation
           (set_sandbox (Success (mkSandbox "clean" [])) suspicious_bundle)).
  - apply (bool_decide_unpack _). vm_compute. exact I.
  - reflexivity.
Defined.

(* ===================================================================== *)
(** * Further properties of the worker                                    *)
(* ===================================================================== *)

Section WorkerFrame.

Variable w : World.
Variable job : JobData.

Implicit Types (s : System) (e : error).

Lemma touches_only_refl s : touches_only w job s s.
Proof.
  unfold touches_only. split_and!; auto.
  exists []. by rewrite app_nil_r.
Qed.

Lemma touches_only_trans s1 s2 s3 :
  touches_only w job s1 s2 -> touches_only w job s2 s3 -> touches_only w job s1 s3.
Proof.
  intros (Hq & Hs & Hd & Ht & Hr & rest & Htr) (Hq' & Hs' & Hd' & Ht' & Hr' & rest' & Htr').
  unfold touches_only. split_and!.
  - congruence.
  - intros id Hid. rewrite Hs', Hs; auto.
  - intros id. rewrite Hd', Hd. tauto.
  - intros dir Hdir. rewrite Ht', Ht; auto.
  - intros path Hpath. rewrite Hr', Hr; auto.
  - exists (rest ++ rest'). by rewrite Htr', Htr, app_assoc.
Qed.

Lemma touches_only_trace s (rest : list Event) :
  touches_only w job s (with_trace (fun t => t ++ rest) s).
Proof. unfold touches_only. cbn. split_and!; eauto. Qed.

Lemma fetch_file_touches s s' (r : completion unit) :
  fetch_file w job s = (s', r) -> touches_only w job s s'.
Proof.
  intros H. destruct (fetch_file_frame w job _ _ _ H) as (Hs & Hr & Hq & Ht).
  unfold touches_only. rewrite Hs, Hr, Hq, Ht. split_and!; auto.
  - clear Hs Hr Hq Ht. revert H.
    unfold fetch_file, bind, throw_if, mkdir, writeFile, lift, ret, throw.
    intros H dir Hdir.
    repeat case_match; simplify_eq; cbn; repeat case_match;
      rewrite ?lookup_alter_ne, ?lookup_insert_ne by congruence; auto.
  - exists []. by rewrite app_nil_r.
Qed.

Lemma run_providers_touches s s' (r : completion Results) :
  run_providers w s = (s', r) -> touches_only w job s s'.
Proof.
  destruct (runMobSFScan w) as [report|e] eqn:Hmob.
  - rewrite (run_providers_ok w s report Hmob). intros [= <- _].
    apply touches_only_trace.
  - rewrite (run_providers_mandatory_fails w s e Hmob). intros [= <- _].
    apply touches_only_trace.
Qed.

Lemma db_update_touches s s' (u : ScanUpdate) (r : completion bool) :
  db_update w (job_scanId job) u s = (s', r) -> touches_only w job s s'.
Proof.
  rewrite db_update_eq.
  destruct (store_accepts w (job_scanId job) u); intros [= <- _].
  - unfold touches_only. cbn. split_and!; eauto.
    + intros id Hid. by rewrite lookup_alter_ne by congruence.
    + intros id. apply lookup_alter_is_Some.
  - apply touches_only_trace.
Qed.

Lemma score_and_persist_touches s s' (results : Results) (r : completion unit) :
  score_and_persist w job results s = (s', r) -> touches_only w job s s'.
Proof.
  unfold score_and_persist, db_update, bind, lift, emit, upload, throw_if, ret, throw, rm.
  intros H.
  repeat case_match; simplify_eq; unfold touches_only; cbn; split_and!;
    try reflexivity;
    try (intros id Hid; by rewrite ?lookup_alter_ne by congruence);
    try (intros id; rewrite ?lookup_alter_is_Some; tauto);
    try (intros dir Hdir; by rewrite ?lookup_delete_ne by congruence);
    try (intros path Hpath; by rewrite ?lookup_insert_ne by congruence);
    first [ by exists []; rewrite app_nil_r
          | eexists; rewrite <- ?app_assoc; reflexivity ].
Qed.

Lemma processScan_body_touches s s' (r : completion unit) :
  processScan_body w job s = (s', r) -> touches_only w job s s'.
Proof.
  unfold processScan_body, bind.
  destruct (fetch_file w job s) as [s0 [[]|e0]] eqn:Hf.
  - destruct (run_providers w s0) as [s1 [results|e1]] eqn:Hp.
    + intros H.
      eapply touches_only_trans; [by eapply fetch_file_touches|].
      eapply touches_only_trans; [by eapply run_providers_touches|].
      by eapply score_and_persist_touches.
    + intros [= <- _].
      eapply touches_only_trans; [by eapply fetch_file_touches|].
      by eapply run_providers_touches.
  - intros [= <- _]. by eapply fetch_file_touches.
Qed.

Lemma processScan_touches s : touches_only w job s (processScan w job s).1.
Proof.
  unfold processScan, try_catch.
  destruct (processScan_body w job s) as [s1 [[]|e]] eqn:Hbody.
  - by eapply processScan_body_touches.
  - unfold bind, throw.
    destruct (db_update w (job_scanId job) (status_only "failed") s1)
      as [s2 [failed_to|e2]] eqn:Hdb; cbn [fst];
      (eapply touches_only_trans;
       [by eapply processScan_body_touches|by eapply db_update_touches]).
Qed.

Lemma run_providers_combined s (report : value) :
  runMobSFScan w = Normal report ->
  run_providers w s
  = (with_trace (fun t => t ++ mandatory_call ++ optional_calls) s,
     Normal (combined_results w report)).
Proof. apply run_providers_ok. Qed.

(** What [score_and_persist] does once the score, the report and the
    recommendations are there. *)
Lemma score_and_persist_late s (results : Results) (n : number) (recs : list string)
    (pdf : list byte) :
  job_scanId job <> EmptyString ->
  calculateTFScore results = Normal n ->
  generateRecommendations results = Normal recs ->
  render_pdf w (pdfDataOf w job n results) = Normal pdf ->
  storage_upload_fails w (pdfPathOf w job) = false ->
  score_and_persist w job results s
  = let u := completed_update n (pdfPathOf w job) results in
    let s1 := with_trace (fun t => t ++ [Assembled; UpdateSent (job_scanId job) u])
                (with_reports (insert (pdfPathOf w job) pdf) s) in
    if store_accepts w (job_scanId job) u then
      let s2 := with_scans (alter (apply_update u) (job_scanId job)) s1 in
      match fs_rm w (tempDirOf w (job_scanId job)) with
      | Normal _ => (with_temp (delete (tempDirOf w (job_scanId job))) s2, Normal tt)
      | Throw e => (s2, Throw e)
      end
    else (s1, Throw (Error "Failed to update scan record")).
Proof.
  intros Hid Hscore Hrecs Hpdf Hup.
  unfold score_and_persist, bind, lift, emit, upload, throw_if, ret, throw, rm.
  rewrite Hscore, Hpdf, Hup, Hrecs. apply String.eqb_neq in Hid. rewrite Hid.
  rewrite db_update_eq. cbv zeta.
  destruct (store_accepts w (job_scanId job)
              (completed_update n (pdfPathOf w job) results)).
  - cbn [with_scans with_trace with_reports scans temp reports queue trace].
    destruct (fs_rm w (tempDirOf w (job_scanId job))); f_equal;
      apply System_eq; cbn; try reflexivity; by rewrite <- app_assoc.
  - f_equal. apply System_eq; cbn; try reflexivity. by rewrite <- app_assoc.
Qed.

End WorkerFrame.

(** X17. Whatever its collaborators answer, and whether it returns or
    throws, [processScan] leaves the queue alone and changes nothing but
    the record, the temporary directory and the report of its own job; it
    makes and removes no record, and it only adds to the events. *)
Theorem worker_touches_only_its_job (w : World) (job : JobData) (s : System) :
  touches_only w job s (processScan w job s).1.
Proof. apply processScan_touches. Qed.

(** X18. [processScan] returns only when everything is in place: the
    static analysis returned a report, the score of the combined results
    was computed, the record of the job is the completed one with these
    results and that score, the rendered report is in the bucket under
    the path the record names, the temporary directory is gone, and the
    last write sent is the completed one. *)
Theorem worker_returns_only_when_persisted (w : World) (job : JobData)
    (s s' : System) (scan : ScanRecord) :
  processScan w job s = (s', Normal tt) ->
  scans s !! job_scanId job = Some scan ->
  exists (report : value) (n : number) (pdf : list byte),
    runMobSFScan w = Normal report
    /\ calculateTFScore (combined_results w report) = Normal n
    /\ render_pdf w (pdfDataOf w job n (combined_results w report)) = Normal pdf
    /\ scans s' !! job_scanId job
       = Some (completed_scan scan (or_zero n) (pdfPathOf w job)
                 (combined_results w report))
    /\ reports s' !! pdfPathOf w job = Some pdf
    /\ temp s' !! tempDirOf w (job_scanId job) = None
    /\ last (trace s')
       = Some (UpdateSent (job_scanId job)
                 (completed_update n (pdfPathOf w job) (combined_results w report))).
Proof.
  intros H Hscan. unfold processScan, try_catch in H.
  destruct (processScan_body w job s) as [s1 [[]|e]] eqn:Hbody.
  2: { unfold bind, throw in H.
       destruct (db_update w (job_scanId job) (status_only "failed") s1) as [? [?|?]];
         discriminate. }
  injection H as ->.
  unfold processScan_body, bind in Hbody.
  destruct (fetch_file w job s) as [s0 [[]|e0]] eqn:Hf; [|discriminate].
  destruct (fetch_file_frame _ _ _ _ _ Hf) as (Hs0 & Hr0 & _ & _).
  destruct (runMobSFScan w) as [report|e] eqn:Hmob.
  2: { rewrite (run_providers_mandatory_fails w s0 e Hmob) in Hbody. discriminate. }
  rewrite (run_providers_combined w s0 report Hmob) in Hbody.
  exists report.
  revert Hbody.
  unfold score_and_persist, db_update, bind, lift, emit, upload, throw_if, ret, throw, rm.
  intros Hbody.
  destruct (calculateTFScore (combined_results w report)) as [n|] eqn:Hscore;
    [|discriminate].
  destruct (render_pdf w (pdfDataOf w job n (combined_results w report)))
    as [pdf|] eqn:Hpdf; [|discriminate].
  exists n, pdf.
  repeat case_match; simplify_eq.
  split_and!; try reflexivity; try assumption; cbn.
  - by rewrite lookup_alter_eq, Hs0, Hscan.
  - apply lookup_insert_eq.
  - apply lookup_delete_eq.
  - apply last_snoc.
Qed.

(** X18 (witness). The sample job in the calm world. *)
Lemma worker_returns_only_when_persisted_witness :
  exists n : number,
    calculateTFScore (combined_results calm_world sample_report) = Normal n
    /\ scans calm_outcome !! "scan-1"
       = Some (completed_scan (sample_scan "pending") (or_zero n)
                 "user-7/scan-1/app_report.pdf"
                 (combined_results calm_world sample_report))
    /\ temp calm_outcome !! "/srv/app/temp/scan-1" = None.
Proof.
  destruct (worker_returns_only_when_persisted calm_world sample_job
              (sample_system "pending") calm_outcome (sample_scan "pending"))
    as (report & n & pdf & Hmob & Hscore & _ & Hrec & _ & Htemp & _).
  - vm_compute. reflexivity.
  - reflexivity.
  - injection Hmob as <-. exists n. split; [exact Hscore|]. split; [exact Hrec|exact Htemp].
Defined.

Section LateFailures.

Variable w : World.
Variable job : JobData.
Variable b : Bundle.

Hypothesis Hfetch : fetch_ok w job.
Hypothesis Hreport : report_ok w job.
Hypothesis Hreal : realises w b.
Hypothesis Hok : bundle_ok b.

(** The job up to the final write. *)
Lemma processScan_body_late (s : System) :
  exists (s1 : System) (pdf : list byte),
    scans s1 = scans s
    /\ is_Some (temp s1 !! tempDirOf w (job_scanId job))
    /\ reports s1 !! pdfPathOf w job = Some pdf
    /\ processScan_body w job s
       = let u := completed_update (Int (spec_score b)) (pdfPathOf w job) (encode b) in
         if store_accepts w (job_scanId job) u then
           let s2 := with_scans (alter (apply_update u) (job_scanId job)) s1 in
           match fs_rm w (tempDirOf w (job_scanId job)) with
           | Normal _ => (with_temp (delete (tempDirOf w (job_scanId job))) s2, Normal tt)
           | Throw e => (s2, Throw e)
           end
         else (s1, Throw (Error "Failed to update scan record")).
Proof.
  destruct (fetch_file_ok w job s Hfetch) as (s0 & Hf & Htemp).
  destruct (fetch_file_frame w job _ _ _ Hf) as (Hs0 & _).
  destruct (generateRecommendations_encode b Hok) as [recs Hrecs].
  destruct Hreport as (Hrender & Hup).
  destruct (Hrender (pdfDataOf w job (Int (spec_score b)) (encode b))) as [pdf Hpdf].
  eexists _, pdf. split_and!; cycle 3.
  - unfold processScan_body, bind.
    rewrite Hf, (run_providers_realises w _ b Hreal).
    apply (score_and_persist_late w job _ (encode b) (Int (spec_score b)) recs pdf
             (proj1 Hfetch) (calculateTFScore_encode b Hok) Hrecs Hpdf Hup).
  - exact Hs0.
  - exact Htemp.
  - cbn. apply lookup_insert_eq.
Qed.

End LateFailures.

(** X19. A cleanup that fails undoes a completed scan. When everything
    up to the final write succeeded and the temporary directory cannot be
    removed, [processScan] throws the error of the removal; the record,
    which was completed, is set to "failed" while it keeps the results,
    the score and the reference to the report, which is in the bucket. *)
Theorem failed_cleanup_fails_a_completed_scan (w : World) (job : JobData) (s : System)
    (b : Bundle) (scan : ScanRecord) (e : error) :
  fetch_ok w job -> report_ok w job -> realises w b -> bundle_ok b ->
  (forall u, store_accepts w (job_scanId job) u = true) ->
  fs_rm w (tempDirOf w (job_scanId job)) = Throw e ->
  scans s !! job_scanId job = Some scan ->
  (processScan w job s).2 = Throw e
  /\ scans (processScan w job s).1 !! job_scanId job
     = Some (with_status "failed"
               (completed_scan scan (spec_score b) (pdfPathOf w job) (encode b)))
  /\ is_Some (reports (processScan w job s).1 !! pdfPathOf w job)
  /\ is_Some (temp (processScan w job s).1 !! tempDirOf w (job_scanId job)).
Proof.
  intros Hfetch Hreport Hreal Hok Hacc Hrm Hscan.
  destruct (processScan_body_late w job b Hfetch Hreport Hreal Hok s)
    as (s1 & pdf & Hs1 & Htemp & Hpdf & Hbody).
  cbv zeta in Hbody. rewrite Hacc, Hrm in Hbody.
  rewrite (processScan_throws w job s _ e Hbody). cbn [fst snd].
  destruct (mark_failed_frame w job
              (with_scans (alter (apply_update
                                    (completed_update (Int (spec_score b))
                                       (pdfPathOf w job) (encode b)))
                             (job_scanId job)) s1))
    as (-> & -> & _ & _ & ->).
  rewrite Hacc. cbn. split_and!.
  - reflexivity.
  - by rewrite !lookup_alter_eq, Hs1, Hscan.
  - by rewrite Hpdf.
  - exact Htemp.
Qed.

Lemma calm_report_ok (w : World) :
  render_pdf w = render_pdf calm_world ->
  storage_upload_fails w = storage_upload_fails calm_world ->
  report_ok w sample_job.
Proof.
  intros Hr Hu. unfold report_ok. rewrite Hr, Hu.
  split; [intros d; eexists; reflexivity|reflexivity].
Defined.

Lemma calm_bundle_ok : bundle_ok calm_bundle.
Proof. apply (bool_decide_unpack _). vm_compute. exact I. Defined.

Lemma calm_realises (w : World) :
  runMobSFScan w = runMobSFScan calm_world ->
  runVirusTotalScan w = runVirusTotalScan calm_world ->
  runMetaDefenderScan w = runMetaDefenderScan calm_world ->
  runHybridAnalysisScan w = runHybridAnalysisScan calm_world ->
  realises w calm_bundle.
Proof.
  intros H1 H2 H3 H4. unfold realises. rewrite H1, H2, H3, H4.
  split; [eexists; split; reflexivity|]. split; [reflexivity|].
  split; reflexivity.
Defined.

(** X19 (witness). The directory of the sample job is busy. *)
Lemma failed_cleanup_fails_a_completed_scan_witness :
  (processScan busy_disk_world sample_job (sample_system "pending")).2
  = Throw (Error "EBUSY: resource busy or locked")
  /\ scans (processScan busy_disk_world sample_job (sample_system "pending")).1 !! "scan-1"
     = Some (with_status "failed"
               (completed_scan (sample_scan "pending") 70 "user-7/scan-1/app_report.pdf"
                  (encode calm_bundle))).
Proof.
  destruct (failed_cleanup_fails_a_completed_scan busy_disk_world sample_job
              (sample_system "pending") calm_bundle (sample_scan "pending")
              (Error "EBUSY: resource busy or locked"))
    as (Hthrow & Hrec & _).
  - exact calm_fetch_ok.
  - by apply calm_report_ok.
  - by apply calm_realises.
  - exact calm_bundle_ok.
  - reflexivity.
  - reflexivity.
  - reflexivity.
  - split; [exact Hthrow|exact Hrec].
Defined.

(** X20. A refused final write orphans the report. When the record
    store refuses the completed record, the report has been uploaded
    already: [processScan] throws, the report stays in the bucket, and
    the record is the old one, with its old results, score and report
    reference, and with its old status or, if the store takes that
    write, "failed". The temporary directory stays, too. *)
Theorem refused_final_write_orphans_the_report (w : World) (job : JobData) (s : System)
    (b : Bundle) (scan : ScanRecord) :
  fetch_ok w job -> report_ok w job -> realises w b -> bundle_ok b ->
  store_accepts w (job_scanId job)
    (completed_update (Int (spec_score b)) (pdfPathOf w job) (encode b)) = false ->
  scans s !! job_scanId job = Some scan ->
  (processScan w job s).2 = Throw (Error "Failed to update scan record")
  /\ is_Some (reports (processScan w job s).1 !! pdfPathOf w job)
  /\ scans (processScan w job s).1 !! job_scanId job
     = Some (if store_accepts w (job_scanId job) (status_only "failed")
             then with_status "failed" scan else scan)
  /\ is_Some (temp (processScan w job s).1 !! tempDirOf w (job_scanId job)).
Proof.
  intros Hfetch Hreport Hreal Hok Hacc Hscan.
  destruct (processScan_body_late w job b Hfetch Hreport Hreal Hok s)
    as (s1 & pdf & Hs1 & Htemp & Hpdf & Hbody).
  cbv zeta in Hbody. rewrite Hacc in Hbody.
  rewrite (processScan_throws w job s _ _ Hbody). cbn [fst snd].
  destruct (mark_failed_frame w job s1) as (-> & -> & _ & _ & ->).
  split_and!.
  - reflexivity.
  - by rewrite Hpdf.
  - destruct (store_accepts w (job_scanId job) (status_only "failed")).
    + by rewrite lookup_alter_eq, Hs1, Hscan.
    + by rewrite Hs1, Hscan.
  - exact Htemp.
Qed.

(** X20 (witness). The record store refuses every write: the report of
    the pending scan is stored, the scan stays pending. *)
Lemma refused_final_write_orphans_the_report_witness :
  is_Some (reports (processScan store_down_world sample_job (sample_system "pending")).1
             !! "user-7/scan-1/app_report.pdf")
  /\ scans (processScan store_down_world sample_job (sample_system "pending")).1 !! "scan-1"
     = Some (sample_scan "pending").
Proof.
  destruct (refused_final_write_orphans_the_report store_down_world sample_job
              (sample_system "pending") calm_bundle (sample_scan "pending"))
    as (_ & Hrep & Hrec & _).
  - exact calm_fetch_ok.
  - by apply calm_report_ok.
  - by apply calm_realises.
  - exact calm_bundle_ok.
  - reflexivity.
  - reflexivity.
  - split; [exact Hrep|exact Hrec].
Defined.

(** X21. The [try]/[catch] around an optional provider covers its call,
    not the use of what it returned: when [calculateTFScore] throws on
    the combined results, [processScan] throws that error after all four
    providers ran; no report is stored and the one write sent is the
    failed status. *)
Theorem scoring_failure_fails_the_job (w : World) (job : JobData) (s : System)
    (report : value) (e : error) :
  fetch_ok w job ->
  runMobSFScan w = Normal report ->
  calculateTFScore (combined_results w report) = Throw e ->
  (processScan w job s).2 = Throw e
  /\ reports (processScan w job s).1 = reports s
  /\ trace (processScan w job s).1
     = trace s ++ mandatory_call ++ optional_calls
         ++ [UpdateSent (job_scanId job) (status_only "failed")].
Proof.
  intros Hfetch Hmob Hscore.
  destruct (fetch_file_ok w job s Hfetch) as (s0 & Hf & _).
  destruct (fetch_file_frame w job _ _ _ Hf) as (_ & Hr0 & _ & Ht0).
  assert (Hbody : processScan_body w job s
                  = (with_trace (fun t => t ++ mandatory_call ++ optional_calls) s0,
                     Throw e)).
  { unfold processScan_body, bind.
    rewrite Hf, (run_providers_combined w s0 report Hmob).
    unfold score_and_persist, bind, lift. by rewrite Hscore. }
  rewrite (processScan_throws w job s _ e Hbody). cbn [fst snd].
  destruct (mark_failed_frame w job
              (with_trace (fun t => t ++ mandatory_call ++ optional_calls) s0))
    as (_ & -> & _ & -> & _).
  cbn. rewrite Hr0, Ht0. split_and!; try reflexivity.
  by rewrite <- !app_assoc.
Qed.

(** X21 (witness). An AV report with a [null] entry. *)
Lemma scoring_failure_fails_the_job_witness :
  runVirusTotalScan null_engine_world = Normal (VObj [("Avast", VNull)])
  /\ (processScan null_engine_world sample_job (sample_system "pending")).2
     = Throw type_error.
Proof.
  split; [reflexivity|].
  apply (scoring_failure_fails_the_job null_engine_world sample_job
           (sample_system "pending") sample_report type_error).
  - exact calm_fetch_ok.
  - reflexivity.
  - reflexivity.
Defined.

(** X22. A job without a scan identifier is refused before anything is
    done: [processScan] throws "Invalid scanId", makes no directory and
    calls no provider; its [catch] clause still sends the failed status,
    for the empty identifier. *)
Theorem nameless_job_is_refused (w : World) (job : JobData) (s : System) :
  job_scanId job = EmptyString ->
  (processScan w job s).2 = Throw (Error "Invalid scanId")
  /\ temp (processScan w job s).1 = temp s
  /\ reports (processScan w job s).1 = reports s
  /\ trace (processScan w job s).1
     = trace s ++ [UpdateSent EmptyString (status_only "failed")].
Proof.
  intros Hid.
  assert (Hbody : processScan_body w job s = (s, Throw (Error "Invalid scanId"))).
  { unfold processScan_body, fetch_file, bind, throw_if, throw. by rewrite Hid. }
  rewrite (processScan_throws w job s _ _ Hbody). cbn [fst snd].
  destruct (mark_failed_frame w job s) as (-> & -> & _ & -> & _).
  by rewrite Hid.
Qed.

(** X22 (witness). *)
Lemma nameless_job_is_refused_witness :
  (processScan calm_world nameless_job (sample_system "pending")).2
  = Throw (Error "Invalid scanId").
Proof.
  apply (nameless_job_is_refused calm_world nameless_job (sample_system "pending")).
  reflexivity.
Defined.

(* ===================================================================== *)
(** * Further properties of the service and of the report service         *)
(* ===================================================================== *)

Section Service.

Variable w : World.

Implicit Types (s : System) (scan : ScanRecord).

Lemma select_single_None scanId userId s :
  (forall scan, scans s !! scanId = Some scan -> user_id scan <> userId) ->
  select_single w scanId userId s = None.
Proof.
  intros H. unfold select_single.
  destruct (store_readable w); [|reflexivity].
  destruct (scans s !! scanId) as [scan|]; [|reflexivity].
  destruct (String.eqb_spec (user_id scan) userId) as [Heq|_]; [|reflexivity].
  by destruct (H scan eq_refl).
Qed.

Lemma select_single_owner scanId userId s scan :
  store_readable w = true ->
  scans s !! scanId = Some scan ->
  user_id scan = userId ->
  select_single w scanId userId s = Some scan.
Proof.
  intros Hr Hscan <-. unfold select_single. by rewrite Hr, Hscan, String.eqb_refl.
Qed.

Lemma select_single_readable scanId userId s scan :
  select_single w scanId userId s = Some scan -> store_readable w = true.
Proof. unfold select_single. by destruct (store_readable w). Qed.

End Service.

(** X23. The scans of other users are not found. For an identifier
    that names no scan of the asking user, be it unknown or another
    user's, the retry, the status query and the report query all answer
    "not found"; the retry leaves the system as it was. *)
Theorem other_users_scans_are_not_found (w : World) (scanId userId : string)
    (s : System) :
  (forall scan, scans s !! scanId = Some scan -> user_id scan <> userId) ->
  retryScan w scanId userId s = (s, inl (NotFoundException "Scan not found"))
  /\ getScanStatus w scanId userId s = inl (NotFoundException "Scan not found")
  /\ getScanReport w scanId userId s = inl (NotFoundException "Report not found").
Proof.
  intros H. unfold retryScan, getScanStatus, getScanReport.
  by rewrite (select_single_None w scanId userId s H).
Qed.

(** X23 (witness). Another user asks for the failed sample scan. *)
Lemma other_users_scans_are_not_found_witness :
  retryScan calm_world "scan-1" "user-8" (sample_system "failed")
  = (sample_system "failed", inl (NotFoundException "Scan not found"))
  /\ getScanStatus calm_world "scan-1" "user-8" (sample_system "failed")
     = inl (NotFoundException "Scan not found")
  /\ getScanReport calm_world "scan-1" "user-8" (sample_system "failed")
     = inl (NotFoundException "Report not found").
Proof.
  apply (other_users_scans_are_not_found calm_world "scan-1" "user-8"
           (sample_system "failed")).
  intros scan Hscan. vm_compute in Hscan. injection Hscan as <-. discriminate.
Defined.

(** X24. Whatever it answers, [retryScan] leaves the directories, the
    reports and the records of other scans alone, and changes of the
    scan's record at most the status, to "retrying". An answer that
    rejects the retry (not found, not failed) or reports that the queue
    failed leaves the system exactly as it was; only the answer "Failed
    to update scan status" comes with an effect. *)
Theorem retry_changes_at_most_the_status (w : World) (scanId userId : string)
    (s : System) :
  temp (retryScan w scanId userId s).1 = temp s
  /\ reports (retryScan w scanId userId s).1 = reports s
  /\ (forall id, id <> scanId ->
                 scans (retryScan w scanId userId s).1 !! id = scans s !! id)
  /\ (forall scan, scans s !! scanId = Some scan ->
        scans (retryScan w scanId userId s).1 !! scanId = Some scan
        \/ scans (retryScan w scanId userId s).1 !! scanId
           = Some (with_status "retrying" scan))
  /\ (forall err, (retryScan w scanId userId s).2 = inl err ->
        err <> InternalServerErrorException "Failed to update scan status" ->
        (retryScan w scanId userId s).1 = s).
Proof.
  unfold retryScan.
  destruct (select_single w scanId userId s) as [scan|] eqn:Hsel;
    [|by cbn; split_and!; auto].
  destruct (negb (String.eqb (scan_status scan) "failed"));
    [by cbn; split_and!; auto|].
  rewrite enqueue_eq.
  destruct (queue_add w _) as [[]|e]; [|by cbn; split_and!; auto].
  rewrite db_update_eq.
  destruct (store_accepts w scanId (status_only "retrying")); cbn; split_and!; auto.
  - intros id Hid. by rewrite lookup_alter_ne by congruence.
  - intros scan' Hscan. right. by rewrite lookup_alter_eq, Hscan.
  - intros err [=].
  - intros err [= <-] Herr. by destruct Herr.
Qed.

(** X24 (witness). The retry of a completed scan. *)
Lemma retry_changes_at_most_the_status_witness :
  (retryScan calm_world "scan-1" "user-7" (sample_system "completed")).1
  = sample_system "completed".
Proof.
  destruct (retry_changes_at_most_the_status calm_world "scan-1" "user-7"
              (sample_system "completed")) as (_ & _ & _ & _ & H).
  apply (H (BadRequestException "Only failed scans can be retried"));
    [reflexivity|discriminate].
Defined.

(** X25. A retry that was accepted cannot be asked for again: until the
    worker has failed the scan once more, a second retry is rejected as
    a client error and changes nothing, so the job is on the queue once. *)
Theorem second_retry_is_rejected (w : World) (scanId userId : string)
    (s s' : System) (reply : RetryReply) :
  retryScan w scanId userId s = (s', inr reply) ->
  retryScan w scanId userId s'
  = (s', inl (BadRequestException "Only failed scans can be retried")).
Proof.
  intros H.
  assert (Hr : store_readable w = true).
  { unfold retryScan in H.
    destruct (select_single w scanId userId s) as [scan|] eqn:Hsel; [|discriminate].
    by apply (select_single_readable w scanId userId s scan). }
  destruct (retryScan_accepts w scanId userId s s' reply H)
    as (scan & _ & Huser & _ & _ & Hrec).
  apply (retryScan_rejects w scanId userId s' (with_status "retrying" scan)).
  - by apply (select_single_owner w scanId userId s' (with_status "retrying" scan)).
  - discriminate.
Qed.

(** X25 (witness). The failed sample scan, retried twice. *)
Lemma second_retry_is_rejected_witness :
  (retryScan calm_world "scan-1" "user-7"
     (retryScan calm_world "scan-1" "user-7" (sample_system "failed")).1).2
  = inl (BadRequestException "Only failed scans can be retried").
Proof.
  rewrite (second_retry_is_rejected calm_world "scan-1" "user-7" (sample_system "failed")
             (retryScan calm_world "scan-1" "user-7" (sample_system "failed")).1
             {| reply_message := "Scan retry initiated successfully";
                reply_scanId := "scan-1" |}).
  - reflexivity.
  - vm_compute. reflexivity.
Defined.

(** X26. From the retry to the report. After an accepted retry of a
    scan whose record carries its own identifier, the status reads
    "retrying" and the job is the last of the queue; when the worker
    runs that job and its collaborators answer well, the status reads
    "completed" and the owner's report shows the score of the bundle. *)
Theorem retried_scan_completes (w : World) (scanId userId : string) (s s' : System)
    (reply : RetryReply) (b : Bundle) :
  (forall scan, scans s !! scanId = Some scan -> scan_id scan = scanId) ->
  retryScan w scanId userId s = (s', inr reply) ->
  (forall job, last (queue s') = Some job -> fetch_ok w job /\ persist_ok w job) ->
  realises w b -> bundle_ok b ->
  exists (job : JobData) (s'' : System) (report : ScanReport),
    last (queue s') = Some job
    /\ getScanStatus w scanId userId s' = inr "retrying"
    /\ processScan w job s' = (s'', Normal tt)
    /\ getScanStatus w scanId userId s'' = inr "completed"
    /\ getScanReport w scanId userId s'' = inr report
    /\ report_tfScore report = Some (spec_score b).
Proof.
  intros Hkey H Hworld Hreal Hok.
  assert (Hr : store_readable w = true).
  { unfold retryScan in H.
    destruct (select_single w scanId userId s) as [scan|] eqn:Hsel; [|discriminate].
    by apply (select_single_readable w scanId userId s scan). }
  destruct (retryScan_accepts w scanId userId s s' reply H)
    as (scan & Hscan & Huser & _ & Hq & Hrec).
  assert (Hlast : last (queue s') = Some (retry_job scan)).
  { rewrite Hq. apply last_snoc. }
  destruct (Hworld _ Hlast) as (Hfetch & Hpersist).
  assert (Hid : job_scanId (retry_job scan) = scanId) by exact (Hkey scan Hscan).
  destruct (processScan_completes w (retry_job scan) s' b (with_status "retrying" scan)
              Hfetch Hpersist Hreal Hok) as (s'' & Hrun & Hrec'' & _).
  { by rewrite Hid. }
  rewrite Hid in Hrec''.
  exists (retry_job scan), s''.
  eexists. split_and!.
  - exact Hlast.
  - unfold getScanStatus.
    by rewrite (select_single_owner w scanId userId s' _ Hr Hrec Huser).
  - exact Hrun.
  - unfold getScanStatus.
    by rewrite (select_single_owner w scanId userId s'' _ Hr Hrec'' Huser).
  - unfold getScanReport.
    rewrite (select_single_owner w scanId userId s'' _ Hr Hrec'' Huser).
    cbn [scan_status completed_scan]. reflexivity.
  - reflexivity.
Qed.

(** X26 (witness). The failed sample scan in the calm world. *)
Lemma retried_scan_completes_witness :
  exists (job : JobData) (s'' : System),
    processScan calm_world job
      (retryScan calm_world "scan-1" "user-7" (sample_system "failed")).1
    = (s'', Normal tt)
    /\ getScanStatus calm_world "scan-1" "user-7" s'' = inr "completed".
Proof.
  destruct (retried_scan_completes calm_world "scan-1" "user-7" (sample_system "failed")
              (retryScan calm_world "scan-1" "user-7" (sample_system "failed")).1
              {| reply_message := "Scan retry initiated successfully";
                 reply_scanId := "scan-1" |} calm_bundle)
    as (job & s'' & report & _ & _ & Hrun & Hst & _).
  - intros scan Hscan. vm_compute in Hscan. by injection Hscan as <-.
  - vm_compute. reflexivity.
  - intros job Hjob. vm_compute in Hjob. injection Hjob as <-.
    split; [exact calm_fetch_ok|].
    unfold persist_ok. split; [intros d; eexists; reflexivity|].
    split; [reflexivity|]. split; reflexivity.
  - by apply calm_realises.
  - exact calm_bundle_ok.
  - exists job, s''. split; [exact Hrun|exact Hst].
Defined.

Lemma storage_path_not_empty (w : World) (k : Intake) (file : UploadedFile)
    (userId : string) :
  String.eqb (storage_path w k file userId) EmptyString = false.
Proof.
  unfold storage_path. cbv zeta. by destruct (trim userId).
Qed.

Lemma strip_uploads_prefix (p : string) : strip_uploads ("app-uploads/" +:+ p) = p.
Proof. reflexivity. Qed.

Lemma extension_refused (k : Intake) (file : UploadedFile) :
  ~ extension_ok k file ->
  negb (String.eqb (toLowerCase (path_extname k (originalname file))) ".apk")
  && negb (String.eqb (toLowerCase (path_extname k (originalname file))) ".ipa") = true.
Proof.
  intros Hno. unfold extension_ok in Hno.
  destruct (String.eqb_spec (toLowerCase (path_extname k (originalname file))) ".apk");
    [tauto|].
  destruct (String.eqb_spec (toLowerCase (path_extname k (originalname file))) ".ipa");
    [tauto|reflexivity].
Qed.

Lemma extension_let_through (k : Intake) (file : UploadedFile) :
  extension_ok k file ->
  negb (String.eqb (toLowerCase (path_extname k (originalname file))) ".apk")
  && negb (String.eqb (toLowerCase (path_extname k (originalname file))) ".ipa") = false.
Proof. by intros [-> | ->]. Qed.

(** X27. What reaches the caller of [uploadAndScan]. A file whose
    extension (ASCII text) is neither .apk nor .ipa, whatever its case,
    is refused with "Only .apk and .ipa files are allowed" before
    anything is done. For a file that is let through, the check of the
    generated path can never fail, the path always holds a slash; the
    state is left as the body of the [try] left it; an answer of the body
    is passed on; and whatever the body throws (the upload, the insert,
    the queue), the caller gets one and the same error, "Scan initiation
    failed", never the error that was thrown. *)
Theorem upload_failures_are_masked (w : World) (k : Intake) (file : UploadedFile)
    (userId : string) (site : Site) :
  (ascii_only (path_extname k (originalname file)) ->
   ~ extension_ok k file ->
   uploadAndScan w k file userId site
   = (site, inl (BadRequestException "Only .apk and .ipa files are allowed")))
  /\ (uploadAndScan_body w k file userId site).2
     <> inl (InternalServerErrorException "Generated file path is invalid")
  /\ (extension_ok k file ->
      (uploadAndScan w k file userId site).1 = (uploadAndScan_body w k file userId site).1
      /\ (forall err, (uploadAndScan_body w k file userId site).2 = inl err ->
                      (uploadAndScan w k file userId site).2
                      = inl (InternalServerErrorException "Scan initiation failed"))
      /\ (forall reply, (uploadAndScan_body w k file userId site).2 = inr reply ->
                        (uploadAndScan w k file userId site).2 = inr reply
                        /\ reply_message reply = "File uploaded and scan initiated")).
Proof.
  split; [|split].
  - intros _ Hno. unfold uploadAndScan. cbv zeta.
    by rewrite (extension_refused k file Hno).
  - unfold uploadAndScan_body, enqueue. cbv zeta. rewrite storage_path_not_empty.
    repeat case_match; simplify_eq; cbn; discriminate.
  - intros Hext. unfold uploadAndScan. cbv zeta.
    rewrite (extension_let_through k file Hext).
    destruct (uploadAndScan_body w k file userId site) as [site' [err|reply]] eqn:Hbody.
    + cbn [fst snd]. split; [reflexivity|]. split; [reflexivity|discriminate].
    + cbn [fst snd]. split; [reflexivity|]. split; [discriminate|].
      intros reply' [= <-]. split; [reflexivity|].
      revert Hbody. unfold uploadAndScan_body, enqueue. cbv zeta.
      rewrite storage_path_not_empty.
      intros Hbody. repeat case_match; simplify_eq. reflexivity.
Qed.

Lemma ascii_only_txt : ascii_only ".txt".
Proof. unfold ascii_only. cbn. repeat constructor; cbn; lia. Defined.

(** X27 (witness). A text file is refused; and when the queue cannot be
    reached, the caller of an upload is not told. *)
Lemma upload_failures_are_masked_witness :
  uploadAndScan calm_world text_intake sample_file "user-7" sample_site
  = (sample_site, inl (BadRequestException "Only .apk and .ipa files are allowed"))
  /\ (uploadAndScan_body queue_down_world sample_intake sample_file "user-7" sample_site).2
     = inl (Uncaught (Error "connect ECONNREFUSED 127.0.0.1:6379"))
  /\ (uploadAndScan queue_down_world sample_intake sample_file "user-7" sample_site).2
     = inl (InternalServerErrorException "Scan initiation failed").
Proof.
  split; [|split; [reflexivity|]].
  - apply (upload_failures_are_masked calm_world text_intake sample_file "user-7"
             sample_site).
    + exact ascii_only_txt.
    + intros [H|H]; vm_compute in H; discriminate.
  - destruct (upload_failures_are_masked queue_down_world sample_intake sample_file
                "user-7" sample_site) as (_ & _ & H).
    destruct H as (_ & Herr & _); [left; reflexivity|].
    apply (Herr (Uncaught (Error "connect ECONNREFUSED 127.0.0.1:6379"))).
    reflexivity.
Defined.

(** X28. A queue that fails strands the scan. When the file was stored
    and the record inserted and the queue then refuses the job, the
    caller is told "Scan initiation failed" while the file stays in the
    bucket and the record stays in the table, pending, with no job on
    the queue; and the retry operation refuses it, for it is not failed. *)
Theorem failed_enqueue_strands_a_pending_scan (w : World) (k : Intake)
    (file : UploadedFile) (userId id : string) (site : Site) (e : error) :
  extension_ok k file ->
  uploads_upload_fails k (storage_path w k file userId) = false ->
  inserted_scan_id k = Some id ->
  scans (site_system site) !! id = None ->
  queue_add w (upload_job w k file userId id) = Throw e ->
  store_readable w = true ->
  let after := (uploadAndScan w k file userId site).1 in
  (uploadAndScan w k file userId site).2
  = inl (InternalServerErrorException "Scan initiation failed")
  /\ site_uploads after !! storage_path w k file userId = Some (buffer file)
  /\ scans (site_system after) !! id
     = Some (pending_scan id (trim userId) file
               ("app-uploads/" +:+ storage_path w k file userId))
  /\ queue (site_system after) = queue (site_system site)
  /\ retryScan w id (trim userId) (site_system after)
     = (site_system after, inl (BadRequestException "Only failed scans can be retried")).
Proof.
  intros Hext Hup Hins Hfresh Hq Hr after.
  assert (Hrun : uploadAndScan w k file userId site
                 = ({| site_system :=
                         with_scans
                           (insert id (pending_scan id (trim userId) file
                                         ("app-uploads/" +:+ storage_path w k file userId)))
                           (site_system site);
                       site_uploads :=
                         <[storage_path w k file userId := buffer file]>
                           (site_uploads site) |},
                    inl (InternalServerErrorException "Scan initiation failed"))).
  { unfold uploadAndScan, uploadAndScan_body. cbv zeta.
    rewrite storage_path_not_empty, Hup, Hins, Hfresh, enqueue_eq.
    fold (upload_job w k file userId id). rewrite Hq.
    by destruct Hext as [-> | ->]. }
  subst after. rewrite Hrun. cbn [fst snd site_system site_uploads].
  split_and!; try reflexivity.
  - apply lookup_insert_eq.
  - cbn. apply lookup_insert_eq.
  - apply (retryScan_rejects w id (trim userId) _
             (pending_scan id (trim userId) file
                ("app-uploads/" +:+ storage_path w k file userId))).
    + apply (select_single_owner w id (trim userId) _
               (pending_scan id (trim userId) file
                  ("app-uploads/" +:+ storage_path w k file userId)) Hr);
        [|reflexivity].
      cbn. apply lookup_insert_eq.
    + discriminate.
Qed.

(** X28 (witness). The queue cannot be reached. *)
Lemma failed_enqueue_strands_a_pending_scan_witness :
  (uploadAndScan queue_down_world sample_intake sample_file "user-7 " sample_site).2
  = inl (InternalServerErrorException "Scan initiation failed")
  /\ scans (site_system
              (uploadAndScan queue_down_world sample_intake sample_file "user-7 "
                 sample_site).1) !! "scan-2"
     = Some (pending_scan "scan-2" "user-7" sample_file
               "app-uploads/user-7/0b9d6c1e_app.apk").
Proof.
  destruct (failed_enqueue_strands_a_pending_scan queue_down_world sample_intake
              sample_file "user-7 " "scan-2" sample_site
              (Error "connect ECONNREFUSED 127.0.0.1:6379"))
    as (Hans & _ & Hrec & _).
  - left. reflexivity.
  - reflexivity.
  - reflexivity.
  - reflexivity.
  - reflexivity.
  - reflexivity.
  - split; [exact Hans|exact Hrec].
Defined.

(** X29. From the upload to the worker. An upload that is accepted has
    stored the file, inserted the pending record of the trimmed user and
    put one job on the queue, for the identifier it answers with; the
    path the worker derives from that job is the path under which the
    file was stored, and the owner's status query reads "pending". *)
Theorem accepted_upload_reaches_the_worker (w : World) (k : Intake)
    (file : UploadedFile) (userId : string) (site site' : Site) (reply : RetryReply) :
  uploadAndScan w k file userId site = (site', inr reply) ->
  store_readable w = true ->
  exists job : JobData,
    queue (site_system site') = queue (site_system site) ++ [job]
    /\ job = upload_job w k file userId (reply_scanId reply)
    /\ strip_uploads (job_filePath job) = storage_path w k file userId
    /\ site_uploads site' !! strip_uploads (job_filePath job) = Some (buffer file)
    /\ scans (site_system site) !! reply_scanId reply = None
    /\ scans (site_system site') !! reply_scanId reply
       = Some (pending_scan (reply_scanId reply) (trim userId) file (job_filePath job))
    /\ getScanStatus w (reply_scanId reply) (trim userId) (site_system site')
       = inr "pending".
Proof.
  unfold uploadAndScan, uploadAndScan_body. cbv zeta.
  rewrite storage_path_not_empty. intros H Hr.
  destruct (negb (String.eqb _ ".apk") && negb (String.eqb _ ".ipa")); [discriminate|].
  destruct (uploads_upload_fails k (storage_path w k file userId)); [discriminate|].
  destruct (inserted_scan_id k) as [id|]; [|discriminate].
  destruct (scans (site_system site) !! id) eqn:Hfresh; [discriminate|].
  rewrite enqueue_eq in H. fold (upload_job w k file userId id) in H.
  destruct (queue_add w (upload_job w k file userId id)) as [[]|e]; [|discriminate].
  injection H as <- <-.
  exists (upload_job w k file userId id). cbn [reply_scanId site_system site_uploads].
  change (job_filePath (upload_job w k file userId id))
    with ("app-uploads/" +:+ storage_path w k file userId).
  rewrite strip_uploads_prefix.
  split_and!; try done.
  - apply lookup_insert_eq.
  - cbn. apply lookup_insert_eq.
  - unfold getScanStatus.
    rewrite (select_single_owner w id (trim userId) _
               (pending_scan id (trim userId) file
                  ("app-uploads/" +:+ storage_path w k file userId)) Hr);
      [reflexivity| |reflexivity].
    cbn. apply lookup_insert_eq.
Qed.

(** X29 (witness). *)
Lemma accepted_upload_reaches_the_worker_witness :
  exists job : JobData,
    queue (site_system
             (uploadAndScan calm_world sample_intake sample_file "user-7 " sample_site).1)
    = [job]
    /\ strip_uploads (job_filePath job) = "user-7/0b9d6c1e_app.apk".
Proof.
  destruct (accepted_upload_reaches_the_worker calm_world sample_intake sample_file
              "user-7 " sample_site
              (uploadAndScan calm_world sample_intake sample_file "user-7 " sample_site).1
              {| reply_message := "File uploaded and scan initiated";
                 reply_scanId := "scan-2" |})
    as (job & Hq & _ & Hpath & _).
  - vm_compute. reflexivity.
  - reflexivity.
  - exists job. split; [exact Hq|exact Hpath].
Defined.

Lemma assoc_filter_excluded (k : string) (ms : list (string * value)) :
  assoc k (List.filter (fun kv => negb (bool_decide (kv.1 ∈ excludedKeys))) ms)
  = if bool_decide (k ∈ excludedKeys) then None else assoc k ms.
Proof.
  induction ms as [|[k' v] ms IH]; [by case_bool_decide|].
  cbn [List.filter fst assoc].
  destruct (String.eqb_spec k k') as [<-|Hne].
  - case_bool_decide as Hin; cbn [negb]; [exact IH|].
    cbn [assoc]. by rewrite String.eqb_refl.
  - destruct (bool_decide (k' ∈ excludedKeys)); cbn [negb]; [exact IH|].
    cbn [assoc]. apply String.eqb_neq in Hne. by rewrite Hne.
Qed.

(** X30. What the report shows. [getScanReport] answers with a report
    only for a completed scan of the asking user; the report carries the
    record's score, and of a static-analysis report that is an object
    every member but the five left out ("strings", "files", "urls",
    "sbom", "logs"), each with the value it has in the record. *)
Theorem report_leaves_out_the_bulk (w : World) (scanId userId : string) (s : System)
    (report : ScanReport) :
  getScanReport w scanId userId s = inr report ->
  exists scan : ScanRecord,
    scans s !! scanId = Some scan /\ user_id scan = userId
    /\ scan_status scan = "completed"
    /\ report_tfScore report = tf_score scan
    /\ forall results ms,
         report_data scan = Some results -> mobsf results = VObj ms ->
         exists ms',
           report_mobsf report = VObj ms'
           /\ forall k, assoc k ms'
                        = if bool_decide (k ∈ excludedKeys) then None else assoc k ms.
Proof.
  unfold getScanReport.
  destruct (select_single w scanId userId s) as [scan|] eqn:Hsel; [|discriminate].
  destruct (select_single_Some w _ _ _ _ Hsel) as (Hscan & Huser).
  destruct (String.eqb_spec (scan_status scan) "completed") as [Hst|_]; [|discriminate].
  cbn [negb]. intros [= <-]. exists scan. split_and!; try done.
  intros results ms Hdata Hmobsf. cbn [report_mobsf].
  unfold report_member. rewrite Hdata, Hmobsf. cbn [truthy object_entries].
  eexists. split; [reflexivity|]. intros key. apply assoc_filter_excluded.
Qed.

(** X30 (witness). A completed scan with strings and logs in its
    static-analysis report. *)
Lemma report_leaves_out_the_bulk_witness :
  exists (report : ScanReport) (ms' : list (string * value)),
    getScanReport calm_world "scan-1" "user-7" bulky_system = inr report
    /\ report_mobsf report = VObj ms'
    /\ assoc "strings" ms' = None
    /\ assoc "version" ms' = Some (VStr "4.0").
Proof.
  destruct (getScanReport calm_world "scan-1" "user-7" bulky_system)
    as [err|report] eqn:Hreport; [discriminate|].
  destruct (report_leaves_out_the_bulk calm_world "scan-1" "user-7" bulky_system
              report Hreport) as (scan & Hscan & _ & _ & _ & Hmobsf).
  vm_compute in Hscan. injection Hscan as <-.
  destruct (Hmobsf _ _ eq_refl eq_refl) as (ms' & Hms' & Hkeys).
  exists report, ms'. split; [reflexivity|]. split; [exact Hms'|].
  split; [exact (Hkeys "strings")|exact (Hkeys "version")].
Defined.
